(** * moleculekit: the Molecule container, its mutation, merge and identity
      operations (src/moleculekit/molecule.py), embedded as Rocq functions.

    Arrays are lists; a method of [Molecule] is a computation in a small
    state-and-exception monad whose state is the object [self]: an exception
    keeps the state reached when it was raised, as a Python exception leaves
    the attributes already assigned. *)

From Stdlib Require Import String ZArith Bool Lia Arith List Permutation Sorted.
From Stdlib Require Import Floats.PrimFloat.
Import ListNotations.
Open Scope string_scope.
Open Scope list_scope.
Open Scope nat_scope.

(** ** Exceptions raised by the modelled code.  The argument of the classes
    the source raises with a message is a short form of that message. *)
Inductive exn : Type :=
| IndexError
| ValueError
| AssertionError
| NameError (msg : string)
| RuntimeError (msg : string)
| TopologyInconsistencyError (msg : string)
| TypeError
| AttributeError.

(** Pure helpers that can raise return a [res]. *)
Inductive res (A : Type) : Type :=
| Val (a : A)
| Exn (e : exn).
Arguments Val {A} a.
Arguments Exn {A} e.

(** ** numpy primitives on one axis *)
Module Np.

Definition float32 : Type := float.
Definition fzero : float32 := 0%float.

(** [np.arange(lo, hi)] on integers; empty when [hi <= lo]. *)
Definition arange (lo hi : Z) : list Z :=
  map (fun k => (lo + Z.of_nat k)%Z) (seq 0 (Z.to_nat (hi - lo))).

Definition memb (i : nat) (l : list nat) : bool := existsb (Nat.eqb i) l.

(** [np.where(mask)[0]] *)
Fixpoint where_from (k : nat) (mask : list bool) : list nat :=
  match mask with
  | [] => []
  | b :: r => if b then k :: where_from (S k) r else where_from (S k) r
  end.
Definition where_ (mask : list bool) : list nat := where_from 0 mask.

(** rows of [l] whose position is not in [idx], positions counted from [k] *)
Fixpoint drop_at {A} (k : nat) (idx : list nat) (l : list A) : list A :=
  match l with
  | [] => []
  | x :: r => if memb k idx then drop_at (S k) idx r else x :: drop_at (S k) idx r
  end.

(** [np.delete(l, idx, axis=0)] for an array of indices: an index out of
    bounds raises IndexError, repeated indices delete the row once. *)
Definition delete {A} (l : list A) (idx : list nat) : res (list A) :=
  if forallb (fun i => i <? length l) idx then Val (drop_at 0 idx l)
  else Exn IndexError.

(** [np.insert(l, index, l2, axis=0)] for a scalar index *)
Definition insert {A} (l : list A) (index : nat) (l2 : list A) : res (list A) :=
  if index <=? length l then Val (firstn index l ++ l2 ++ skipn index l)
  else Exn IndexError.

(** [l[order]]: indexing by an array of indices.  An empty index array is
    a float array, which numpy refuses as an index. *)
Fixpoint take_rows {A} (l : list A) (order : list nat) : res (list A) :=
  match order with
  | [] => Val []
  | i :: r =>
      match nth_error l i with
      | None => Exn IndexError
      | Some x => match take_rows l r with
                  | Val xs => Val (x :: xs)
                  | Exn e => Exn e
                  end
      end
  end.
Definition take {A} (l : list A) (order : list nat) : res (list A) :=
  match order with
  | [] => Exn IndexError
  | _ => take_rows l order
  end.

(** [l[mask]]: a boolean index must have the array's length *)
Fixpoint compress {A} (mask : list bool) (l : list A) : list A :=
  match mask, l with
  | b :: mr, x :: r => if b then x :: compress mr r else compress mr r
  | _, _ => []
  end.
Definition bool_index {A} (l : list A) (mask : list bool) : res (list A) :=
  if length mask =? length l then Val (compress mask l) else Exn IndexError.

(** [l[::skip]] for a positive stride *)
Fixpoint stride_from {A} (k skip : nat) (l : list A) : list A :=
  match l with
  | [] => []
  | x :: r => match k with
              | 0 => x :: stride_from (pred skip) skip r
              | S k' => stride_from k' skip r
              end
  end.
Definition stride {A} (skip : nat) (l : list A) : list A := stride_from 0 skip l.

End Np.

Import Np.

(** ** The container *)

(** [coords]: shape (atoms, 3, frames).  [cdata] has one row per atom, a row
    holds the x, y and z series over the frames; [cframes] is the third
    dimension, kept apart because numpy keeps it when there is no atom. *)
Record array3 : Type := mkArray3 {
  cdata : list (list (list float32));
  cframes : nat
}.

(** One entry of [fileloc]: a [source, frame] pair, or a whole earlier
    [fileloc] list appended as one element. *)
#[warnings="-register-all"]
Inductive floc : Type :=
| Loc (src : string) (fr : nat)
| Locs (l : list floc).

(** [step] and [time] are the Python lists [__init__] assigns until a
    trajectory is merged, numpy arrays afterwards: a list cannot be indexed by
    a list of indices. *)
Inductive pyseq (A : Type) : Type :=
| PyList (l : list A)
| NdArray (l : list A).
Arguments PyList {A} l.
Arguments NdArray {A} l.

Definition items {A} (s : pyseq A) : list A :=
  match s with
  | PyList l => l
  | NdArray l => l
  end.

(** An attribute that [__init__] does not assign: reading it before a
    reader has set it raises AttributeError. *)
Inductive attribute (A : Type) : Type :=
| Absent
| Present (v : A).
Arguments Absent {A}.
Arguments Present {A} v.

Record Molecule : Type := mkMolecule {
  record : list string;
  serial : list Z;
  name : list string;
  altloc : list string;
  resname : list string;
  chain : list string;
  resid : list Z;
  insertion : list string;
  occupancy : list float32;
  beta : list float32;
  segid : list string;
  element : list string;
  charge : list float32;
  masses : list float32;
  atomtype : list string;
  bonds : list (list nat);
  bondtype : list string;
  angles : list (list nat);
  dihedrals : list (list nat);
  impropers : list (list nat);
  crystalinfo : option string;
  coords : array3;
  box : list (list float32);
  boxangles : list (list float32);
  fileloc : list floc;
  step : pyseq Z;
  time : pyseq float32;
  _frame : Z;
  topoloc : attribute (option string);
  viewname : option string
}.

(** Attribute assignment [self.f = v], one setter per attribute. *)
Definition set_record (v : list string) (m : Molecule) : Molecule :=
    mkMolecule v (serial m) (name m) (altloc m) (resname m) (chain m) (resid
    m) (insertion m) (occupancy m) (beta m) (segid m) (element m) (charge m)
    (masses m) (atomtype m) (bonds m) (bondtype m) (angles m) (dihedrals m)
    (impropers m) (crystalinfo m) (coords m) (box m) (boxangles m) (fileloc m)
    (step m) (time m) (_frame m) (topoloc m) (viewname m).
Definition set_serial (v : list Z) (m : Molecule) : Molecule :=
    mkMolecule (record m) v (name m) (altloc m) (resname m) (chain m) (resid
    m) (insertion m) (occupancy m) (beta m) (segid m) (element m) (charge m)
    (masses m) (atomtype m) (bonds m) (bondtype m) (angles m) (dihedrals m)
    (impropers m) (crystalinfo m) (coords m) (box m) (boxangles m) (fileloc m)
    (step m) (time m) (_frame m) (topoloc m) (viewname m).
Definition set_name (v : list string) (m : Molecule) : Molecule :=
    mkMolecule (record m) (serial m) v (altloc m) (resname m) (chain m) (resid
    m) (insertion m) (occupancy m) (beta m) (segid m) (element m) (charge m)
    (masses m) (atomtype m) (bonds m) (bondtype m) (angles m) (dihedrals m)
    (impropers m) (crystalinfo m) (coords m) (box m) (boxangles m) (fileloc m)
    (step m) (time m) (_frame m) (topoloc m) (viewname m).
Definition set_altloc (v : list string) (m : Molecule) : Molecule :=
    mkMolecule (record m) (serial m) (name m) v (resname m) (chain m) (resid
    m) (insertion m) (occupancy m) (beta m) (segid m) (element m) (charge m)
    (masses m) (atomtype m) (bonds m) (bondtype m) (angles m) (dihedrals m)
    (impropers m) (crystalinfo m) (coords m) (box m) (boxangles m) (fileloc m)
    (step m) (time m) (_frame m) (topoloc m) (viewname m).
Definition set_resname (v : list string) (m : Molecule) : Molecule :=
    mkMolecule (record m) (serial m) (name m) (altloc m) v (chain m) (resid m)
    (insertion m) (occupancy m) (beta m) (segid m) (element m) (charge m)
    (masses m) (atomtype m) (bonds m) (bondtype m) (angles m) (dihedrals m)
    (impropers m) (crystalinfo m) (coords m) (box m) (boxangles m) (fileloc m)
    (step m) (time m) (_frame m) (topoloc m) (viewname m).
Definition set_chain (v : list string) (m : Molecule) : Molecule :=
    mkMolecule (record m) (serial m) (name m) (altloc m) (resname m) v (resid
    m) (insertion m) (occupancy m) (beta m) (segid m) (element m) (charge m)
    (masses m) (atomtype m) (bonds m) (bondtype m) (angles m) (dihedrals m)
    (impropers m) (crystalinfo m) (coords m) (box m) (boxangles m) (fileloc m)
    (step m) (time m) (_frame m) (topoloc m) (viewname m).
Definition set_resid (v : list Z) (m : Molecule) : Molecule :=
    mkMolecule (record m) (serial m) (name m) (altloc m) (resname m) (chain m)
    v (insertion m) (occupancy m) (beta m) (segid m) (element m) (charge m)
    (masses m) (atomtype m) (bonds m) (bondtype m) (angles m) (dihedrals m)
    (impropers m) (crystalinfo m) (coords m) (box m) (boxangles m) (fileloc m)
    (step m) (time m) (_frame m) (topoloc m) (viewname m).
Definition set_insertion (v : list string) (m : Molecule) : Molecule :=
    mkMolecule (record m) (serial m) (name m) (altloc m) (resname m) (chain m)
    (resid m) v (occupancy m) (beta m) (segid m) (element m) (charge m)
    (masses m) (atomtype m) (bonds m) (bondtype m) (angles m) (dihedrals m)
    (impropers m) (crystalinfo m) (coords m) (box m) (boxangles m) (fileloc m)
    (step m) (time m) (_frame m) (topoloc m) (viewname m).
Definition set_occupancy (v : list float32) (m : Molecule) : Molecule :=
    mkMolecule (record m) (serial m) (name m) (altloc m) (resname m) (chain m)
    (resid m) (insertion m) v (beta m) (segid m) (element m) (charge m)
    (masses m) (atomtype m) (bonds m) (bondtype m) (angles m) (dihedrals m)
    (impropers m) (crystalinfo m) (coords m) (box m) (boxangles m) (fileloc m)
    (step m) (time m) (_frame m) (topoloc m) (viewname m).
Definition set_beta (v : list float32) (m : Molecule) : Molecule :=
    mkMolecule (record m) (serial m) (name m) (altloc m) (resname m) (chain m)
    (resid m) (insertion m) (occupancy m) v (segid m) (element m) (charge m)
    (masses m) (atomtype m) (bonds m) (bondtype m) (angles m) (dihedrals m)
    (impropers m) (crystalinfo m) (coords m) (box m) (boxangles m) (fileloc m)
    (step m) (time m) (_frame m) (topoloc m) (viewname m).
Definition set_segid (v : list string) (m : Molecule) : Molecule :=
    mkMolecule (record m) (serial m) (name m) (altloc m) (resname m) (chain m)
    (resid m) (insertion m) (occupancy m) (beta m) v (element m) (charge m)
    (masses m) (atomtype m) (bonds m) (bondtype m) (angles m) (dihedrals m)
    (impropers m) (crystalinfo m) (coords m) (box m) (boxangles m) (fileloc m)
    (step m) (time m) (_frame m) (topoloc m) (viewname m).
Definition set_element (v : list string) (m : Molecule) : Molecule :=
    mkMolecule (record m) (serial m) (name m) (altloc m) (resname m) (chain m)
    (resid m) (insertion m) (occupancy m) (beta m) (segid m) v (charge m)
    (masses m) (atomtype m) (bonds m) (bondtype m) (angles m) (dihedrals m)
    (impropers m) (crystalinfo m) (coords m) (box m) (boxangles m) (fileloc m)
    (step m) (time m) (_frame m) (topoloc m) (viewname m).
Definition set_charge (v : list float32) (m : Molecule) : Molecule :=
    mkMolecule (record m) (serial m) (name m) (altloc m) (resname m) (chain m)
    (resid m) (insertion m) (occupancy m) (beta m) (segid m) (element m) v
    (masses m) (atomtype m) (bonds m) (bondtype m) (angles m) (dihedrals m)
    (impropers m) (crystalinfo m) (coords m) (box m) (boxangles m) (fileloc m)
    (step m) (time m) (_frame m) (topoloc m) (viewname m).
Definition set_masses (v : list float32) (m : Molecule) : Molecule :=
    mkMolecule (record m) (serial m) (name m) (altloc m) (resname m) (chain m)
    (resid m) (insertion m) (occupancy m) (beta m) (segid m) (element m)
    (charge m) v (atomtype m) (bonds m) (bondtype m) (angles m) (dihedrals m)
    (impropers m) (crystalinfo m) (coords m) (box m) (boxangles m) (fileloc m)
    (step m) (time m) (_frame m) (topoloc m) (viewname m).
Definition set_atomtype (v : list string) (m : Molecule) : Molecule :=
    mkMolecule (record m) (serial m) (name m) (altloc m) (resname m) (chain m)
    (resid m) (insertion m) (occupancy m) (beta m) (segid m) (element m)
    (charge m) (masses m) v (bonds m) (bondtype m) (angles m) (dihedrals m)
    (impropers m) (crystalinfo m) (coords m) (box m) (boxangles m) (fileloc m)
    (step m) (time m) (_frame m) (topoloc m) (viewname m).
Definition set_bonds (v : list (list nat)) (m : Molecule) : Molecule :=
    mkMolecule (record m) (serial m) (name m) (altloc m) (resname m) (chain m)
    (resid m) (insertion m) (occupancy m) (beta m) (segid m) (element m)
    (charge m) (masses m) (atomtype m) v (bondtype m) (angles m) (dihedrals m)
    (impropers m) (crystalinfo m) (coords m) (box m) (boxangles m) (fileloc m)
    (step m) (time m) (_frame m) (topoloc m) (viewname m).
Definition set_bondtype (v : list string) (m : Molecule) : Molecule :=
    mkMolecule (record m) (serial m) (name m) (altloc m) (resname m) (chain m)
    (resid m) (insertion m) (occupancy m) (beta m) (segid m) (element m)
    (charge m) (masses m) (atomtype m) (bonds m) v (angles m) (dihedrals m)
    (impropers m) (crystalinfo m) (coords m) (box m) (boxangles m) (fileloc m)
    (step m) (time m) (_frame m) (topoloc m) (viewname m).
Definition set_angles (v : list (list nat)) (m : Molecule) : Molecule :=
    mkMolecule (record m) (serial m) (name m) (altloc m) (resname m) (chain m)
    (resid m) (insertion m) (occupancy m) (beta m) (segid m) (element m)
    (charge m) (masses m) (atomtype m) (bonds m) (bondtype m) v (dihedrals m)
    (impropers m) (crystalinfo m) (coords m) (box m) (boxangles m) (fileloc m)
    (step m) (time m) (_frame m) (topoloc m) (viewname m).
Definition set_dihedrals (v : list (list nat)) (m : Molecule) : Molecule :=
    mkMolecule (record m) (serial m) (name m) (altloc m) (resname m) (chain m)
    (resid m) (insertion m) (occupancy m) (beta m) (segid m) (element m)
    (charge m) (masses m) (atomtype m) (bonds m) (bondtype m) (angles m) v
    (impropers m) (crystalinfo m) (coords m) (box m) (boxangles m) (fileloc m)
    (step m) (time m) (_frame m) (topoloc m) (viewname m).
Definition set_impropers (v : list (list nat)) (m : Molecule) : Molecule :=
    mkMolecule (record m) (serial m) (name m) (altloc m) (resname m) (chain m)
    (resid m) (insertion m) (occupancy m) (beta m) (segid m) (element m)
    (charge m) (masses m) (atomtype m) (bonds m) (bondtype m) (angles m)
    (dihedrals m) v (crystalinfo m) (coords m) (box m) (boxangles m) (fileloc
    m) (step m) (time m) (_frame m) (topoloc m) (viewname m).
Definition set_crystalinfo (v : option string) (m : Molecule) : Molecule :=
    mkMolecule (record m) (serial m) (name m) (altloc m) (resname m) (chain m)
    (resid m) (insertion m) (occupancy m) (beta m) (segid m) (element m)
    (charge m) (masses m) (atomtype m) (bonds m) (bondtype m) (angles m)
    (dihedrals m) (impropers m) v (coords m) (box m) (boxangles m) (fileloc m)
    (step m) (time m) (_frame m) (topoloc m) (viewname m).
Definition set_coords (v : array3) (m : Molecule) : Molecule :=
    mkMolecule (record m) (serial m) (name m) (altloc m) (resname m) (chain m)
    (resid m) (insertion m) (occupancy m) (beta m) (segid m) (element m)
    (charge m) (masses m) (atomtype m) (bonds m) (bondtype m) (angles m)
    (dihedrals m) (impropers m) (crystalinfo m) v (box m) (boxangles m)
    (fileloc m) (step m) (time m) (_frame m) (topoloc m) (viewname m).
Definition set_box (v : list (list float32)) (m : Molecule) : Molecule :=
    mkMolecule (record m) (serial m) (name m) (altloc m) (resname m) (chain m)
    (resid m) (insertion m) (occupancy m) (beta m) (segid m) (element m)
    (charge m) (masses m) (atomtype m) (bonds m) (bondtype m) (angles m)
    (dihedrals m) (impropers m) (crystalinfo m) (coords m) v (boxangles m)
    (fileloc m) (step m) (time m) (_frame m) (topoloc m) (viewname m).
Definition set_boxangles (v : list (list float32)) (m : Molecule) : Molecule :=
    mkMolecule (record m) (serial m) (name m) (altloc m) (resname m) (chain m)
    (resid m) (insertion m) (occupancy m) (beta m) (segid m) (element m)
    (charge m) (masses m) (atomtype m) (bonds m) (bondtype m) (angles m)
    (dihedrals m) (impropers m) (crystalinfo m) (coords m) (box m) v (fileloc
    m) (step m) (time m) (_frame m) (topoloc m) (viewname m).
Definition set_fileloc (v : list floc) (m : Molecule) : Molecule :=
    mkMolecule (record m) (serial m) (name m) (altloc m) (resname m) (chain m)
    (resid m) (insertion m) (occupancy m) (beta m) (segid m) (element m)
    (charge m) (masses m) (atomtype m) (bonds m) (bondtype m) (angles m)
    (dihedrals m) (impropers m) (crystalinfo m) (coords m) (box m) (boxangles
    m) v (step m) (time m) (_frame m) (topoloc m) (viewname m).
Definition set_step (v : pyseq Z) (m : Molecule) : Molecule :=
    mkMolecule (record m) (serial m) (name m) (altloc m) (resname m) (chain m)
    (resid m) (insertion m) (occupancy m) (beta m) (segid m) (element m)
    (charge m) (masses m) (atomtype m) (bonds m) (bondtype m) (angles m)
    (dihedrals m) (impropers m) (crystalinfo m) (coords m) (box m) (boxangles
    m) (fileloc m) v (time m) (_frame m) (topoloc m) (viewname m).
Definition set_time (v : pyseq float32) (m : Molecule) : Molecule :=
    mkMolecule (record m) (serial m) (name m) (altloc m) (resname m) (chain m)
    (resid m) (insertion m) (occupancy m) (beta m) (segid m) (element m)
    (charge m) (masses m) (atomtype m) (bonds m) (bondtype m) (angles m)
    (dihedrals m) (impropers m) (crystalinfo m) (coords m) (box m) (boxangles
    m) (fileloc m) (step m) v (_frame m) (topoloc m) (viewname m).
Definition set_frame (v : Z) (m : Molecule) : Molecule :=
    mkMolecule (record m) (serial m) (name m) (altloc m) (resname m) (chain m)
    (resid m) (insertion m) (occupancy m) (beta m) (segid m) (element m)
    (charge m) (masses m) (atomtype m) (bonds m) (bondtype m) (angles m)
    (dihedrals m) (impropers m) (crystalinfo m) (coords m) (box m) (boxangles
    m) (fileloc m) (step m) (time m) v (topoloc m) (viewname m).
Definition set_topoloc (v : attribute (option string)) (m : Molecule) : Molecule :=
    mkMolecule (record m) (serial m) (name m) (altloc m) (resname m) (chain m)
    (resid m) (insertion m) (occupancy m) (beta m) (segid m) (element m)
    (charge m) (masses m) (atomtype m) (bonds m) (bondtype m) (angles m)
    (dihedrals m) (impropers m) (crystalinfo m) (coords m) (box m) (boxangles
    m) (fileloc m) (step m) (time m) (_frame m) v (viewname m).
Definition set_viewname (v : option string) (m : Molecule) : Molecule :=
    mkMolecule (record m) (serial m) (name m) (altloc m) (resname m) (chain m)
    (resid m) (insertion m) (occupancy m) (beta m) (segid m) (element m)
    (charge m) (masses m) (atomtype m) (bonds m) (bondtype m) (angles m)
    (dihedrals m) (impropers m) (crystalinfo m) (coords m) (box m) (boxangles
    m) (fileloc m) (step m) (time m) (_frame m) (topoloc m) v.

(** ** The state-and-exception monad of the methods of [Molecule] *)

Inductive result (A : Type) : Type :=
| Ok (a : A) (self : Molecule)
| Raise (e : exn) (self : Molecule).
Arguments Ok {A} a self.
Arguments Raise {A} e self.

Definition M (A : Type) : Type := Molecule -> result A.

Definition ret {A} (a : A) : M A := fun self => Ok a self.
Definition bind {A B} (c : M A) (k : A -> M B) : M B :=
  fun self => match c self with
              | Ok a self' => k a self'
              | Raise e self' => Raise e self'
              end.
Definition raise {A} (e : exn) : M A := fun self => Raise e self.
Definition gets {A} (f : Molecule -> A) : M A := fun self => Ok (f self) self.
Definition modify (f : Molecule -> Molecule) : M unit := fun self => Ok tt (f self).
Definition lift {A} (r : res A) : M A :=
  match r with Val a => ret a | Exn e => raise e end.

Declare Scope mol_scope.
Delimit Scope mol_scope with mol.
Notation "x <- c1 ;; c2" := (bind c1 (fun x => c2))
  (at level 61, c1 at next level, right associativity) : mol_scope.
Notation "c1 ;; c2" := (bind c1 (fun _ => c2))
  (at level 61, right associativity) : mol_scope.
Open Scope mol_scope.

(** the state a computation stops in, and what it returns *)
Definition state_of {A} (r : result A) : Molecule :=
  match r with Ok _ s => s | Raise _ s => s end.
Definition raised {A} (r : result A) : option exn :=
  match r with Ok _ _ => None | Raise e _ => Some e end.

(** ** Properties of the class *)

Definition _numAtomsTopo (self : Molecule) : nat := length (record self).
Definition _numAtomsTraj (self : Molecule) : nat := length (cdata (coords self)).
Definition numAtoms (self : Molecule) : nat :=
  let natoms := _numAtomsTopo self in
  if natoms =? 0 then _numAtomsTraj self else natoms.
Definition numFrames (self : Molecule) : nat := cframes (coords self).

(** [np.size(coords)] *)
Definition size3 (c : array3) : nat := length (cdata c) * 3 * cframes c.

Definition frame : M Z := fun self =>
  if ((_frame self <? 0) || (Z.of_nat (numFrames self) <=? _frame self))%Z
  then Raise (NameError "frame out of range") self
  else Ok (_frame self) self.

Definition set_frame_checked (value : Z) : M unit := fun self =>
  if ((value <? 0)
      || (negb (Nat.eqb (numFrames self) 0) && (Z.of_nat (numFrames self) <=? value)))%Z
  then Raise (NameError "Frame index out of range") self
  else Ok tt (set_frame value self).

(** [Molecule()] without a file *)
Definition Molecule_init : Molecule :=
  mkMolecule [] [] [] [] [] [] [] [] [] [] [] [] [] [] []
             [] [] [] [] [] None
             (mkArray3 [] 0) [[]; []; []] [[]; []; []] [] (PyList []) (PyList [])
             0%Z Absent None.

(** [Molecule._empty(numAtoms, field)], by the dtype of the field *)
Definition _empty_object (numAtoms : nat) : list string := repeat "" numAtoms.
Definition _empty_record (numAtoms : nat) : list string := repeat "ATOM" numAtoms.
Definition _empty_serial (numAtoms : nat) : list Z := arange 1 (Z.of_nat numAtoms + 1).
Definition _empty_int (numAtoms : nat) : list Z := repeat 0%Z numAtoms.
Definition _empty_float (numAtoms : nat) : list float32 := repeat fzero numAtoms.
Definition _empty_coords (numAtoms : nat) : array3 :=
  mkArray3 (repeat [[]; []; []] numAtoms) 0.

(** [np.zeros((3, n))] *)
Definition zeros3 (n : nat) : list (list float32) := repeat (repeat fzero n) 3.

Definition _emptyTopo (n : nat) : M unit :=
  modify (set_record (_empty_record n)) ;;
  modify (set_serial (_empty_serial n)) ;;
  modify (set_name (_empty_object n)) ;;
  modify (set_altloc (_empty_object n)) ;;
  modify (set_resname (_empty_object n)) ;;
  modify (set_chain (_empty_object n)) ;;
  modify (set_resid (_empty_int n)) ;;
  modify (set_insertion (_empty_object n)) ;;
  modify (set_occupancy (_empty_float n)) ;;
  modify (set_beta (_empty_float n)) ;;
  modify (set_segid (_empty_object n)) ;;
  modify (set_element (_empty_object n)) ;;
  modify (set_charge (_empty_float n)) ;;
  modify (set_masses (_empty_float n)) ;;
  modify (set_atomtype (_empty_object n)).

Definition _emptyTraj (n : nat) : M unit :=
  modify (set_coords (_empty_coords n)) ;;
  modify (set_box (zeros3 0)).

Definition empty (n : nat) : M unit := _emptyTopo n ;; _emptyTraj n.

(** ** Selections.  The selection language is evaluated outside this module
    to a boolean mask over the atoms; [atomselect] also takes a mask or an
    array of indices as it is, and [None] or 'all' for every atom. *)
Inductive selection : Type :=
| SelAll
| SelMask (s : list bool)
| SelIdx (l : list nat).

Inductive selarray : Type :=
| Mask (s : list bool)
| Idx (l : list nat).

Definition atomselect (sel : selection) (indexes : bool) : M selarray :=
  natoms <- gets numAtoms ;;
  let s := match sel with
           | SelAll => Mask (repeat true natoms)
           | SelMask s => Mask s
           | SelIdx l => Idx l
           end in
  match s with
  | Mask b => if indexes then ret (Idx (where_ b)) else ret s
  | Idx _ => ret s
  end.

(** [atomselect(sel, indexes=True)] *)
Definition atomselect_idx (sel : selection) : M (list nat) :=
  s <- atomselect sel true ;;
  match s with
  | Idx l => ret l
  | Mask b => ret (where_ b)
  end.

(** ** insert and append *)

(** the local function [insertappend] of [insert], on a one-dimensional array *)
Definition insertappend {A} (index : nat) (data1 data2 : list A) (append : bool)
  : res (list A) :=
  if length data1 =? 0 then Val data2
  else if length data2 =? 0 then Val data1
  else if append then Val (data1 ++ data2)
  else Np.insert data1 index data2.

(** [insertappend] on [coords]: [size] is the product of the three
    dimensions, and joining along the atoms needs equal frame counts *)
Definition insertappend3 (index : nat) (data1 data2 : array3) (append : bool)
  : res array3 :=
  if size3 data1 =? 0 then Val data2
  else if size3 data2 =? 0 then Val data1
  else if negb (cframes data1 =? cframes data2) then Exn ValueError
  else if append then Val (mkArray3 (cdata data1 ++ cdata data2) (cframes data1))
  else match Np.insert (cdata data1) index (cdata data2) with
       | Val d => Val (mkArray3 d (cframes data1))
       | Exn e => Exn e
       end.

(** one turn of the loop over [_atom_and_coord_fields] in [insert] *)
Definition insert_field {A} (get : Molecule -> list A)
    (set : list A -> Molecule -> Molecule) (empty_ : nat -> list A)
    (mol : Molecule) (index : nat) (append : bool) : M unit :=
  data1 <- gets get ;;
  let data2 := if length (get mol) =? 0 then empty_ (numAtoms mol) else get mol in
  d <- lift (insertappend index data1 data2 append) ;;
  modify (set d).

Definition insert_coords (mol : Molecule) (index : nat) (append : bool) : M unit :=
  data1 <- gets coords ;;
  let data2 := if size3 (coords mol) =? 0 then _empty_coords (numAtoms mol)
               else coords mol in
  d <- lift (insertappend3 index data1 data2 append) ;;
  modify (set_coords d).

(** the body of the [try] block of [insert].  The endpoints of a bond are
    natural numbers here; the arrays of the code hold 32-bit integers (uint32
    as created, int32 once [remove] has renumbered them) and its additions in
    place wrap around, so the two agree as long as every sum fits 32 bits. *)
Definition insert_try (mol : Molecule) (index : nat) (append : bool) : M unit :=
  c <- gets coords ;;
  (if negb (size3 c =? 0)
      && (negb (cframes c =? 1) || negb (cframes (coords mol) =? 1))
   then raise (NameError "Cannot concatenate molecules which contain multiple frames.")
   else ret tt) ;;
  b <- gets bonds ;;
  (if 0 <? length b
   then modify (set_bonds
                  (map (map (fun e => if index <=? e then e + numAtoms mol else e)) b))
   else ret tt) ;;
  (if 0 <? length (bonds mol) then
     let newbonds := map (map (fun e => e + index)) (bonds mol) in
     b <- gets bonds ;;
     if 0 <? length b then
       bt <- gets bondtype ;;
       modify (set_bonds (b ++ newbonds)) ;;
       modify (set_bondtype (bt ++ bondtype mol))
     else
       modify (set_bonds newbonds) ;;
       modify (set_bondtype (bondtype mol))
   else ret tt) ;;
  insert_field record set_record _empty_record mol index append ;;
  insert_field name set_name _empty_object mol index append ;;
  insert_field altloc set_altloc _empty_object mol index append ;;
  insert_field resname set_resname _empty_object mol index append ;;
  insert_field chain set_chain _empty_object mol index append ;;
  insert_field resid set_resid _empty_int mol index append ;;
  insert_field insertion set_insertion _empty_object mol index append ;;
  insert_field occupancy set_occupancy _empty_float mol index append ;;
  insert_field beta set_beta _empty_float mol index append ;;
  insert_field segid set_segid _empty_object mol index append ;;
  insert_field element set_element _empty_object mol index append ;;
  insert_field charge set_charge _empty_float mol index append ;;
  insert_field masses set_masses _empty_float mol index append ;;
  insert_field atomtype set_atomtype _empty_object mol index append ;;
  insert_coords mol index append ;;
  n <- gets numAtoms ;;
  modify (set_serial (arange 1 (Z.of_nat n + 1))) ;;
  nf <- gets numFrames ;;
  modify (set_box (zeros3 nf)) ;;
  nf' <- gets numFrames ;;
  modify (set_boxangles (zeros3 nf')).

(** [Molecule.copy]: a deep copy; values are immutable here *)
Definition copy (self : Molecule) : Molecule := self.

(** [insert(mol, index)] with [collisions] left at its default.  In the
    handler, [self = backup] binds the local name [self] to the copy: the
    object the caller holds keeps what the [try] block had assigned, so the
    state of the raised result is the one the block stopped in. *)
Definition insert (mol : Molecule) (index : nat) : M unit := fun self =>
  let append := index =? numAtoms self in
  let backup := copy self in
  match insert_try mol index append self with
  | Ok a self' => Ok a self'
  | Raise err self' =>
      let rebound_local := backup in
      Raise (NameError "Failed to insert/append molecule") self'
  end.

Definition append (mol : Molecule) : M unit :=
  n <- gets numAtoms ;;
  insert mol n.

(** ** remove, filter and the connectivity remap *)

(** [tbl[rows]] for a two-dimensional array of indices *)
Fixpoint take_rows2 {A} (tbl : list A) (rows : list (list nat))
  : res (list (list A)) :=
  match rows with
  | [] => Val []
  | r :: rs =>
      match take_rows tbl r with
      | Exn e => Exn e
      | Val x => match take_rows2 tbl rs with
                 | Val xs => Val (x :: xs)
                 | Exn e => Exn e
                 end
      end
  end.

(** [map[idx] = v] *)
Fixpoint assign_from (k : nat) (idx : list nat) (v : Z) (mp : list Z) : list Z :=
  match mp with
  | [] => []
  | x :: r => (if memb k idx then v else x) :: assign_from (S k) idx v r
  end.
Definition assign_at (mp : list Z) (idx : list nat) (v : Z) : res (list Z) :=
  if forallb (fun i => i <? length mp) idx then Val (assign_from 0 idx v mp)
  else Exn IndexError.

(** [map[map == 1] = vals]: the values go, in order, to the places where the
    mask holds; their number must be the number of such places, except that
    a single value is broadcast to all of them. *)
Fixpoint fill_ones (mp vals : list Z) : list Z :=
  match mp with
  | [] => []
  | x :: r =>
      if (x =? 1)%Z then
        match vals with
        | v :: vs => v :: fill_ones r vs
        | [] => x :: fill_ones r []
        end
      else x :: fill_ones r vals
  end.
Definition count_ones (mp : list Z) : nat :=
  length (filter (fun x => (x =? 1)%Z) mp).
Definition mask_assign (mp vals : list Z) : res (list Z) :=
  match vals with
  | [v] => Val (map (fun x => if (x =? 1)%Z then v else x) mp)
  | _ => if length vals =? count_ones mp then Val (fill_ones mp vals)
         else Exn ValueError
  end.

Definition stays_of (tempdata : list (list Z)) : list bool :=
  map (fun row => negb (existsb (Z.eqb (-1)) row)) tempdata.

(** one turn of the loop over bonds, angles, dihedrals and impropers *)
Definition update_field (get : Molecule -> list (list nat))
    (set : list (list nat) -> Molecule -> Molecule) (is_bonds : bool)
    (mp : list Z) : M unit :=
  rows <- gets get ;;
  if length rows =? 0 then ret tt
  else
    tempdata <- lift (take_rows2 mp rows) ;;
    let stays := stays_of tempdata in
    modify (set (map (map Z.to_nat) (compress stays tempdata))) ;;
    if is_bonds then
      bt <- gets bondtype ;;
      if 0 <? length bt then
        bt' <- lift (bool_index bt stays) ;;
        modify (set_bondtype bt')
      else ret tt
    else ret tt.

Definition _updateBondsAnglesDihedrals (idx : list nat) : M unit :=
  if length idx =? 0 then ret tt
  else
    self <- gets (fun s => s) ;;
    if (length (bonds self) =? 0) && (length (dihedrals self) =? 0)
       && (length (impropers self) =? 0) && (length (angles self) =? 0)
    then ret tt
    else
      let n := numAtoms self in
      mp <- lift (assign_at (repeat 1%Z n) idx (-1)%Z) ;;
      mp' <- lift (mask_assign mp (arange 0 (Z.of_nat n - Z.of_nat (length idx)))) ;;
      update_field bonds set_bonds true mp' ;;
      update_field angles set_angles false mp' ;;
      update_field dihedrals set_dihedrals false mp' ;;
      update_field impropers set_impropers false mp'.

Definition delete_field {A} (get : Molecule -> list A)
    (set : list A -> Molecule -> Molecule) (sel : list nat) : M unit :=
  d <- gets get ;;
  d' <- lift (Np.delete d sel) ;;
  modify (set d').

Definition delete_coords (sel : list nat) : M unit :=
  c <- gets coords ;;
  d' <- lift (Np.delete (cdata c) sel) ;;
  modify (set_coords (mkArray3 d' (cframes c))).

(** the loop over [_atom_and_coord_fields] of [remove] *)
Definition delete_rows (sel : list nat) : M unit :=
  delete_field record set_record sel ;;
  delete_field serial set_serial sel ;;
  delete_field name set_name sel ;;
  delete_field altloc set_altloc sel ;;
  delete_field resname set_resname sel ;;
  delete_field chain set_chain sel ;;
  delete_field resid set_resid sel ;;
  delete_field insertion set_insertion sel ;;
  delete_field occupancy set_occupancy sel ;;
  delete_field beta set_beta sel ;;
  delete_field segid set_segid sel ;;
  delete_field element set_element sel ;;
  delete_field charge set_charge sel ;;
  delete_field masses set_masses sel ;;
  delete_field atomtype set_atomtype sel ;;
  delete_coords sel.

Definition remove (selection_ : selection) : M (list nat) :=
  sel <- atomselect_idx selection_ ;;
  _updateBondsAnglesDihedrals sel ;;
  delete_rows sel ;;
  ret sel.

Definition filter_ (sel : selection) : M (list nat) :=
  s <- atomselect sel false ;;
  match s with
  | Mask b =>
      if forallb (fun x => x) b then ret []
      else remove (SelMask (map negb b))
  | Idx l =>
      if forallb (fun i => negb (i =? 0)) l then ret []
      else raise (NameError "Filter can only work with string inputs or boolean arrays")
  end.

Definition deleteBonds (sel : selection) (inter : bool) : M unit :=
  sel <- atomselect_idx sel ;;
  if length sel =? 0 then ret tt
  else
    b <- gets bonds ;;
    let todel := map (fun r => if inter
                               then memb (nth 0 r 0) sel || memb (nth 1 r 0) sel
                               else memb (nth 0 r 0) sel && memb (nth 1 r 0) sel) b in
    let idx := where_ todel in
    b' <- lift (Np.delete b idx) ;;
    modify (set_bonds b') ;;
    bt <- gets bondtype ;;
    bt' <- lift (Np.delete bt idx) ;;
    modify (set_bondtype bt').

(** ** reorderAtoms *)

Definition reorder_field {A} (get : Molecule -> list A)
    (set : list A -> Molecule -> Molecule) (order : list nat) : M unit :=
  d <- gets get ;;
  if length d =? 0 then ret tt
  else d' <- lift (Np.take d order) ;; modify (set d').

Definition reorder_coords (order : list nat) : M unit :=
  c <- gets coords ;;
  if length (cdata c) =? 0 then ret tt
  else d' <- lift (Np.take (cdata c) order) ;;
       modify (set_coords (mkArray3 d' (cframes c))).

(** [np.where(order == i)[0][0]] *)
Fixpoint first_index (i : nat) (order : list nat) : res nat :=
  match order with
  | [] => Exn IndexError
  | x :: r => if x =? i then Val 0
              else match first_index i r with
                   | Val k => Val (S k)
                   | Exn e => Exn e
                   end
  end.

Fixpoint inverse_of (order : list nat) (js : list nat) : res (list nat) :=
  match js with
  | [] => Val []
  | i :: r => match first_index i order with
              | Exn e => Exn e
              | Val k => match inverse_of order r with
                         | Val ks => Val (k :: ks)
                         | Exn e => Exn e
                         end
              end
  end.
Definition inverseorder (order : list nat) : res (list nat) :=
  inverse_of order (seq 0 (length order)).

Definition reindex_field (get : Molecule -> list (list nat))
    (set : list (list nat) -> Molecule -> Molecule) (inv : list nat) : M unit :=
  rows <- gets get ;;
  if length rows =? 0 then ret tt
  else r <- lift (take_rows2 inv rows) ;; modify (set r).

Definition reorderAtoms (order : list nat) : M unit :=
  reorder_field record set_record order ;;
  reorder_field serial set_serial order ;;
  reorder_field name set_name order ;;
  reorder_field altloc set_altloc order ;;
  reorder_field resname set_resname order ;;
  reorder_field chain set_chain order ;;
  reorder_field resid set_resid order ;;
  reorder_field insertion set_insertion order ;;
  reorder_field occupancy set_occupancy order ;;
  reorder_field beta set_beta order ;;
  reorder_field segid set_segid order ;;
  reorder_field element set_element order ;;
  reorder_field charge set_charge order ;;
  reorder_field masses set_masses order ;;
  reorder_field atomtype set_atomtype order ;;
  reorder_coords order ;;
  inv <- lift (inverseorder order) ;;
  reindex_field bonds set_bonds inv ;;
  reindex_field angles set_angles inv ;;
  reindex_field dihedrals set_dihedrals inv ;;
  reindex_field impropers set_impropers inv.

(** ** Topology merge *)

Definition feqb (x y : float32) : bool := PrimFloat.eqb x y.
Definition rows_eqb (r1 r2 : list nat) : bool :=
  (length r1 =? length r2) && forallb (fun p => fst p =? snd p) (combine r1 r2).

(** [np.array_equal] *)
Definition array_equal {A} (eqb : A -> A -> bool) (l1 l2 : list A) : bool :=
  (length l1 =? length l2) && forallb (fun p => eqb (fst p) (snd p)) (combine l1 l2).

Definition str_memb (s : string) (l : list string) : bool := existsb (String.eqb s) l.

(** [np.any(names != '')] *)
Definition any_nonempty (names : list string) : bool :=
  existsb (fun s => negb (String.eqb s "")) names.

(** [len(np.setdiff1d(a, b)) == 0] *)
Definition setdiff1d_empty (a b : list string) : bool :=
  forallb (fun x => str_memb x b) a.

(** [len(np.unique(l)) == len(l)] *)
Fixpoint all_distinct (l : list string) : bool :=
  match l with
  | [] => true
  | x :: r => negb (str_memb x r) && all_distinct r
  end.

(** [np.where(names == nn)[0][0]] *)
Fixpoint first_index_str (nn : string) (names : list string) : res nat :=
  match names with
  | [] => Exn IndexError
  | x :: r => if String.eqb x nn then Val 0
              else match first_index_str nn r with
                   | Val k => Val (S k)
                   | Exn e => Exn e
                   end
  end.

Fixpoint name_order (selfnames molnames : list string) : res (list nat) :=
  match selfnames with
  | [] => Val []
  | nn :: r => match first_index_str nn molnames with
               | Exn e => Exn e
               | Val k => match name_order r molnames with
                          | Val ks => Val (k :: ks)
                          | Exn e => Exn e
                          end
               end
  end.

(** [overwrite]: [None], or the tuple or list of field names; a string
    argument has been wrapped into a one-element tuple. *)
Definition overwrite_t : Type := option (list string).

(** one turn of the loop over [_topo_fields] *)
Definition merge_field {A} (fname : string) (is_atom_field : bool)
    (isdefault : A -> bool) (eqb : A -> A -> bool)
    (get : Molecule -> list A) (set : list A -> Molecule -> Molecule)
    (mol : Molecule) (overwrite : overwrite_t) : M unit :=
  let newfielddata := get mol in
  if length newfielddata =? 0 then ret tt
  else if forallb isdefault newfielddata then ret tt
  else
    cur <- gets get ;;
    if is_atom_field && negb (length cur =? length newfielddata)
    then raise (TopologyInconsistencyError "Different number of atoms read from topology file")
    else
      let check :=
        if array_equal eqb cur newfielddata then ret tt
        else raise (TopologyInconsistencyError "Different atom information read from topology file") in
      match overwrite with
      | None => check
      | Some [] => raise IndexError
      | Some (o0 :: ow) =>
          if String.eqb o0 "all" || str_memb fname (o0 :: ow)
          then modify (set newfielddata)
          else check
      end.

Definition is_empty_str (s : string) : bool := String.eqb s "".
Definition is_zero_int (z : Z) : bool := (z =? 0)%Z.
Definition is_zero_float (x : float32) : bool := feqb x fzero.
Definition is_zero_row (r : list nat) : bool := forallb (fun e => e =? 0) r.

Section Merge.

(** The element deduced from an atom name and a residue name:
    [_getPDBElement(_deduce_PDB_atom_name(name, resname), '', lowersecond=False)]
    of moleculekit.writers, which is outside this module. *)
Variable deduce_element : string -> string -> string.

Fixpoint guess_from (i : nat) (elements names resnames : list string)
  : res (list string) :=
  match elements with
  | [] => Val []
  | e :: r =>
      if String.eqb e "" then
        match nth_error names i, nth_error resnames i with
        | Some n, Some rn =>
            match guess_from (S i) r names resnames with
            | Val es => Val (deduce_element n rn :: es)
            | Exn x => Exn x
            end
        | _, _ => Exn IndexError
        end
      else
        match guess_from (S i) r names resnames with
        | Val es => Val (e :: es)
        | Exn x => Exn x
        end
  end.

Definition _guessMissingElements : M (list string) :=
  self <- gets (fun s => s) ;;
  lift (guess_from 0 (element self) (name self) (resname self)).

(** the name check and the reordering of [mol]; returns [mol] as the rest
    of the loop body sees it *)
Definition merge_names (mol : Molecule) : M Molecule :=
  sname <- gets name ;;
  if (length sname =? _numAtomsTopo mol) && any_nonempty (name mol)
     && any_nonempty sname && negb (array_equal String.eqb sname (name mol))
  then
    if setdiff1d_empty sname (name mol) then
      if negb (all_distinct sname)
      then raise (RuntimeError "Cannot reorder atoms due to non-unique atom names in molecule.")
      else
        order <- lift (name_order sname (name mol)) ;;
        match reorderAtoms order mol with
        | Ok _ mol' => ret mol'
        | Raise e _ => raise e
        end
    else raise (TopologyInconsistencyError "Same number of atoms but different atom names read from topology file")
  else ret mol.

Definition merge_fields (mol : Molecule) (ow : overwrite_t) : M unit :=
  merge_field "record" true is_empty_str String.eqb record set_record mol ow ;;
  merge_field "serial" true is_zero_int Z.eqb serial set_serial mol ow ;;
  merge_field "name" true is_empty_str String.eqb name set_name mol ow ;;
  merge_field "altloc" true is_empty_str String.eqb altloc set_altloc mol ow ;;
  merge_field "resname" true is_empty_str String.eqb resname set_resname mol ow ;;
  merge_field "chain" true is_empty_str String.eqb chain set_chain mol ow ;;
  merge_field "resid" true is_zero_int Z.eqb resid set_resid mol ow ;;
  merge_field "insertion" true is_empty_str String.eqb insertion set_insertion mol ow ;;
  merge_field "occupancy" true is_zero_float feqb occupancy set_occupancy mol ow ;;
  merge_field "beta" true is_zero_float feqb beta set_beta mol ow ;;
  merge_field "segid" true is_empty_str String.eqb segid set_segid mol ow ;;
  merge_field "element" true is_empty_str String.eqb element set_element mol ow ;;
  merge_field "charge" true is_zero_float feqb charge set_charge mol ow ;;
  merge_field "masses" true is_zero_float feqb masses set_masses mol ow ;;
  merge_field "atomtype" true is_empty_str String.eqb atomtype set_atomtype mol ow ;;
  merge_field "bonds" false is_zero_row rows_eqb bonds set_bonds mol ow ;;
  merge_field "bondtype" false is_empty_str String.eqb bondtype set_bondtype mol ow ;;
  merge_field "angles" false is_zero_row rows_eqb angles set_angles mol ow ;;
  merge_field "dihedrals" false is_zero_row rows_eqb dihedrals set_dihedrals mol ow ;;
  merge_field "impropers" false is_zero_row rows_eqb impropers set_impropers mol ow.

(** the statements after the loop over the fields *)
Definition merge_finish (mol : Molecule) : M unit :=
  b <- gets bonds ;;
  bt <- gets bondtype ;;
  (if negb (length b =? 0) && (length bt =? 0)
   then modify (set_bondtype (repeat "un" (length b)))
   else ret tt) ;;
  el <- _guessMissingElements ;;
  modify (set_element el) ;;
  modify (set_crystalinfo (crystalinfo mol)) ;;
  match topoloc mol with
  | Absent => raise AttributeError
  | Present _ => modify (set_topoloc (topoloc mol))
  end ;;
  modify (set_fileloc (fileloc mol)) ;;
  modify (set_viewname (viewname mol)).

(** the body of [for mol in newmols]; returns [mol], reordered if it was *)
Definition merge_one (ow : overwrite_t) (mol : Molecule) : M Molecule :=
  if _numAtomsTopo mol =? 0 then ret mol
  else
    topo <- gets _numAtomsTopo ;;
    (if topo =? 0 then _emptyTopo (numAtoms mol) else ret tt) ;;
    mol' <- merge_names mol ;;
    merge_fields mol' ow ;;
    merge_finish mol' ;;
    ret mol'.

(** [_mergeTopologies(newmols, overwrite)]; the result is [newmols] as the
    caller holds it afterwards *)
Fixpoint _mergeTopologies (newmols : list Molecule) (ow : overwrite_t)
  : M (list Molecule) :=
  match newmols with
  | [] => ret []
  | mol :: rest =>
      mol' <- merge_one ow mol ;;
      rest' <- _mergeTopologies rest ow ;;
      ret (mol' :: rest')
  end.

End Merge.

(** ** Trajectory merge, dropFrames and read *)

Definition map2 {A B C} (f : A -> B -> C) (l1 : list A) (l2 : list B) : list C :=
  map (fun p => f (fst p) (snd p)) (combine l1 l2).

(** [np.concatenate(arrs, axis=-1)] for arrays of two dimensions: the
    first dimensions must agree *)
Fixpoint concat_last {A} (arrs : list (list (list A))) : res (list (list A)) :=
  match arrs with
  | [] => Exn ValueError
  | [a] => Val a
  | a :: rest =>
      match concat_last rest with
      | Exn e => Exn e
      | Val b => if length a =? length b then Val (map2 (@app A) a b)
                 else Exn ValueError
      end
  end.

(** the same for [coords], along the frames *)
Fixpoint concat_frames (arrs : list array3) : res array3 :=
  match arrs with
  | [] => Exn ValueError
  | [a] => Val a
  | a :: rest =>
      match concat_frames rest with
      | Exn e => Exn e
      | Val b =>
          if length (cdata a) =? length (cdata b)
          then Val (mkArray3 (map2 (map2 (@app float32)) (cdata a) (cdata b))
                             (cframes a + cframes b))
          else Exn ValueError
      end
  end.

(** [np.concatenate] of one-dimensional arrays *)
Definition concat1 {A} (arrs : list (list A)) : res (list A) :=
  match arrs with
  | [] => Exn ValueError
  | _ => Val (concat arrs)
  end.

(** [s[::skip]] on a list or an array: the result is of the same kind *)
Definition stride_seq {A} (skip : nat) (s : pyseq A) : pyseq A :=
  match s with
  | PyList l => PyList (stride skip l)
  | NdArray l => NdArray (stride skip l)
  end.

Definition stride_coords (skip : nat) (c : array3) : array3 :=
  mkArray3 (map (map (stride skip)) (cdata c))
           (length (stride skip (seq 0 (cframes c)))).

(** [_mergeTrajectories(newmols, skip, append)].  [srcs] lists the objects
    whose trajectory fields were appended to [trajinfo]; the [fileloc] of
    [self] is appended as one element, those of [newmols] are added. *)
Definition _mergeTrajectories (newmols : list Molecule) (skip : option nat)
    (append : bool) : M unit :=
  self <- gets (fun s => s) ;;
  let own := if append && negb (_numAtomsTraj self =? 0) then [self] else [] in
  let news := filter (fun mol => negb (_numAtomsTraj mol =? 0)) newmols in
  let srcs := own ++ news in
  (if 0 <? length srcs then
     c <- lift (concat_frames (map coords srcs)) ;;
     modify (set_coords c) ;;
     b <- lift (concat_last (map box srcs)) ;;
     modify (set_box b) ;;
     ba <- lift (concat_last (map boxangles srcs)) ;;
     modify (set_boxangles ba) ;;
     modify (set_fileloc (map (fun s => Locs (fileloc s)) own
                          ++ concat (map fileloc news))) ;;
     st <- lift (concat1 (map (fun s => items (step s)) srcs)) ;;
     modify (set_step (NdArray st)) ;;
     tm <- lift (concat1 (map (fun s => items (time s)) srcs)) ;;
     modify (set_time (NdArray tm))
   else ret tt) ;;
  topo <- gets _numAtomsTopo ;;
  traj <- gets _numAtomsTraj ;;
  if negb (topo =? 0) && (traj =? 0) then _emptyTraj topo
  else
    match skip with
    | None => ret tt
    | Some 0 => raise ValueError
    | Some sk =>
        c <- gets coords ;;
        modify (set_coords (stride_coords sk c)) ;;
        b <- gets box ;;
        modify (set_box (map (stride sk) b)) ;;
        ba <- gets boxangles ;;
        modify (set_boxangles (map (stride sk) ba)) ;;
        st <- gets step ;;
        modify (set_step (stride_seq sk st)) ;;
        tm <- gets time ;;
        modify (set_time (stride_seq sk tm)) ;;
        fl <- gets fileloc ;;
        modify (set_fileloc (stride sk fl))
    end.

(** [dropFrames] is given the frames to keep or the frames to drop *)
Inductive frames_arg : Type :=
| Keep (l : list nat)
| Drop (l : list nat).

(** [s[keep]] once the indices are known to be in bounds *)
Definition pick {A} (keep : list nat) (s : list A) : list A :=
  flat_map (fun i => match nth_error s i with Some x => [x] | None => [] end) keep.

(** second dimension of a two-dimensional array *)
Definition shape1 {A} (b : list (list A)) : nat := length (hd [] b).

(** [self.f = self.f[keep]] for [step] and [time], [keep] a list of
    indices: an array is indexed, a Python list raises TypeError *)
Definition index_seq {A} (set : pyseq A -> Molecule -> Molecule)
    (keep : list nat) (s : pyseq A) : M unit :=
  match s with
  | PyList _ => raise TypeError
  | NdArray l => modify (set (NdArray (pick keep l)))
  end.

Definition dropFrames (arg : frames_arg) : M unit :=
  numframes <- gets numFrames ;;
  let keep := match arg with
              | Keep l => l
              | Drop d => filter (fun i => negb (memb i d)) (seq 0 numframes)
              end in
  c <- gets coords ;;
  (if forallb (fun i => i <? cframes c) keep
   then modify (set_coords (mkArray3 (map (map (pick keep)) (cdata c)) (length keep)))
   else raise IndexError) ;;
  b <- gets box ;;
  (if shape1 b =? numframes then modify (set_box (map (pick keep) b)) else ret tt) ;;
  ba <- gets boxangles ;;
  (if shape1 ba =? numframes then modify (set_boxangles (map (pick keep) ba))
   else ret tt) ;;
  st <- gets step ;;
  (if length (items st) =? numframes then index_seq set_step keep st else ret tt) ;;
  tm <- gets time ;;
  (if length (items tm) =? numframes then index_seq set_time keep tm else ret tt) ;;
  fl <- gets fileloc ;;
  (if length fl =? numframes then modify (set_fileloc (pick keep fl)) else ret tt) ;;
  set_frame_checked 0.

(** [np.unique] on strings: sorted, without repetition *)
Fixpoint insert_sorted (x : string) (l : list string) : list string :=
  match l with
  | [] => [x]
  | y :: r => if String.eqb x y then l
              else if String.leb x y then x :: l
              else y :: insert_sorted x r
  end.
Definition unique_str (l : list string) : list string :=
  fold_right insert_sorted [] l.

Fixpoint remove_altlocs (others : list string) (_logger : bool) : M unit :=
  match others with
  | [] => ret tt
  | a :: r =>
      al <- gets altloc ;;
      remove (SelMask (map (fun x => String.eqb x a) al)) ;;
      remove_altlocs r _logger
  end.

Definition _dropAltLoc (keepaltloc : string) (_logger : bool) : M unit :=
  al <- gets altloc ;;
  let otheraltlocs :=
    filter (fun x => negb (String.eqb x "") && negb (String.eqb x keepaltloc))
           (unique_str al) in
  if (1 <=? length otheraltlocs) && negb (String.eqb keepaltloc "all") && _logger
  then remove_altlocs otheraltlocs _logger
  else ret tt.

Section Read.

Variable deduce_element : string -> string -> string.

(** the check made on what each reader returned *)
Fixpoint read_check (mols : list Molecule) : M unit :=
  match mols with
  | [] => ret tt
  | mol :: rest =>
      n <- gets numAtoms ;;
      if negb (n =? 0) && negb (numAtoms mol =? n)
      then raise ValueError
      else read_check rest
  end.

(** [read], from the molecules the readers returned for the files, with
    [frames], [guess] and [guessNE] left at [None] *)
Definition read (newmols : list Molecule) (skip : option nat) (append : bool)
    (ow : overwrite_t) (keepaltloc : string) (_logger : bool) : M unit :=
  read_check newmols ;;
  newmols' <- _mergeTopologies deduce_element newmols ow ;;
  _mergeTrajectories newmols' skip append ;;
  _dropAltLoc keepaltloc _logger.

End Read.

(** ** UniqueAtomID *)

Module UniqueAtomID.

Definition mol_name := name.
Definition mol_altloc := altloc.
Definition mol_resname := resname.
Definition mol_chain := chain.
Definition mol_resid := resid.
Definition mol_insertion := insertion.
Definition mol_segid := segid.

(** the attributes set from [_fields] *)
Record t : Type := mk {
  name : string;
  altloc : string;
  resname : string;
  chain : string;
  resid : Z;
  insertion : string;
  segid : string
}.

Definition fromMolecule (mol : Molecule) (sel : option selection) (idx : option nat)
  : res t :=
  match sel, idx with
  | Some _, Some _ | None, None =>
      Exn (RuntimeError "Either sel or idx arguments must be used (and not both).")
  | _, _ =>
      let atom := match sel, idx with
                  | Some s, _ => match atomselect_idx s mol with
                                 | Ok l _ => l
                                 | Raise _ _ => []
                                 end
                  | None, Some i => [i]
                  | None, None => []
                  end in
      if 1 <? length atom
      then Exn (RuntimeError "Your atomselection returned more than one atom")
      else
        match atom with
        | [] => Exn (RuntimeError "Your atomselection didn't match any atom")
        | i :: _ =>
            match nth_error (mol_name mol) i, nth_error (mol_altloc mol) i,
                  nth_error (mol_resname mol) i, nth_error (mol_chain mol) i,
                  nth_error (mol_resid mol) i, nth_error (mol_insertion mol) i,
                  nth_error (mol_segid mol) i with
            | Some a, Some b, Some c, Some d, Some e, Some f, Some g =>
                Val (mk a b c d e f g)
            | _, _, _, _, _, _, _ => Exn IndexError
            end
        end
  end.

(** [sel &= (field == value)]: the comparison has the length of the field;
    it is combined with [sel] element by element, a comparison of length one
    being broadcast *)
Definition and_eq {A} (eqb : A -> A -> bool) (fld : list A) (v : A)
    (sel : list bool) : res (list bool) :=
  let cmp := map (fun x => eqb x v) fld in
  if length cmp =? length sel then Val (map2 andb sel cmp)
  else match cmp with
       | [c] => Val (map (fun b => b && c) sel)
       | _ => Exn ValueError
       end.

(** one turn of the loop over [_fields] *)
Definition match_field {A} (f : string) (eqb : A -> A -> bool) (fld : list A)
    (v : A) (ignore : option (list string)) (sel : res (list bool))
  : res (list bool) :=
  match sel with
  | Exn e => Exn e
  | Val s =>
      match ignore with
      | Some ig => if str_memb f ig then Val s else and_eq eqb fld v s
      | None => and_eq eqb fld v s
      end
  end.

Definition matching (self : t) (mol : Molecule) (ignore : option (list string))
  : res (list bool) :=
  let s0 := Val (repeat true (numAtoms mol)) in
  let s1 := match_field "name" String.eqb (mol_name mol) (name self) ignore s0 in
  let s2 := match_field "altloc" String.eqb (mol_altloc mol) (altloc self) ignore s1 in
  let s3 := match_field "resname" String.eqb (mol_resname mol) (resname self) ignore s2 in
  let s4 := match_field "chain" String.eqb (mol_chain mol) (chain self) ignore s3 in
  let s5 := match_field "resid" Z.eqb (mol_resid mol) (resid self) ignore s4 in
  let s6 := match_field "insertion" String.eqb (mol_insertion mol) (insertion self) ignore s5 in
  match_field "segid" String.eqb (mol_segid mol) (segid self) ignore s6.

Inductive selected : Type :=
| AtomIndex (i : nat)
| AtomMask (s : list bool).

Definition selectAtom (self : t) (mol : Molecule) (indexes : bool)
    (ignore : option (list string)) : res selected :=
  match matching self mol ignore with
  | Exn e => Exn e
  | Val sel =>
      let n := length (filter (fun b => b) sel) in
      if 1 <? n
      then Exn (RuntimeError "The atom is no longer unique in your Molecule")
      else if n =? 0
      then Exn (RuntimeError "The atom is no longer present in your Molecule")
      else if indexes then
        match where_ sel with
        | i :: _ => Val (AtomIndex i)
        | [] => Exn IndexError
        end
      else Val (AtomMask sel)
  end.

Definition eq_ (self other : t) : bool :=
  String.eqb (name self) (name other) && String.eqb (altloc self) (altloc other)
  && String.eqb (resname self) (resname other) && String.eqb (chain self) (chain other)
  && Z.eqb (resid self) (resid other) && String.eqb (insertion self) (insertion other)
  && String.eqb (segid self) (segid other).

End UniqueAtomID.

(** ** calculateUniqueBonds *)

(** a row of the bonds array, of shape (n, 2), with its bond type when the
    types are given: the tuples put in the set *)
Definition bondtuple : Type := (nat * nat * option string)%type.

Definition bondtuple_eqb (x y : bondtuple) : bool :=
  (fst (fst x) =? fst (fst y)) && (snd (fst x) =? snd (fst y))
  && match snd x, snd y with
     | Some a, Some b => String.eqb a b
     | None, None => true
     | _, _ => false
     end.

(** [list(set(tuples))]: Python fixes the elements of the list, each once,
    and leaves their order to the implementation. *)
Class PySet : Type := {
  set_list : list bondtuple -> list bondtuple;
  set_list_NoDup : forall l, NoDup (set_list l);
  set_list_In : forall l x, In x (set_list l) <-> In x l
}.

(** [np.argsort(keys)]: a permutation of the positions that puts the keys in
    ascending order; the default sort kind promises no order among equal keys. *)
Class ArgSort : Type := {
  argsort : list nat -> list nat;
  argsort_perm : forall keys, Permutation (argsort keys) (seq 0 (length keys));
  argsort_sorted : forall keys,
      Sorted le (map (fun i => nth i keys 0) (argsort keys))
}.

(** [np.sort(bonds, axis=1)] on a row of two *)
Definition sort_row (b : nat * nat) : nat * nat :=
  (Nat.min (fst b) (snd b), Nat.max (fst b) (snd b)).

(** rows [idx] of an array *)
Definition rows_at {A} (d : A) (l : list A) (idx : list nat) : list A :=
  map (fun i => nth i l d) idx.

Section UniqueBonds.

Context {pyset : PySet} {argsorter : ArgSort}.

(** from the array built from the set to the sorted result; indexing the
    first column of the one-dimensional array numpy builds from an empty
    list raises IndexError *)
Definition sort_first (unique_sorted : list bondtuple) : res (list bondtuple) :=
  match unique_sorted with
  | [] => Exn IndexError
  | _ =>
      let sortidx := argsort (map (fun t => fst (fst t)) unique_sorted) in
      Val (rows_at (0, 0, None) unique_sorted sortidx)
  end.

Definition calculateUniqueBonds (bonds : list (nat * nat))
    (bondtype : option (list string))
  : res (list (nat * nat) * option (list string)) :=
  let typed := match bondtype with
               | Some bt => 0 <? length bt
               | None => false
               end in
  if typed then
    let bt := match bondtype with Some bt => bt | None => [] end in
    if negb (length bt =? length bonds) then Exn AssertionError
    else
      let tuples := map2 (fun bb t => (bb, Some t)) (map sort_row bonds) bt in
      match sort_first (set_list tuples) with
      | Exn e => Exn e
      | Val rows =>
          Val (map fst rows,
               Some (map (fun t => match snd t with Some s => s | None => "" end) rows))
      end
  else
    let tuples := map (fun bb => (bb, None)) (map sort_row bonds) in
    match sort_first (set_list tuples) with
    | Exn e => Exn e
    | Val rows => Val (map fst rows, None)
    end.

End UniqueBonds.

(** * Properties *)

(** ** Reasoning about computations *)

Lemma bind_Ok_inv {A B} (c : M A) (k : A -> M B) m b m' :
  bind c k m = Ok b m' -> exists a m1, c m = Ok a m1 /\ k a m1 = Ok b m'.
Proof.
  unfold bind. destruct (c m) as [a m1 | e m1]; intros H.
  - exists a, m1. split; [reflexivity | exact H].
  - discriminate H.
Qed.

Lemma bind_Ok {A B} (c : M A) (k : A -> M B) m a m1 :
  c m = Ok a m1 -> bind c k m = k a m1.
Proof. unfold bind. intros ->. reflexivity. Qed.

Lemma bind_Raise {A B} (c : M A) (k : A -> M B) m e m1 :
  c m = Raise e m1 -> bind c k m = Raise e m1.
Proof. unfold bind. intros ->. reflexivity. Qed.

Lemma lift_Ok_inv {A} (r : res A) m a m' :
  lift r m = Ok a m' -> r = Val a /\ m' = m.
Proof.
  destruct r; cbn; intros H; inversion H; subst; auto.
Qed.

(** [preserves p c]: a run of [c] that returns leaves [p] of the state as
    it was *)
Definition preserves {A B} (p : Molecule -> B) (c : M A) : Prop :=
  forall m a m', c m = Ok a m' -> p m' = p m.

Lemma preserves_ret {A B} (p : Molecule -> B) (a : A) : preserves p (ret a).
Proof. intros m a' m' H. inversion H. reflexivity. Qed.

Lemma preserves_raise {A B} (p : Molecule -> B) (e : exn) :
  preserves p (@raise A e).
Proof. intros m a' m' H. discriminate H. Qed.

Lemma preserves_gets {A B} (p : Molecule -> B) (f : Molecule -> A) :
  preserves p (gets f).
Proof. intros m a' m' H. inversion H. reflexivity. Qed.

Lemma preserves_lift {A B} (p : Molecule -> B) (r : res A) : preserves p (lift r).
Proof. intros m a m' H. apply lift_Ok_inv in H. destruct H as [_ ->]. reflexivity. Qed.

Lemma preserves_modify {B} (p : Molecule -> B) (f : Molecule -> Molecule) :
  (forall s, p (f s) = p s) -> preserves p (modify f).
Proof. intros Hf m a m' H. inversion H. apply Hf. Qed.

Lemma preserves_bind {A B C} (p : Molecule -> C) (c : M A) (k : A -> M B) :
  preserves p c -> (forall a, preserves p (k a)) -> preserves p (bind c k).
Proof.
  intros Hc Hk m b m' H. apply bind_Ok_inv in H.
  destruct H as (a & m1 & H1 & H2).
  rewrite (Hk a _ _ _ H2). exact (Hc _ _ _ H1).
Qed.

Ltac preserves_step :=
  match goal with
  | |- preserves _ (bind _ _) => apply preserves_bind; [ | intros ? ]
  | |- preserves _ (ret _) => apply preserves_ret
  | |- preserves _ (raise _) => apply preserves_raise
  | |- preserves _ (gets _) => apply preserves_gets
  | |- preserves _ (lift _) => apply preserves_lift
  | |- preserves _ (modify _) => apply preserves_modify; intros ?; reflexivity
  | |- preserves _ (if ?b then _ else _) => destruct b
  | |- preserves _ (match ?x with _ => _ end) => destruct x
  end.
Ltac preserves_tac := repeat preserves_step.

(** ** Lists: deletion by index and the position of the survivors *)

Lemma memb_In (i : nat) (l : list nat) : memb i l = true <-> In i l.
Proof.
  unfold memb. rewrite existsb_exists. split.
  - intros (x & Hx & E). apply Nat.eqb_eq in E. subst. exact Hx.
  - intros H. exists i. split; [exact H | apply Nat.eqb_refl].
Qed.

Lemma memb_false (i : nat) (l : list nat) : memb i l = false <-> ~ In i l.
Proof.
  rewrite <- memb_In. destruct (memb i l); split; intros H; congruence.
Qed.

(** an atom survives the removal of [idx] when it is not in [idx] *)
Definition survives (idx : list nat) (j : nat) : bool := negb (memb j idx).

(** the new position of atom [e]: the number of survivors before it *)
Definition newpos (idx : list nat) (e : nat) : nat :=
  length (filter (survives idx) (seq 0 e)).

Lemma drop_at_length {A} (idx : list nat) (l : list A) k :
  length (drop_at k idx l) = length (filter (survives idx) (seq k (length l))).
Proof.
  revert k. induction l as [|x r IH]; intros k; cbn; [reflexivity|].
  unfold survives at 1. destruct (memb k idx); cbn; rewrite IH; reflexivity.
Qed.

Lemma drop_at_nth {A} (idx : list nat) (l : list A) : forall k i,
  survives idx (k + i) = true ->
  nth_error (drop_at k idx l) (length (filter (survives idx) (seq k i)))
  = nth_error l i.
Proof.
  induction l as [|x r IH]; intros k i Hs.
  - cbn. destruct i; cbn.
    + reflexivity.
    + destruct (length _); reflexivity.
  - destruct i as [|i].
    + cbn. rewrite Nat.add_0_r in Hs. unfold survives in Hs.
      destruct (memb k idx); [discriminate|reflexivity].
    + cbn [seq filter drop_at]. unfold survives at 1.
      destruct (memb k idx) eqn:E; cbn [negb].
      * apply IH. rewrite <- Hs. f_equal. lia.
      * cbn [length nth_error]. apply IH. rewrite <- Hs. f_equal. lia.
Qed.

Lemma drop_at_newpos {A} (idx : list nat) (l : list A) i :
  survives idx i = true ->
  nth_error (drop_at 0 idx l) (newpos idx i) = nth_error l i.
Proof. intros H. apply (drop_at_nth idx l 0 i). exact H. Qed.

Lemma filter_length_le {A} (f : A -> bool) (l : list A) :
  length (filter f l) <= length l.
Proof.
  induction l as [|x r IH]; cbn; [lia|]. destruct (f x); cbn; lia.
Qed.

Lemma newpos_le (idx : list nat) (e : nat) : newpos idx e <= e.
Proof.
  unfold newpos. pose proof (filter_length_le (survives idx) (seq 0 e)) as H.
  rewrite length_seq in H. exact H.
Qed.

Lemma seq_split_at (k a b : nat) : seq k (a + b) = seq k a ++ seq (k + a) b.
Proof. apply seq_app. Qed.

(** the new positions grow with the old ones, strictly on survivors *)
Lemma newpos_lt (idx : list nat) (i j : nat) :
  i < j -> survives idx i = true -> newpos idx i < newpos idx j.
Proof.
  intros Hij Hs. unfold newpos.
  replace j with (i + S (j - i - 1)) by lia.
  rewrite seq_split_at, filter_app, length_app.
  change (0 + i) with i. cbn [seq filter]. rewrite Hs. cbn [length]. lia.
Qed.

Lemma newpos_bound (idx : list nat) (n e : nat) :
  e < n -> survives idx e = true ->
  newpos idx e < length (filter (survives idx) (seq 0 n)).
Proof. intros H Hs. apply (newpos_lt idx e n H Hs). Qed.

(** the survivors of [seq 0 n], when [idx] has no repetition and lies in
    range, are [n - length idx] *)
Lemma survivors_count (idx : list nat) (n : nat) :
  NoDup idx -> Forall (fun i => i < n) idx ->
  length (filter (survives idx) (seq 0 n)) = n - length idx.
Proof.
  intros Hnd Hin.
  assert (Hp : Permutation (filter (fun j => memb j idx) (seq 0 n)) idx).
  { apply NoDup_Permutation.
    - apply NoDup_filter, seq_NoDup.
    - exact Hnd.
    - intros x. rewrite filter_In, in_seq, memb_In. split.
      + tauto.
      + intros Hx. rewrite Forall_forall in Hin. specialize (Hin x Hx). split; [lia|exact Hx]. }
  pose proof (filter_length (fun j => memb j idx) (seq 0 n)) as HL.
  rewrite length_seq in HL. apply Permutation_length in Hp.
  unfold survives.
  assert (E : length (filter (fun x => negb (memb x idx)) (seq 0 n))
              = n - length idx) by lia.
  exact E.
Qed.

(** ** The invariants of the container *)

(** every per-atom field has [numAtoms] entries *)
Definition atom_fields_aligned (m : Molecule) : Prop :=
  let n := numAtoms m in
  length (record m) = n /\ length (serial m) = n /\ length (name m) = n
  /\ length (altloc m) = n /\ length (resname m) = n /\ length (chain m) = n
  /\ length (resid m) = n /\ length (insertion m) = n
  /\ length (occupancy m) = n /\ length (beta m) = n /\ length (segid m) = n
  /\ length (element m) = n /\ length (charge m) = n /\ length (masses m) = n
  /\ length (atomtype m) = n.

Definition rows_below (n : nat) (rows : list (list nat)) : Prop :=
  Forall (Forall (fun e => e < n)) rows.

(** every endpoint of every bond, angle, dihedral and improper is an atom *)
Definition endpoints_valid (m : Molecule) : Prop :=
  rows_below (numAtoms m) (bonds m) /\ rows_below (numAtoms m) (angles m)
  /\ rows_below (numAtoms m) (dihedrals m) /\ rows_below (numAtoms m) (impropers m).

(** the coordinates have a row per atom, or none when no trajectory is loaded *)
Definition coords_aligned (m : Molecule) : Prop :=
  length (cdata (coords m)) = numAtoms m \/ length (cdata (coords m)) = 0.

Definition invariant (m : Molecule) : Prop :=
  atom_fields_aligned m /\ endpoints_valid m /\ coords_aligned m.

(** ** Example molecules *)

Definition origin : list (list float32) := [[fzero]; [fzero]; [fzero]].

(** one atom, one frame *)
Definition one_atom : Molecule := Eval vm_compute in
  set_coords (mkArray3 [origin] 1) (state_of (empty 1 Molecule_init)).

(** two atoms joined by a bond of type "1", one frame *)
Definition diatomic : Molecule := Eval vm_compute in
  set_bondtype ["1"]
    (set_bonds [[0; 1]]
       (set_coords (mkArray3 [origin; origin] 1) (state_of (empty 2 Molecule_init)))).

Ltac invariant_tac :=
  unfold invariant, atom_fields_aligned, endpoints_valid, coords_aligned, rows_below;
  cbn; repeat split; auto; repeat constructor.

Lemma invariant_init : invariant Molecule_init.
Proof. invariant_tac. Qed.


Lemma invariant_diatomic : invariant diatomic.
Proof. invariant_tac. Qed.

(** ** insert: an index past the end, and a failing call *)

(** C1 (as the code behaves at one input): inserting the two-atom molecule at
    index 5 into a new, empty Molecule returns without error; both molecules
    satisfy the invariants before the call, and afterwards the Molecule has two
    atoms and the bond [5, 6], whose endpoints are not atoms. *)
Theorem insert_past_end_into_empty_breaks_endpoints :
  invariant Molecule_init /\ invariant diatomic
  /\ exists m', insert diatomic 5 Molecule_init = Ok tt m'
                /\ atom_fields_aligned m' /\ numAtoms m' = 2
                /\ bonds m' = [[5; 6]] /\ ~ endpoints_valid m'.
Proof.
  split; [exact invariant_init|]. split; [exact invariant_diatomic|].
  eexists. split; [vm_compute; reflexivity|].
  split; [unfold atom_fields_aligned; cbn; repeat split|].
  split; [reflexivity|]. split; [reflexivity|].
  intros (Hb & _). unfold rows_below in Hb. cbn in Hb.
  inversion Hb as [|r rs Hr _]; subst. inversion Hr as [|e es He _]; subst. lia.
Qed.

(** C2 (as the code behaves at one input): inserting the two-atom molecule at
    index 5 into a one-atom Molecule fails with NameError, and the Molecule is
    not as it was: it had no bond and now holds the bond [5, 6] and its type,
    with one atom. *)
Theorem insert_failure_leaves_bonds_changed :
  exists m', insert diatomic 5 one_atom
             = Raise (NameError "Failed to insert/append molecule") m'
             /\ bonds one_atom = [] /\ bondtype one_atom = []
             /\ bonds m' = [[5; 6]] /\ bondtype m' = ["1"]
             /\ numAtoms m' = 1 /\ m' <> one_atom.
Proof.
  eexists. split; [vm_compute; reflexivity|].
  repeat split. intros H. apply (f_equal bonds) in H. discriminate H.
Qed.

(** ** The active frame across changes of the number of frames *)

Lemma _emptyTraj_keeps_frame n : preserves _frame (_emptyTraj n).
Proof. unfold _emptyTraj. preserves_tac. Qed.

(** the trajectory merge has no assignment to the frame pointer *)
Lemma _mergeTrajectories_keeps_frame newmols skip append_ :
  preserves _frame (_mergeTrajectories newmols skip append_).
Proof.
  unfold _mergeTrajectories. preserves_tac; apply _emptyTraj_keeps_frame.
Qed.

(** [dropFrames], when it returns, has set the frame pointer to 0 *)
Lemma dropFrames_resets_frame arg m m' :
  dropFrames arg m = Ok tt m' -> _frame m' = 0%Z.
Proof.
  unfold dropFrames. intros H.
  repeat (apply bind_Ok_inv in H; destruct H as (? & ? & _ & H)).
  unfold set_frame_checked in H. cbn in H.
  destruct (_ && _) in H; [discriminate|]. inversion H. reflexivity.
Qed.

(** one atom with a topology and two frames, the second one active *)
Definition two_frames : Molecule := Eval vm_compute in
  set_frame 1%Z
    (set_boxangles (zeros3 2)
       (set_box (zeros3 2)
          (set_coords (mkArray3 [[[fzero; fzero]; [fzero; fzero]; [fzero; fzero]]] 2)
             (state_of (empty 1 Molecule_init))))).

(** what a trajectory reader returns for a file of one frame of one atom *)
Definition one_frame_traj : Molecule := Eval vm_compute in
  set_time (NdArray [fzero])
    (set_step (NdArray [0%Z])
       (set_fileloc [Loc "traj.xtc" 0]
          (set_boxangles (zeros3 1)
             (set_box (zeros3 1)
                (set_coords (mkArray3 [origin] 1) Molecule_init))))).

(** C9 (as the code behaves at one input): a Molecule of two frames whose
    active frame is 1 reads a trajectory of one frame, without append or
    stride.  The merge, alone and inside [read], returns; the Molecule then has
    one frame and its frame pointer is still 1, not 0, so that reading the
    [frame] property raises NameError. *)
Theorem merge_trajectories_keeps_stale_frame :
  frame two_frames = Ok 1%Z two_frames
  /\ (exists m', _mergeTrajectories [one_frame_traj] None false two_frames = Ok tt m'
                 /\ numFrames m' = 1 /\ _frame m' = 1%Z
                 /\ frame m' = Raise (NameError "frame out of range") m')
  /\ (forall deduce_element, exists m',
         read deduce_element [one_frame_traj] None false (Some ["all"]) "A" true
              two_frames = Ok tt m'
         /\ numFrames m' = 1 /\ _frame m' = 1%Z
         /\ frame m' = Raise (NameError "frame out of range") m').
Proof.
  split; [reflexivity|]. split.
  - eexists. split; [vm_compute; reflexivity|]. repeat split.
  - intros d. eexists. split; [vm_compute; reflexivity|]. repeat split.
Qed.

(** ** What remove and insert do to the per-atom fields *)

Ltac preserves_by H :=
  repeat first
    [ preserves_step
    | match goal with
      | |- preserves _ (modify _) => apply preserves_modify; intros ?; apply H
      end ].

(** a projection that the five connectivity setters leave alone is left
    alone by the connectivity remap *)
Lemma _update_preserves {B} (p : Molecule -> B) (idx : list nat) :
  (forall v s, p (set_bonds v s) = p s) ->
  (forall v s, p (set_bondtype v s) = p s) ->
  (forall v s, p (set_angles v s) = p s) ->
  (forall v s, p (set_dihedrals v s) = p s) ->
  (forall v s, p (set_impropers v s) = p s) ->
  preserves p (_updateBondsAnglesDihedrals idx).
Proof.
  intros H1 H2 H3 H4 H5.
  unfold _updateBondsAnglesDihedrals, update_field.
  repeat first
    [ preserves_step
    | apply preserves_modify; intros ?;
      first [apply H1 | apply H2 | apply H3 | apply H4 | apply H5] ].
Qed.

Ltac atoms_untouched := apply _update_preserves; intros; reflexivity.

Lemma atomselect_idx_pure sel m idx m1 :
  atomselect_idx sel m = Ok idx m1 -> m1 = m.
Proof.
  unfold atomselect_idx, atomselect, bind, gets, ret.
  destruct sel; cbn; intros H; inversion H; reflexivity.
Qed.

Lemma delete_Val {A} (l : list A) idx d :
  Np.delete l idx = Val d -> d = drop_at 0 idx l.
Proof.
  unfold Np.delete. destruct (forallb _ idx); intros H; inversion H; reflexivity.
Qed.

Lemma delete_field_inv {A} (get : Molecule -> list A) set_ sel m m' :
  delete_field get set_ sel m = Ok tt m' ->
  m' = set_ (drop_at 0 sel (get m)) m.
Proof.
  unfold delete_field, bind, gets, modify. cbn.
  destruct (Np.delete (get m) sel) eqn:E; cbn; intros H; inversion H.
  apply delete_Val in E. subst. reflexivity.
Qed.

Lemma delete_coords_inv sel m m' :
  delete_coords sel m = Ok tt m' ->
  m' = set_coords (mkArray3 (drop_at 0 sel (cdata (coords m))) (cframes (coords m))) m.
Proof.
  unfold delete_coords, bind, gets, modify. cbn.
  destruct (Np.delete (cdata (coords m)) sel) eqn:E; cbn; intros H; inversion H.
  apply delete_Val in E. subst. reflexivity.
Qed.

(** the per-atom fields and the coordinates after [remove]: the rows of
    the selected indices are deleted, nothing else happens to them *)
Definition atoms_deleted (idx : list nat) (m m' : Molecule) : Prop :=
  record m' = drop_at 0 idx (record m)
  /\ serial m' = drop_at 0 idx (serial m)
  /\ name m' = drop_at 0 idx (name m)
  /\ altloc m' = drop_at 0 idx (altloc m)
  /\ resname m' = drop_at 0 idx (resname m)
  /\ chain m' = drop_at 0 idx (chain m)
  /\ resid m' = drop_at 0 idx (resid m)
  /\ insertion m' = drop_at 0 idx (insertion m)
  /\ occupancy m' = drop_at 0 idx (occupancy m)
  /\ beta m' = drop_at 0 idx (beta m)
  /\ segid m' = drop_at 0 idx (segid m)
  /\ element m' = drop_at 0 idx (element m)
  /\ charge m' = drop_at 0 idx (charge m)
  /\ masses m' = drop_at 0 idx (masses m)
  /\ atomtype m' = drop_at 0 idx (atomtype m)
  /\ cdata (coords m') = drop_at 0 idx (cdata (coords m))
  /\ cframes (coords m') = cframes (coords m).

Lemma delete_rows_inv idx m1 m' :
  delete_rows idx m1 = Ok tt m' ->
  (bonds m' = bonds m1 /\ bondtype m' = bondtype m1 /\ angles m' = angles m1
   /\ dihedrals m' = dihedrals m1 /\ impropers m' = impropers m1)
  /\ atoms_deleted idx m1 m'.
Proof.
  unfold delete_rows, atoms_deleted. intros H. destruct m1.
  repeat (apply bind_Ok_inv in H;
          let u := fresh "u" in let s := fresh "s" in let D := fresh "D" in
          destruct H as (u & s & D & H); destruct u;
          first [apply delete_field_inv in D | apply delete_coords_inv in D];
          cbn in D; subst s).
  apply delete_coords_inv in H. cbn in H. subst m'. cbn. repeat split.
Qed.

Lemma remove_inv sel m r m' :
  remove sel m = Ok r m' ->
  atomselect_idx sel m = Ok r m
  /\ (exists m1, _updateBondsAnglesDihedrals r m = Ok tt m1
                 /\ bonds m' = bonds m1 /\ bondtype m' = bondtype m1
                 /\ angles m' = angles m1 /\ dihedrals m' = dihedrals m1
                 /\ impropers m' = impropers m1)
  /\ atoms_deleted r m m'.
Proof.
  unfold remove. intros H.
  apply bind_Ok_inv in H. destruct H as (idx & m0 & Hsel & H).
  pose proof (atomselect_idx_pure _ _ _ _ Hsel) as ->.
  apply bind_Ok_inv in H. destruct H as ([] & m1 & Hup & H).
  apply bind_Ok_inv in H. destruct H as ([] & m2 & Hdel & H).
  inversion H; subst; clear H.
  apply delete_rows_inv in Hdel. destruct Hdel as (Hc & Ha).
  assert (P : forall B (p : Molecule -> B),
             (forall v s, p (set_bonds v s) = p s) ->
             (forall v s, p (set_bondtype v s) = p s) ->
             (forall v s, p (set_angles v s) = p s) ->
             (forall v s, p (set_dihedrals v s) = p s) ->
             (forall v s, p (set_impropers v s) = p s) -> p m1 = p m).
  { intros B p H1 H2 H3 H4 H5.
    exact (_update_preserves p r H1 H2 H3 H4 H5 _ _ _ Hup). }
  split; [exact Hsel|]. split.
  - exists m1. split; [exact Hup|exact Hc].
  - unfold atoms_deleted in *.
    rewrite <- (P _ record), <- (P _ serial), <- (P _ name), <- (P _ altloc),
      <- (P _ resname), <- (P _ chain), <- (P _ resid), <- (P _ insertion),
      <- (P _ occupancy), <- (P _ beta), <- (P _ segid), <- (P _ element),
      <- (P _ charge), <- (P _ masses), <- (P _ atomtype), <- (P _ coords)
      by (intros; reflexivity).
    exact Ha.
Qed.

Lemma drop_at_nil {A} (l : list A) k : drop_at k [] l = l.
Proof.
  revert k. induction l as [|x r IH]; intros k; cbn; [reflexivity|].
  rewrite IH. reflexivity.
Qed.

(** ** serial *)

Lemma insert_serial mol index m m' :
  insert mol index m = Ok tt m' ->
  serial m' = arange 1 (Z.of_nat (numAtoms m') + 1).
Proof.
  unfold insert.
  destruct (insert_try mol index (index =? numAtoms m) m) as [a s|e s] eqn:H;
    intros E; inversion E; subst; clear E.
  unfold insert_try in H.
  do 20 (apply bind_Ok_inv in H; destruct H as (? & ? & _ & H)).
  cbn in H. inversion H. reflexivity.
Qed.

Lemma filter_inv sel m r m' :
  filter_ sel m = Ok r m' ->
  (r = [] /\ m' = m) \/ (exists s, remove (SelMask s) m = Ok r m').
Proof.
  unfold filter_. intros H.
  apply bind_Ok_inv in H. destruct H as (s & m0 & Hs & H).
  assert (m0 = m) as ->.
  { unfold atomselect, bind, gets, ret in Hs. destruct sel; cbn in Hs; inversion Hs; reflexivity. }
  destruct s as [b|l].
  - destruct (forallb (fun x => x) b).
    + inversion H. left. split; reflexivity.
    + right. exists (map negb b). exact H.
  - destruct (forallb _ l); [|discriminate H].
    inversion H. left. split; reflexivity.
Qed.

(** [Molecule().empty(3)]: three atoms, numbered 1, 2, 3, no frame *)
Definition three_atoms : Molecule := Eval vm_compute in state_of (empty 3 Molecule_init).

(** C8, a case where it fails: removing the first of three atoms, whose
    serial numbers are 1, 2, 3, leaves the serial numbers 2, 3 and not 1, 2;
    nor does filter renumber when it keeps the last two atoms. *)
Lemma remove_keeps_serial_numbers :
  serial three_atoms = [1; 2; 3]%Z
  /\ (exists m', remove (SelIdx [0]) three_atoms = Ok [0] m'
                 /\ numAtoms m' = 2 /\ serial m' = [2; 3]%Z
                 /\ serial m' <> arange 1 (Z.of_nat (numAtoms m') + 1))
  /\ (exists m', filter_ (SelMask [false; true; true]) three_atoms = Ok [0] m'
                 /\ numAtoms m' = 2 /\ serial m' = [2; 3]%Z).
Proof.
  split; [reflexivity|]. split.
  - eexists. split; [vm_compute; reflexivity|]. repeat split. discriminate.
  - eexists. split; [vm_compute; reflexivity|]. repeat split.
Qed.

(** C8, amended: after an insert or an append that returns, the serial
    field is 1, 2, ..., numAtoms; a remove or a filter that returns deletes the
    rows of the removed atoms from the serial field and leaves the serial
    numbers of the remaining atoms as they were. *)
Theorem serial_after_atom_count_change :
  (forall mol index m m',
      insert mol index m = Ok tt m' ->
      serial m' = arange 1 (Z.of_nat (numAtoms m') + 1))
  /\ (forall mol m m',
         append mol m = Ok tt m' ->
         serial m' = arange 1 (Z.of_nat (numAtoms m') + 1))
  /\ (forall sel m removed m',
         remove sel m = Ok removed m' ->
         serial m' = drop_at 0 removed (serial m))
  /\ (forall sel m removed m',
         filter_ sel m = Ok removed m' ->
         serial m' = drop_at 0 removed (serial m)).
Proof.
  split; [exact insert_serial|]. split; [|split].
  - intros mol m m' H. unfold append in H. cbn in H.
    exact (insert_serial _ _ _ _ H).
  - intros sel m r m' H. apply remove_inv in H.
    destruct H as (_ & _ & D). apply D.
  - intros sel m r m' H. apply filter_inv in H.
    destruct H as [[-> ->] | [s H]].
    + symmetry. apply drop_at_nil.
    + apply remove_inv in H. destruct H as (_ & _ & D). apply D.
Qed.


(** the four parts of [serial_after_atom_count_change] at concrete calls *)
Lemma serial_after_atom_count_change_witness :
  serial (state_of (insert diatomic 1 one_atom)) = [1; 2; 3]%Z
  /\ serial (state_of (append diatomic one_atom)) = [1; 2; 3]%Z
  /\ serial (state_of (remove (SelIdx [0]) three_atoms)) = [2; 3]%Z
  /\ serial (state_of (filter_ (SelMask [false; true; true]) three_atoms)) = [2; 3]%Z.
Proof.
  destruct serial_after_atom_count_change as (Hi & Ha & Hr & Hf).
  split; [|split; [|split]].
  - rewrite (Hi diatomic 1 one_atom (state_of (insert diatomic 1 one_atom)));
      vm_compute; reflexivity.
  - rewrite (Ha diatomic one_atom (state_of (append diatomic one_atom)));
      vm_compute; reflexivity.
  - rewrite (Hr (SelIdx [0]) three_atoms [0]
               (state_of (remove (SelIdx [0]) three_atoms)));
      vm_compute; reflexivity.
  - rewrite (Hf (SelMask [false; true; true]) three_atoms [0]
               (state_of (filter_ (SelMask [false; true; true]) three_atoms)));
      vm_compute; reflexivity.
Defined.

(** ** Topology merge of a source with other atom names *)

Lemma array_equal_eq (l1 l2 : list string) :
  array_equal String.eqb l1 l2 = true -> l1 = l2.
Proof.
  unfold array_equal. revert l2.
  induction l1 as [|x r IH]; intros [|y s]; cbn; intros H;
    try reflexivity; try discriminate.
  apply andb_true_iff in H. destruct H as (HL & H).
  apply andb_true_iff in H. destruct H as (He & H).
  apply String.eqb_eq in He. subst y. f_equal.
  apply IH. rewrite HL. exact H.
Qed.

Lemma str_memb_In (s : string) (l : list string) : str_memb s l = true <-> In s l.
Proof.
  unfold str_memb. rewrite existsb_exists. split.
  - intros (x & Hx & E). apply String.eqb_eq in E. subst. exact Hx.
  - intros H. exists s. split; [exact H | apply String.eqb_refl].
Qed.

Lemma any_nonempty_inhabited (l : list string) :
  any_nonempty l = true -> exists x, In x l.
Proof.
  unfold any_nonempty. rewrite existsb_exists. intros (x & Hx & _). exists x. exact Hx.
Qed.

Lemma numAtoms_topo (m : Molecule) :
  atom_fields_aligned m -> any_nonempty (name m) = true ->
  _numAtomsTopo m = numAtoms m /\ numAtoms m <> 0.
Proof.
  intros (Hr & _ & Hn & _) Hany.
  apply any_nonempty_inhabited in Hany. destruct Hany as (x & Hx).
  assert (length (name m) <> 0) by (destruct (name m); [contradiction|discriminate]).
  unfold _numAtomsTopo. split; [exact Hr|lia].
Qed.

(** reader output with the atom names A and B, and a Molecule of two atoms
    whose names are still unset *)
Definition named_AB : Molecule := Eval vm_compute in
  set_topoloc (Present (Some "ab.psf"))
    (set_name ["A"; "B"] (state_of (empty 2 Molecule_init))).
Definition unnamed2 : Molecule := Eval vm_compute in state_of (empty 2 Molecule_init).

(** C3, a case where it fails: the existing Molecule has two atoms whose
    names are empty, the source has two atoms named A and B; the name sets
    are disjoint, yet the merge succeeds and the names are overwritten. *)
Lemma merge_into_unnamed_atoms_succeeds :
  numAtoms named_AB = numAtoms unnamed2
  /\ name unnamed2 = [""; ""] /\ name named_AB = ["A"; "B"]
  /\ exists m', _mergeTopologies (fun n _ => n) [named_AB] (Some ["all"]) unnamed2
                = Ok [named_AB] m'
                /\ name m' = ["A"; "B"].
Proof.
  split; [reflexivity|]. split; [reflexivity|]. split; [reflexivity|].
  eexists. split; [vm_compute; reflexivity|reflexivity].
Qed.

(** C3, amended: when the existing Molecule and the source satisfy the
    per-atom length invariant, have the same atom count, each carry at least
    one non-empty atom name, and no atom name of the existing Molecule occurs
    in the source, the merge raises TopologyInconsistencyError and the existing
    Molecule is exactly as before the call. *)
Theorem merge_disjoint_names_fails_unchanged
    (deduce_element : string -> string -> string)
    (self mol : Molecule) (rest : list Molecule) (ow : overwrite_t) :
  atom_fields_aligned self -> atom_fields_aligned mol ->
  numAtoms mol = numAtoms self ->
  any_nonempty (name self) = true -> any_nonempty (name mol) = true ->
  (forall x, In x (name self) -> ~ In x (name mol)) ->
  _mergeTopologies deduce_element (mol :: rest) ow self
  = Raise (TopologyInconsistencyError
             "Same number of atoms but different atom names read from topology file")
          self.
Proof.
  intros Hs Hm Hn Hsa Hma Hdis.
  destruct (numAtoms_topo self Hs Hsa) as (Ts & Ns).
  destruct (numAtoms_topo mol Hm Hma) as (Tm & Nm).
  assert (Ls : length (name self) = numAtoms self) by apply Hs.
  destruct (any_nonempty_inhabited _ Hsa) as (x & Hx).
  assert (Hne : array_equal String.eqb (name self) (name mol) = false).
  { destruct (array_equal String.eqb (name self) (name mol)) eqn:E; [|reflexivity].
    apply array_equal_eq in E. exfalso. apply (Hdis x Hx). rewrite <- E. exact Hx. }
  assert (Hsd : setdiff1d_empty (name self) (name mol) = false).
  { destruct (setdiff1d_empty (name self) (name mol)) eqn:E; [|reflexivity].
    unfold setdiff1d_empty in E. rewrite forallb_forall in E.
    specialize (E x Hx). apply str_memb_In in E. exfalso. exact (Hdis x Hx E). }
  assert (Hnames : merge_names mol self
                   = Raise (TopologyInconsistencyError
                              "Same number of atoms but different atom names read from topology file")
                           self).
  { unfold merge_names, bind, gets. cbn.
    rewrite Ls, Tm, Hn, Nat.eqb_refl, Hma, Hsa, Hne, Hsd. reflexivity. }
  cbn [_mergeTopologies]. apply bind_Raise.
  unfold merge_one.
  destruct (_numAtomsTopo mol =? 0) eqn:E0; [apply Nat.eqb_eq in E0; lia|].
  unfold bind at 1. unfold gets at 1.
  destruct (_numAtomsTopo self =? 0) eqn:E1; [apply Nat.eqb_eq in E1; lia|].
  unfold bind at 1. unfold ret at 1.
  apply bind_Raise. exact Hnames.
Qed.

Definition named_CD : Molecule := Eval vm_compute in
  set_name ["C"; "D"] (state_of (empty 2 Molecule_init)).

Lemma merge_disjoint_names_fails_unchanged_witness :
  _mergeTopologies (fun n _ => n) [named_AB] (Some ["all"]) named_CD
  = Raise (TopologyInconsistencyError
             "Same number of atoms but different atom names read from topology file")
          named_CD.
Proof.
  apply (merge_disjoint_names_fails_unchanged (fun n _ => n) named_CD named_AB []
           (Some ["all"])).
  - unfold atom_fields_aligned; cbn; repeat split.
  - unfold atom_fields_aligned; cbn; repeat split.
  - reflexivity.
  - reflexivity.
  - reflexivity.
  - cbn. intros x [<- | [<- | []]] [H | [H | []]]; discriminate H.
Defined.

(** ** bondtype after a topology merge *)

Lemma merge_field_preserves {A B} (p : Molecule -> B) fname b isd eqb
    (get : Molecule -> list A) set_ mol ow :
  (forall v s, p (set_ v s) = p s) ->
  preserves p (merge_field fname b isd eqb get set_ mol ow).
Proof.
  intros H. unfold merge_field. cbv zeta. preserves_by H.
Qed.

Lemma merge_field_default {A} fname b isd eqb
    (get : Molecule -> list A) set_ mol ow :
  get mol = [] \/ forallb isd (get mol) = true ->
  merge_field fname b isd eqb get set_ mol ow = ret tt.
Proof.
  intros H. unfold merge_field. cbv zeta.
  destruct H as [-> | H]; [reflexivity|].
  rewrite H. destruct (length (get mol) =? 0); reflexivity.
Qed.

Lemma _emptyTopo_preserves {B} (p : Molecule -> B) n :
  (forall v s, p (set_record v s) = p s) -> (forall v s, p (set_serial v s) = p s) ->
  (forall v s, p (set_name v s) = p s) -> (forall v s, p (set_altloc v s) = p s) ->
  (forall v s, p (set_resname v s) = p s) -> (forall v s, p (set_chain v s) = p s) ->
  (forall v s, p (set_resid v s) = p s) -> (forall v s, p (set_insertion v s) = p s) ->
  (forall v s, p (set_occupancy v s) = p s) -> (forall v s, p (set_beta v s) = p s) ->
  (forall v s, p (set_segid v s) = p s) -> (forall v s, p (set_element v s) = p s) ->
  (forall v s, p (set_charge v s) = p s) -> (forall v s, p (set_masses v s) = p s) ->
  (forall v s, p (set_atomtype v s) = p s) ->
  preserves p (_emptyTopo n).
Proof.
  intros. unfold _emptyTopo.
  repeat first [ preserves_step | apply preserves_modify; intros ?; auto ].
Qed.

Lemma reorderAtoms_bondtype order : preserves bondtype (reorderAtoms order).
Proof.
  unfold reorderAtoms, reorder_field, reorder_coords, reindex_field. preserves_tac.
Qed.

Lemma merge_names_inv mol m mol' m1 :
  merge_names mol m = Ok mol' m1 -> m1 = m /\ bondtype mol' = bondtype mol.
Proof.
  unfold merge_names, bind, gets.
  destruct (_ && _).
  - destruct (setdiff1d_empty _ _); [|discriminate].
    destruct (negb _); [discriminate|].
    destruct (name_order _ _) as [order|e]; [|discriminate]. cbn.
    destruct (reorderAtoms order mol) as [a s|e s] eqn:E; cbn; [|discriminate].
    intros H. inversion H; subst. split; [reflexivity|].
    exact (reorderAtoms_bondtype order _ _ _ E).
  - intros H. inversion H. split; reflexivity.
Qed.

Lemma merge_fields_bondtype mol ow :
  bondtype mol = [] \/ forallb is_empty_str (bondtype mol) = true ->
  preserves bondtype (merge_fields mol ow).
Proof.
  intros Hd. unfold merge_fields.
  rewrite (merge_field_default "bondtype" false is_empty_str String.eqb
             bondtype set_bondtype mol ow Hd).
  repeat (apply preserves_bind; [|intros ?]);
    try (apply merge_field_preserves; intros; reflexivity).
  apply preserves_ret.
Qed.

Lemma merge_finish_bondtype deduce_element mol m m' :
  merge_finish deduce_element mol m = Ok tt m' ->
  bondtype m = [] ->
  bonds m' = bonds m /\ bondtype m' = repeat "un" (length (bonds m)).
Proof.
  unfold merge_finish. intros H Hbt. destruct m. cbn in Hbt. subst.
  unfold bind at 1 in H. unfold gets at 1 in H. cbn [bonds] in H.
  unfold bind at 1 in H. unfold gets at 1 in H. cbn [bondtype length Nat.eqb] in H.
  rewrite andb_true_r in H.
  destruct bonds0 as [|b0 bs]; cbn [length Nat.eqb negb] in H.
  - unfold bind at 1 in H. unfold ret at 1 in H.
    apply bind_Ok_inv in H. destruct H as (el & s & He & H).
    unfold _guessMissingElements in He.
    apply bind_Ok_inv in He. destruct He as (s0 & s1 & Hg & He).
    inversion Hg; subst. apply lift_Ok_inv in He. destruct He as (_ & ->).
    destruct (topoloc mol); cbn in H; [discriminate H|].
    inversion H. split; reflexivity.
  - unfold bind at 1 in H. unfold modify at 1 in H. cbn in H.
    apply bind_Ok_inv in H. destruct H as (el & s & He & H).
    unfold _guessMissingElements in He.
    apply bind_Ok_inv in He. destruct He as (s0 & s1 & Hg & He).
    inversion Hg; subst. apply lift_Ok_inv in He. destruct He as (_ & ->).
    destruct (topoloc mol); cbn in H; [discriminate H|].
    inversion H. split; reflexivity.
Qed.

Lemma merge_one_bondtype deduce_element ow mol m mol' m' :
  merge_one deduce_element ow mol m = Ok mol' m' ->
  _numAtomsTopo mol <> 0 ->
  bondtype m = [] ->
  bondtype mol = [] \/ forallb is_empty_str (bondtype mol) = true ->
  bondtype m' = repeat "un" (length (bonds m')).
Proof.
  unfold merge_one. intros H Hn Hbt Hd.
  destruct (_numAtomsTopo mol =? 0) eqn:E0; [apply Nat.eqb_eq in E0; lia|].
  apply bind_Ok_inv in H. destruct H as (topo & m0 & Hg & H).
  inversion Hg; subst m0; clear Hg.
  apply bind_Ok_inv in H. destruct H as ([] & m1 & He & H).
  assert (Hbt1 : bondtype m1 = []).
  { rewrite <- Hbt. destruct (topo =? 0).
    - apply (_emptyTopo_preserves bondtype (numAtoms mol)) in He;
        try (intros; reflexivity). exact He.
    - inversion He. reflexivity. }
  apply bind_Ok_inv in H. destruct H as (mol1 & m2 & Hnm & H).
  apply merge_names_inv in Hnm. destruct Hnm as (-> & Hbm).
  apply bind_Ok_inv in H. destruct H as ([] & m3 & Hf & H).
  assert (Hbt3 : bondtype m3 = []).
  { rewrite <- Hbt1. apply (merge_fields_bondtype mol1 ow) in Hf; [exact Hf|].
    rewrite Hbm. exact Hd. }
  apply bind_Ok_inv in H. destruct H as ([] & m4 & Hfin & H).
  inversion H; subst.
  destruct (merge_finish_bondtype _ _ _ _ Hfin Hbt3) as (Hb & Ht).
  rewrite Ht, Hb. reflexivity.
Qed.

(** three atoms with the bond [0, 1] of type "1", and reader output for
    the same three atoms with two bonds and no bond type *)
Definition bonded_typed : Molecule := Eval vm_compute in
  set_bondtype ["1"] (set_bonds [[0; 1]] (state_of (empty 3 Molecule_init))).
Definition two_bonds_untyped : Molecule := Eval vm_compute in
  set_topoloc (Present (Some "bonds.psf"))
    (set_bonds [[0; 1]; [1; 2]] (state_of (empty 3 Molecule_init))).

(** the existing Molecule has one bond and its bond type, the source has
    two bonds and no bond type: the merge returns with two bond rows and the
    one old bond type, which is not 'un' *)
Lemma merge_keeps_stale_bondtype :
  exists m', _mergeTopologies (fun n _ => n) [two_bonds_untyped] (Some ["all"])
                              bonded_typed = Ok [two_bonds_untyped] m'
             /\ bonds m' = [[0; 1]; [1; 2]] /\ bondtype m' = ["1"].
Proof.
  eexists. split; [vm_compute; reflexivity|]. split; reflexivity.
Qed.

(** When the topology merge of one source that has a topology and
    supplies no bond type (its bondtype is empty or all '') into a Molecule
    whose bondtype is empty returns, the bondtype array is 'un' repeated once
    per bond row; in particular it has one entry per row. *)
Theorem merge_fills_missing_bondtype
    (deduce_element : string -> string -> string)
    (self mol : Molecule) (ow : overwrite_t) (mols' : list Molecule) (m' : Molecule) :
  _mergeTopologies deduce_element [mol] ow self = Ok mols' m' ->
  _numAtomsTopo mol <> 0 ->
  bondtype self = [] ->
  bondtype mol = [] \/ forallb is_empty_str (bondtype mol) = true ->
  bondtype m' = repeat "un" (length (bonds m'))
  /\ length (bondtype m') = length (bonds m').
Proof.
  intros H Hn Hbt Hd. cbn [_mergeTopologies] in H.
  apply bind_Ok_inv in H. destruct H as (mol1 & m1 & H1 & H).
  inversion H; subst.
  pose proof (merge_one_bondtype _ _ _ _ _ _ H1 Hn Hbt Hd) as E.
  split; [exact E|]. rewrite E. apply repeat_length.
Qed.

Lemma merge_fills_missing_bondtype_witness :
  bondtype (state_of (_mergeTopologies (fun n _ => n) [two_bonds_untyped]
                        (Some ["all"]) three_atoms))
  = ["un"; "un"].
Proof.
  destruct (merge_fills_missing_bondtype (fun n _ => n) three_atoms two_bonds_untyped
              (Some ["all"]) [two_bonds_untyped]
              (state_of (_mergeTopologies (fun n _ => n) [two_bonds_untyped]
                           (Some ["all"]) three_atoms))) as (E & _).
  - vm_compute; reflexivity.
  - vm_compute. discriminate.
  - reflexivity.
  - left. reflexivity.
  - rewrite E. vm_compute. reflexivity.
Defined.

(** ** The translation table of the connectivity remap *)

(** the entry of the table for atom [e]: -1 when it is removed, its new
    position otherwise *)
Definition remap (idx : list nat) (e : nat) : Z :=
  if memb e idx then (-1)%Z else Z.of_nat (newpos idx e).

Lemma assign_from_ones (idx : list nat) (n k : nat) :
  assign_from k idx (-1)%Z (repeat 1%Z n)
  = map (fun e => if memb e idx then (-1)%Z else 1%Z) (seq k n).
Proof.
  revert k. induction n as [|n IH]; intros k; cbn; [reflexivity|].
  rewrite IH. reflexivity.
Qed.

Lemma count_ones_marks (idx : list nat) (n k : nat) :
  count_ones (map (fun e => if memb e idx then (-1)%Z else 1%Z) (seq k n))
  = length (filter (survives idx) (seq k n)).
Proof.
  unfold count_ones. revert k. induction n as [|n IH]; intros k; cbn; [reflexivity|].
  unfold survives at 1. destruct (memb k idx); cbn; rewrite IH; reflexivity.
Qed.

Lemma fill_ones_marks (idx : list nat) : forall n k c,
  fill_ones (map (fun e => if memb e idx then (-1)%Z else 1%Z) (seq k n))
            (map Z.of_nat (seq c (length (filter (survives idx) (seq k n)))))
  = map (fun e => if memb e idx then (-1)%Z
                  else Z.of_nat (c + length (filter (survives idx) (seq k (e - k)))))
        (seq k n).
Proof.
  induction n as [|n IH]; intros k c; [reflexivity|].
  cbn [seq map filter]. unfold survives at 1 3.
  destruct (memb k idx) eqn:E; cbn [negb fill_ones].
  - change ((-1 =? 1)%Z) with false. cbv iota.
    f_equal. rewrite IH. apply map_ext_in. intros e He. apply in_seq in He.
    destruct (memb e idx); [reflexivity|]. f_equal. f_equal.
    replace (e - k) with (S (e - S k)) by lia. cbn [seq filter].
    unfold survives at 2. rewrite E. reflexivity.
  - change ((1 =? 1)%Z) with true. cbn [length seq map]. cbv iota. f_equal.
    + rewrite Nat.sub_diag. cbn. f_equal. lia.
    + rewrite IH. apply map_ext_in. intros e He. apply in_seq in He.
      destruct (memb e idx); [reflexivity|]. f_equal.
      replace (e - k) with (S (e - S k)) by lia. cbn [seq filter].
      unfold survives at 2. rewrite E. cbn [negb length]. lia.
Qed.

Lemma fill_ones_nil (mp : list Z) : fill_ones mp [] = mp.
Proof. induction mp as [|x r IH]; cbn; [reflexivity|]. rewrite IH. destruct (x =? 1)%Z; reflexivity. Qed.

Lemma fill_ones_single (mp : list Z) (v : Z) :
  count_ones mp = 1 ->
  map (fun x => if (x =? 1)%Z then v else x) mp = fill_ones mp [v].
Proof.
  unfold count_ones. induction mp as [|x r IH]; cbn; [reflexivity|].
  destruct (x =? 1)%Z eqn:E; cbn; intros H.
  - f_equal. rewrite fill_ones_nil.
    assert (H0 : length (filter (fun x => (x =? 1)%Z) r) = 0) by lia.
    clear - H0. induction r as [|y s IH]; cbn in *; [reflexivity|].
    destruct (y =? 1)%Z; [discriminate|]. f_equal. apply IH. exact H0.
  - f_equal. apply IH. exact H.
Qed.

Lemma mask_assign_fill (mp vals : list Z) :
  length vals = count_ones mp -> mask_assign mp vals = Val (fill_ones mp vals).
Proof.
  intros H. unfold mask_assign.
  destruct vals as [|v [|w vs]].
  - rewrite <- H. reflexivity.
  - f_equal. apply fill_ones_single. cbn in H. lia.
  - rewrite H, Nat.eqb_refl. reflexivity.
Qed.

Lemma arange_from_0 (a b : nat) :
  arange 0 (Z.of_nat a - Z.of_nat b) = map Z.of_nat (seq 0 (a - b)).
Proof.
  unfold arange. replace (Z.to_nat (Z.of_nat a - Z.of_nat b - 0)) with (a - b) by lia.
  apply map_ext. intros k. lia.
Qed.

(** the table the code builds is [remap] on the atoms before deletion *)
Lemma remap_table (idx : list nat) (n : nat) :
  NoDup idx -> Forall (fun i => i < n) idx ->
  exists mp, assign_at (repeat 1%Z n) idx (-1)%Z = Val mp
             /\ mask_assign mp (arange 0 (Z.of_nat n - Z.of_nat (length idx)))
                = Val (map (remap idx) (seq 0 n)).
Proof.
  intros Hnd Hin. eexists. split.
  - unfold assign_at. rewrite repeat_length.
    replace (forallb (fun i => i <? n) idx) with true; [reflexivity|].
    symmetry. apply forallb_forall. intros x Hx. rewrite Forall_forall in Hin.
    apply Nat.ltb_lt. exact (Hin x Hx).
  - rewrite assign_from_ones, arange_from_0.
    rewrite <- (survivors_count idx n Hnd Hin).
    rewrite mask_assign_fill.
    + rewrite fill_ones_marks. f_equal. apply map_ext. intros e.
      unfold remap, newpos. rewrite Nat.sub_0_r. reflexivity.
    + rewrite length_map, length_seq, count_ones_marks. reflexivity.
Qed.

(** ** The connectivity remap *)

(** a row is untouched when none of its atoms is removed *)
Definition untouched (idx : list nat) (row : list nat) : bool :=
  forallb (survives idx) row.

(** the surviving rows, each endpoint renumbered to its new position *)
Definition remap_rows (idx : list nat) (rows : list (list nat)) : list (list nat) :=
  map (map (newpos idx)) (filter (untouched idx) rows).

(** the bond types of the surviving bond rows *)
Definition keep_types (idx : list nat) (rows : list (list nat)) (bt : list string)
  : list string :=
  compress (map (untouched idx) rows) bt.

Lemma take_rows_map {A} (f : nat -> A) (n : nat) (row : list nat) :
  Forall (fun e => e < n) row ->
  take_rows (map f (seq 0 n)) row = Val (map f row).
Proof.
  induction row as [|e r IH]; intros H; [reflexivity|].
  inversion H as [|? ? He Hr]; subst. cbn.
  rewrite nth_error_map, nth_error_seq.
  apply Nat.ltb_lt in He. rewrite He. cbn. rewrite (IH Hr). reflexivity.
Qed.

Lemma take_rows2_map {A} (f : nat -> A) (n : nat) (rows : list (list nat)) :
  rows_below n rows ->
  take_rows2 (map f (seq 0 n)) rows = Val (map (map f) rows).
Proof.
  unfold rows_below. induction rows as [|r rs IH]; intros H; [reflexivity|].
  inversion H as [|? ? Hr Hrs]; subst. cbn.
  rewrite (take_rows_map f n r Hr), (IH Hrs). reflexivity.
Qed.

Lemma remap_removed (idx : list nat) (e : nat) :
  (remap idx e =? -1)%Z = memb e idx.
Proof.
  unfold remap. destruct (memb e idx); [reflexivity|].
  apply Z.eqb_neq. lia.
Qed.

Lemma stays_remap (idx : list nat) (rows : list (list nat)) :
  stays_of (map (map (remap idx)) rows) = map (untouched idx) rows.
Proof.
  unfold stays_of. rewrite map_map. apply map_ext. intros row.
  unfold untouched. induction row as [|e r IH]; [reflexivity|].
  cbn [map existsb forallb]. rewrite Z.eqb_sym, remap_removed. unfold survives at 1.
  rewrite negb_orb. rewrite IH. reflexivity.
Qed.

Lemma compress_map_filter {A B} (p : A -> bool) (f : A -> B) (l : list A) :
  compress (map p l) (map f l) = map f (filter p l).
Proof.
  induction l as [|x r IH]; [reflexivity|]. cbn.
  destruct (p x); cbn; rewrite IH; reflexivity.
Qed.

Lemma compress_nil {A} (mask : list bool) : compress mask (@nil A) = [].
Proof. destruct mask as [|[] r]; reflexivity. Qed.

Lemma remap_survivor_row (idx : list nat) (row : list nat) :
  untouched idx row = true ->
  map Z.to_nat (map (remap idx) row) = map (newpos idx) row.
Proof.
  unfold untouched. rewrite forallb_forall. intros H.
  rewrite map_map. apply map_ext_in. intros e He.
  specialize (H e He). unfold survives in H. unfold remap.
  destruct (memb e idx); [discriminate|]. apply Nat2Z.id.
Qed.

Lemma remapped_rows (idx : list nat) (rows : list (list nat)) :
  map (map Z.to_nat)
      (compress (stays_of (map (map (remap idx)) rows)) (map (map (remap idx)) rows))
  = remap_rows idx rows.
Proof.
  rewrite stays_remap, compress_map_filter, map_map. unfold remap_rows.
  apply map_ext_in. intros row Hrow. apply filter_In in Hrow.
  apply remap_survivor_row. apply Hrow.
Qed.

(** what one turn of the loop does, given the table *)
Lemma update_field_run (get : Molecule -> list (list nat)) set_ (is_bonds : bool)
    (idx : list nat) (n : nat) (m : Molecule) :
  rows_below n (get m) ->
  update_field get set_ is_bonds (map (remap idx) (seq 0 n)) m
  = if length (get m) =? 0 then Ok tt m
    else
      let m1 := set_ (remap_rows idx (get m)) m in
      if is_bonds then
        if 0 <? length (bondtype m1) then
          match bool_index (bondtype m1) (map (untouched idx) (get m)) with
          | Val bt' => Ok tt (set_bondtype bt' m1)
          | Exn e => Raise e m1
          end
        else Ok tt m1
      else Ok tt m1.
Proof.
  intros H. unfold update_field, bind, gets.
  destruct (length (get m) =? 0); [reflexivity|].
  rewrite (take_rows2_map (remap idx) n (get m) H). cbn [lift ret].
  unfold modify. rewrite remapped_rows, stays_remap. cbv zeta.
  destruct is_bonds; [|reflexivity].
  destruct (0 <? length (bondtype (set_ (remap_rows idx (get m)) m))); [|reflexivity].
  destruct (bool_index _ _); reflexivity.
Qed.

Lemma length_0_nil {A} (l : list A) : (length l =? 0) = true -> l = [].
Proof. destruct l; [reflexivity|discriminate]. Qed.

Lemma newpos_none (e : nat) : newpos [] e = e.
Proof.
  unfold newpos. rewrite (forallb_filter_id (survives [])).
  - apply length_seq.
  - apply forallb_forall. intros; reflexivity.
Qed.

Lemma remap_rows_none (rows : list (list nat)) : remap_rows [] rows = rows.
Proof.
  unfold remap_rows. rewrite forallb_filter_id.
  - rewrite <- (map_id rows) at 2. apply map_ext. intros row.
    rewrite <- (map_id row) at 2. apply map_ext. exact newpos_none.
  - apply forallb_forall. intros row _. unfold untouched.
    apply forallb_forall. intros; reflexivity.
Qed.

Lemma compress_all {A} (mask : list bool) (l : list A) :
  forallb (fun b => b) mask = true -> length l <= length mask -> compress mask l = l.
Proof.
  revert l. induction mask as [|b r IH]; intros [|x s]; cbn; intros H HL;
    try reflexivity; try lia.
  apply andb_true_iff in H. destruct H as (-> & H). f_equal. apply IH; [exact H|lia].
Qed.

Lemma keep_types_none (rows : list (list nat)) (bt : list string) :
  bt = [] \/ length bt = length rows -> keep_types [] rows bt = bt.
Proof.
  intros H. unfold keep_types. apply compress_all.
  - apply forallb_forall. intros b Hb. apply in_map_iff in Hb.
    destruct Hb as (row & <- & _). unfold untouched.
    apply forallb_forall. intros; reflexivity.
  - rewrite length_map. destruct H as [-> | ->]; cbn; lia.
Qed.

(** one turn of the loop, by what it leaves behind *)
Lemma update_step (get : Molecule -> list (list nat)) set_ (is_bonds : bool)
    (idx : list nat) (n : nat) (m : Molecule) :
  (forall v s, get (set_ v s) = v) ->
  (forall v s, get (set_bondtype v s) = get s) ->
  (forall v s, bondtype (set_ v s) = bondtype s) ->
  rows_below n (get m) ->
  (is_bonds = true -> bondtype m = [] \/ length (bondtype m) = length (get m)) ->
  exists m1,
    update_field get set_ is_bonds (map (remap idx) (seq 0 n)) m = Ok tt m1
    /\ get m1 = remap_rows idx (get m)
    /\ (is_bonds = true -> bondtype m1 = keep_types idx (get m) (bondtype m))
    /\ (forall B (p : Molecule -> B),
           (forall v s, p (set_ v s) = p s) ->
           (is_bonds = true -> forall v s, p (set_bondtype v s) = p s) ->
           p m1 = p m).
Proof.
  intros Hgs Hgb Hbs Hrows Hbt.
  rewrite (update_field_run get set_ is_bonds idx n m Hrows).
  destruct (length (get m) =? 0) eqn:E.
  - exists m. apply length_0_nil in E. split; [reflexivity|].
    split; [rewrite E; reflexivity|]. split; [|reflexivity].
    intros Hb. rewrite E in *. destruct (Hbt Hb) as [-> | HL]; [reflexivity|].
    cbn in HL. destruct (bondtype m); [reflexivity|discriminate].
  - cbv zeta. destruct is_bonds.
    + rewrite Hbs. destruct (bondtype m) as [|t ts] eqn:Ebt.
      * cbn [length Nat.ltb Nat.leb]. eexists. split; [reflexivity|].
        split; [apply Hgs|]. split.
        -- intros _. rewrite Hbs, Ebt. unfold keep_types. symmetry. apply compress_nil.
        -- intros B p Hp _. apply Hp.
      * destruct (Hbt eq_refl) as [Hx | HL]; [discriminate|].
        unfold bool_index. rewrite length_map, <- HL, Nat.eqb_refl.
        cbn [length Nat.ltb Nat.leb]. eexists. split; [reflexivity|].
        split; [rewrite Hgb; apply Hgs|]. split.
        -- intros _. reflexivity.
        -- intros B p Hp Hpb. rewrite (Hpb eq_refl). apply Hp.
    + eexists. split; [reflexivity|]. split; [apply Hgs|]. split; [discriminate|].
      intros B p Hp _. apply Hp.
Qed.

(** the remap of the four edge lists, for a set of indices in range *)
Lemma _update_ok (idx : list nat) (m : Molecule) :
  NoDup idx -> Forall (fun i => i < numAtoms m) idx ->
  endpoints_valid m ->
  bondtype m = [] \/ length (bondtype m) = length (bonds m) ->
  exists m1,
    _updateBondsAnglesDihedrals idx m = Ok tt m1
    /\ bonds m1 = remap_rows idx (bonds m)
    /\ bondtype m1 = keep_types idx (bonds m) (bondtype m)
    /\ angles m1 = remap_rows idx (angles m)
    /\ dihedrals m1 = remap_rows idx (dihedrals m)
    /\ impropers m1 = remap_rows idx (impropers m).
Proof.
  intros Hnd Hin (Hb & Ha & Hd & Hi) Hbt.
  unfold _updateBondsAnglesDihedrals.
  destruct idx as [|i0 idx'].
  - exists m. cbn. rewrite !remap_rows_none, (keep_types_none _ _ Hbt). repeat split.
  - change (length (i0 :: idx') =? 0) with false. cbv iota.
    unfold bind at 1. unfold gets at 1.
    destruct (_ && _) eqn:E.
    + exists m. split; [reflexivity|].
      repeat (apply andb_true_iff in E; destruct E as (E & ?)).
      apply length_0_nil in E.
      repeat match goal with H : (length _ =? 0) = true |- _ => apply length_0_nil in H end.
      rewrite E in *. 
      assert (bondtype m = []) as ->.
      { destruct Hbt as [Hx | Hx]; [exact Hx|]. destruct (bondtype m); [reflexivity|discriminate]. }
      repeat match goal with H : _ m = [] |- _ => rewrite H end.
      repeat split.
    + clear E.
      destruct (remap_table (i0 :: idx') (numAtoms m) Hnd Hin) as (mp & H1 & H2).
      rewrite H1. cbn [lift]. unfold bind at 1. unfold ret at 1. cbv beta.
      rewrite H2. cbn [lift]. unfold bind at 1. unfold ret at 1. cbv beta.
      set (idx := i0 :: idx') in *. set (n := numAtoms m) in *.
      destruct (update_step bonds set_bonds true idx n m) as (m1 & R1 & B1 & T1 & F1);
        try (intros; reflexivity); [exact Hb | intros _; exact Hbt |].
      destruct (update_step angles set_angles false idx n m1) as (m2 & R2 & B2 & _ & F2);
        try (intros; reflexivity);
        [rewrite (F1 _ angles) by (intros; reflexivity); exact Ha | discriminate |].
      destruct (update_step dihedrals set_dihedrals false idx n m2)
        as (m3 & R3 & B3 & _ & F3);
        try (intros; reflexivity);
        [rewrite (F2 _ dihedrals), (F1 _ dihedrals) by (intros; reflexivity); exact Hd
        | discriminate |].
      destruct (update_step impropers set_impropers false idx n m3)
        as (m4 & R4 & B4 & _ & F4);
        try (intros; reflexivity);
        [rewrite (F3 _ impropers), (F2 _ impropers), (F1 _ impropers)
           by (intros; reflexivity); exact Hi
        | discriminate |].
      exists m4.
      split.
      { rewrite (bind_Ok _ _ _ _ _ R1), (bind_Ok _ _ _ _ _ R2), (bind_Ok _ _ _ _ _ R3).
        exact R4. }
      rewrite (F4 _ bonds), (F3 _ bonds), (F2 _ bonds) by (intros; reflexivity).
      rewrite (F4 _ bondtype), (F3 _ bondtype), (F2 _ bondtype)
        by first [intros; reflexivity | discriminate].
      rewrite (F4 _ angles), (F3 _ angles) by (intros; reflexivity).
      rewrite (F4 _ dihedrals) by (intros; reflexivity).
      rewrite B1, (T1 eq_refl), B2, B3, B4.
      rewrite (F1 _ angles), (F2 _ dihedrals), (F1 _ dihedrals),
        (F3 _ impropers), (F2 _ impropers), (F1 _ impropers) by (intros; reflexivity).
      repeat split.
Qed.

Lemma delete_ok {A} (n : nat) (idx : list nat) (l : list A) :
  Forall (fun i => i < n) idx -> length l = n ->
  Np.delete l idx = Val (drop_at 0 idx l).
Proof.
  intros H HL. unfold Np.delete.
  replace (forallb (fun i => i <? length l) idx) with true; [reflexivity|].
  symmetry. apply forallb_forall. intros x Hx. rewrite Forall_forall in H.
  apply Nat.ltb_lt. rewrite HL. exact (H x Hx).
Qed.

Lemma delete_field_run {A} (get : Molecule -> list A) set_ (idx : list nat)
    (n : nat) (m : Molecule) :
  Forall (fun i => i < n) idx -> length (get m) = n ->
  delete_field get set_ idx m = Ok tt (set_ (drop_at 0 idx (get m)) m).
Proof.
  intros H HL. unfold delete_field, bind, gets.
  rewrite (delete_ok n idx (get m) H HL). reflexivity.
Qed.

Lemma delete_coords_run (idx : list nat) (n : nat) (m : Molecule) :
  Forall (fun i => i < n) idx -> length (cdata (coords m)) = n ->
  delete_coords idx m
  = Ok tt (set_coords (mkArray3 (drop_at 0 idx (cdata (coords m)))
                                (cframes (coords m))) m).
Proof.
  intros H HL. unfold delete_coords, bind, gets.
  rewrite (delete_ok n idx _ H HL). reflexivity.
Qed.

Lemma delete_rows_ok (idx : list nat) (m1 : Molecule) :
  atom_fields_aligned m1 -> length (cdata (coords m1)) = numAtoms m1 ->
  Forall (fun i => i < numAtoms m1) idx ->
  exists m', delete_rows idx m1 = Ok tt m'.
Proof.
  unfold atom_fields_aligned. cbv zeta.
  generalize (numAtoms m1) as n. intros n H Hc Hin.
  destruct m1.
  cbn [record serial name altloc resname chain resid insertion occupancy
       beta segid element charge masses atomtype coords] in *.
  destruct H as (? & ? & ? & ? & ? & ? & ? & ? & ? & ? & ? & ? & ? & ? & ?).
  unfold delete_rows.
  repeat (erewrite bind_Ok;
          [| apply (delete_field_run _ _ idx n); [exact Hin | assumption] ];
          cbn [record serial name altloc resname chain resid insertion occupancy
               beta segid element charge masses atomtype coords
               set_record set_serial set_name set_altloc set_resname set_chain
               set_resid set_insertion set_occupancy set_beta set_segid set_element
               set_charge set_masses set_atomtype]).
  rewrite (delete_coords_run idx n); [|exact Hin|exact Hc].
  eexists. reflexivity.
Qed.

Lemma drop_at_length_count {A} (idx : list nat) (l : list A) (n : nat) :
  NoDup idx -> Forall (fun i => i < n) idx -> length l = n ->
  length (drop_at 0 idx l) = n - length idx.
Proof.
  intros Hnd Hin HL. rewrite drop_at_length, HL. apply survivors_count; assumption.
Qed.

Lemma remap_rows_below (idx : list nat) (n : nat) (rows : list (list nat)) :
  NoDup idx -> Forall (fun i => i < n) idx -> rows_below n rows ->
  rows_below (n - length idx) (remap_rows idx rows).
Proof.
  intros Hnd Hin Hrows. unfold rows_below, remap_rows in *.
  apply Forall_forall. intros r Hr. apply in_map_iff in Hr.
  destruct Hr as (row & <- & Hrow). apply filter_In in Hrow.
  destruct Hrow as (Hrow & Hun).
  rewrite Forall_forall in Hrows. specialize (Hrows row Hrow).
  apply Forall_forall. intros e He. apply in_map_iff in He.
  destruct He as (e0 & <- & He0).
  rewrite <- (survivors_count idx n Hnd Hin).
  apply newpos_bound.
  - rewrite Forall_forall in Hrows. exact (Hrows e0 He0).
  - unfold untouched in Hun. rewrite forallb_forall in Hun. exact (Hun e0 He0).
Qed.

(** [remove] of a set of atoms in range returns, and this is its result *)
Lemma remove_ok (m : Molecule) (idx : list nat) :
  atom_fields_aligned m -> endpoints_valid m ->
  length (cdata (coords m)) = numAtoms m ->
  bondtype m = [] \/ length (bondtype m) = length (bonds m) ->
  NoDup idx -> Forall (fun i => i < numAtoms m) idx ->
  exists m1 m',
    _updateBondsAnglesDihedrals idx m = Ok tt m1
    /\ delete_rows idx m1 = Ok tt m'
    /\ remove (SelIdx idx) m = Ok idx m'
    /\ bonds m' = remap_rows idx (bonds m)
    /\ bondtype m' = keep_types idx (bonds m) (bondtype m)
    /\ angles m' = remap_rows idx (angles m)
    /\ dihedrals m' = remap_rows idx (dihedrals m)
    /\ impropers m' = remap_rows idx (impropers m)
    /\ atoms_deleted idx m m'.
Proof.
  intros Hal Hev Hc Hbt Hnd Hin.
  destruct (_update_ok idx m Hnd Hin Hev Hbt) as (m1 & Hup & B & T & A & D & I).
  assert (P : forall B (p : Molecule -> B),
             (forall v s, p (set_bonds v s) = p s) ->
             (forall v s, p (set_bondtype v s) = p s) ->
             (forall v s, p (set_angles v s) = p s) ->
             (forall v s, p (set_dihedrals v s) = p s) ->
             (forall v s, p (set_impropers v s) = p s) -> p m1 = p m).
  { intros B0 p H1 H2 H3 H4 H5.
    exact (_update_preserves p idx H1 H2 H3 H4 H5 _ _ _ Hup). }
  assert (Hn : numAtoms m1 = numAtoms m) by (apply (P _ numAtoms); intros; reflexivity).
  assert (Hal1 : atom_fields_aligned m1).
  { unfold atom_fields_aligned in *. cbv zeta in *. rewrite Hn.
    rewrite (P _ record), (P _ serial), (P _ name), (P _ altloc), (P _ resname),
      (P _ chain), (P _ resid), (P _ insertion), (P _ occupancy), (P _ beta),
      (P _ segid), (P _ element), (P _ charge), (P _ masses), (P _ atomtype)
      by (intros; reflexivity).
    exact Hal. }
  destruct (delete_rows_ok idx m1 Hal1) as (m' & Hdel).
  { rewrite Hn, (P _ coords) by (intros; reflexivity). exact Hc. }
  { rewrite Hn. exact Hin. }
  exists m1, m'. split; [exact Hup|]. split; [exact Hdel|].
  destruct (delete_rows_inv idx m1 m' Hdel) as ((Eb & Et & Ea & Ed & Ei) & Hat).
  split.
  { unfold remove.
    assert (Hs : atomselect_idx (SelIdx idx) m = Ok idx m) by reflexivity.
    rewrite (bind_Ok _ _ _ _ _ Hs), (bind_Ok _ _ _ _ _ Hup), (bind_Ok _ _ _ _ _ Hdel).
    reflexivity. }
  rewrite Eb, Et, Ea, Ed, Ei, B, T, A, D, I.
  repeat (split; [reflexivity|]).
  unfold atoms_deleted in *.
  rewrite (P _ record), (P _ serial), (P _ name), (P _ altloc), (P _ resname),
    (P _ chain), (P _ resid), (P _ insertion), (P _ occupancy), (P _ beta),
    (P _ segid), (P _ element), (P _ charge), (P _ masses), (P _ atomtype),
    (P _ coords) in Hat by (intros; reflexivity).
  exact Hat.
Qed.

Lemma numAtoms_after_delete (m m' : Molecule) (idx : list nat) :
  atom_fields_aligned m -> length (cdata (coords m)) = numAtoms m ->
  NoDup idx -> Forall (fun i => i < numAtoms m) idx ->
  atoms_deleted idx m m' ->
  numAtoms m' = numAtoms m - length idx.
Proof.
  intros Hal Hc Hnd Hin Hat.
  assert (Hr : length (record m') = numAtoms m - length idx).
  { destruct Hat as (-> & _). apply drop_at_length_count; try assumption. apply Hal. }
  assert (Hcd : length (cdata (coords m')) = numAtoms m - length idx).
  { destruct Hat as (_ & _ & _ & _ & _ & _ & _ & _ & _ & _ & _ & _ & _ & _ & _ & -> & _).
    apply drop_at_length_count; assumption. }
  unfold numAtoms at 1. unfold _numAtomsTopo, _numAtomsTraj. rewrite Hr, Hcd.
  destruct (numAtoms m - length idx =? 0) eqn:E; [|reflexivity].
  reflexivity.
Qed.

(** the molecule of the test of reorderAtoms: eight named atoms with bonds,
    bond types, angles, dihedrals and impropers *)
Definition scenario_A : Molecule := Eval vm_compute in
  set_impropers [[0; 3; 1; 2]; [1; 4; 2; 7]; [7; 2; 1; 0]]
    (set_dihedrals [[0; 3; 1; 2]; [1; 4; 2; 7]; [7; 2; 1; 0]]
       (set_angles [[0; 3; 2]; [1; 4; 6]; [7; 2; 5]]
          (set_bondtype ["un"; "1"; "2"]
             (set_bonds [[0; 3]; [1; 4]; [7; 2]]
                (set_name ["C1"; "C3"; "H"; "O"; "S"; "N"; "H3"; "H1"]
                   (state_of (empty 8 Molecule_init))))))).

Lemma invariant_scenario_A : invariant scenario_A.
Proof. invariant_tac; lia. Qed.

(** C5: for a Molecule that satisfies the invariants, with a row of
    coordinates per atom and a bond type per bond (or none), and a set [idx]
    of its atoms, [remove] first computes the remap on the arrays as they are
    before the deletion, then deletes the rows.  In the result, the bonds,
    angles, dihedrals and impropers are the rows that touch no removed atom,
    each endpoint renumbered to the new position of its atom; the bond types
    are those of the surviving bond rows; the rows of the removed atoms are
    deleted from every per-atom field and from the coordinates.  The new
    position of a surviving atom is the row it has after the deletion, it is
    below the new atom count, and it grows with the old position. *)
Theorem remove_remaps_connectivity (m : Molecule) (idx : list nat) :
  atom_fields_aligned m -> endpoints_valid m ->
  length (cdata (coords m)) = numAtoms m ->
  bondtype m = [] \/ length (bondtype m) = length (bonds m) ->
  NoDup idx -> Forall (fun i => i < numAtoms m) idx ->
  exists m1 m',
    _updateBondsAnglesDihedrals idx m = Ok tt m1
    /\ (record m1 = record m /\ name m1 = name m /\ coords m1 = coords m)
    /\ delete_rows idx m1 = Ok tt m'
    /\ remove (SelIdx idx) m = Ok idx m'
    /\ bonds m' = remap_rows idx (bonds m)
    /\ bondtype m' = keep_types idx (bonds m) (bondtype m)
    /\ angles m' = remap_rows idx (angles m)
    /\ dihedrals m' = remap_rows idx (dihedrals m)
    /\ impropers m' = remap_rows idx (impropers m)
    /\ atoms_deleted idx m m'
    /\ numAtoms m' = numAtoms m - length idx
    /\ endpoints_valid m'
    /\ (forall i, i < numAtoms m -> survives idx i = true ->
          newpos idx i < numAtoms m'
          /\ nth_error (name m') (newpos idx i) = nth_error (name m) i
          /\ nth_error (cdata (coords m')) (newpos idx i)
             = nth_error (cdata (coords m)) i)
    /\ (forall i j, i < j -> survives idx i = true -> newpos idx i < newpos idx j).
Proof.
  intros Hal Hev Hc Hbt Hnd Hin.
  destruct (remove_ok m idx Hal Hev Hc Hbt Hnd Hin)
    as (m1 & m' & Hup & Hdel & Hrem & B & T & A & D & I & Hat).
  pose proof (numAtoms_after_delete m m' idx Hal Hc Hnd Hin Hat) as Hn.
  exists m1, m'. split; [exact Hup|]. split.
  { split; [|split].
    - apply (_update_preserves record idx) with (a := tt) (m := m) (m' := m1);
        try (intros; reflexivity). exact Hup.
    - apply (_update_preserves name idx) with (a := tt) (m := m) (m' := m1);
        try (intros; reflexivity). exact Hup.
    - apply (_update_preserves coords idx) with (a := tt) (m := m) (m' := m1);
        try (intros; reflexivity). exact Hup. }
  split; [exact Hdel|]. split; [exact Hrem|].
  split; [exact B|]. split; [exact T|]. split; [exact A|].
  split; [exact D|]. split; [exact I|].
  split; [exact Hat|]. split; [exact Hn|]. split; [|split].
  - destruct Hev as (Hb & Ha & Hd & Hi).
    unfold endpoints_valid. rewrite Hn, B, A, D, I.
    repeat split; apply remap_rows_below; assumption.
  - intros i Hi Hs. split; [|split].
    + rewrite Hn, <- (survivors_count idx (numAtoms m) Hnd Hin).
      apply newpos_bound; assumption.
    + destruct Hat as (_ & _ & -> & _). apply drop_at_newpos. exact Hs.
    + destruct Hat as (_ & _ & _ & _ & _ & _ & _ & _ & _ & _ & _ & _ & _ & _ & _ & -> & _).
      apply drop_at_newpos. exact Hs.
  - intros i j. apply newpos_lt.
Qed.

(** [remove_remaps_connectivity] on the molecule of the test, atoms 2 and
    5 removed: the bond [7, 2] and its type "2" go, [0, 3] and [1, 4] become
    [0, 2] and [1, 3] *)
Lemma remove_remaps_connectivity_witness :
  let m' := state_of (remove (SelIdx [2; 5]) scenario_A) in
  bonds m' = [[0; 2]; [1; 3]] /\ bondtype m' = ["un"; "1"]
  /\ angles m' = [[1; 3; 4]] /\ dihedrals m' = [] /\ numAtoms m' = 6
  /\ name m' = ["C1"; "C3"; "O"; "S"; "H3"; "H1"].
Proof.
  destruct (remove_remaps_connectivity scenario_A [2; 5])
    as (m1 & m' & _ & _ & _ & Hrem & B & T & A & D & _ & Hat & Hn & _).
  - unfold atom_fields_aligned; cbn; repeat split.
  - apply invariant_scenario_A.
  - reflexivity.
  - right. reflexivity.
  - repeat constructor; cbn; intuition discriminate.
  - repeat constructor.
  - cbv zeta. rewrite Hrem. cbn [state_of]. rewrite B, T, A, D, Hn.
    destruct Hat as (_ & _ & -> & _).
    vm_compute. repeat split.
Defined.

(** ** Indexing by an order *)

Lemma take_rows_pick {A} (l : list A) (order : list nat) :
  Forall (fun i => i < length l) order -> take_rows l order = Val (pick order l).
Proof.
  induction order as [|i r IH]; intros H; [reflexivity|].
  inversion H as [|? ? Hi Hr]; subst. cbn.
  destruct (nth_error l i) as [x|] eqn:E.
  - rewrite (IH Hr). reflexivity.
  - apply nth_error_None in E. lia.
Qed.

Lemma take_pick {A} (l : list A) (order : list nat) :
  order <> [] -> Forall (fun i => i < length l) order ->
  take l order = Val (pick order l).
Proof.
  intros Hne H. unfold take. destruct order; [congruence|].
  apply take_rows_pick. exact H.
Qed.

Lemma pick_length {A} (l : list A) (order : list nat) :
  Forall (fun i => i < length l) order -> length (pick order l) = length order.
Proof.
  induction order as [|i r IH]; intros H; [reflexivity|].
  inversion H as [|? ? Hi Hr]; subst. unfold pick in *. cbn.
  destruct (nth_error l i) eqn:E.
  - cbn. rewrite (IH Hr). reflexivity.
  - apply nth_error_None in E. lia.
Qed.

Lemma pick_nth_error {A} (l : list A) (order : list nat) :
  Forall (fun i => i < length l) order ->
  forall k, k < length order ->
            nth_error (pick order l) k = nth_error l (nth k order 0).
Proof.
  induction order as [|i r IH]; intros H k Hk; [cbn in Hk; lia|].
  inversion H as [|? ? Hi Hr]; subst. unfold pick in *. cbn [flat_map].
  destruct (nth_error l i) as [x|] eqn:E.
  - destruct k as [|k]; cbn.
    + symmetry. exact E.
    + apply (IH Hr). cbn in Hk. lia.
  - apply nth_error_None in E. lia.
Qed.

(** [new[i] = old[order[i]]] for every position *)
Definition reordered {A} (order : list nat) (old new : list A) : Prop :=
  length new = length old
  /\ forall i, i < length old -> nth_error new i = nth_error old (nth i order 0).

(** a per-atom field after [reorderAtoms]: left alone when empty *)
Definition reorder_list {A} (order : list nat) (l : list A) : list A :=
  if length l =? 0 then l else pick order l.

Lemma reordered_reorder_list {A} (order : list nat) (l : list A) (n : nat) :
  Permutation order (seq 0 n) -> length l = n \/ length l = 0 ->
  reordered order l (reorder_list order l).
Proof.
  intros Hp HL. unfold reorder_list, reordered.
  destruct (length l =? 0) eqn:E.
  - apply Nat.eqb_eq in E. split; [reflexivity|]. intros i Hi. lia.
  - apply Nat.eqb_neq in E. destruct HL as [HL | HL]; [|congruence].
    assert (Hf : Forall (fun i => i < length l) order).
    { apply Forall_forall. intros x Hx.
      apply (Permutation_in _ Hp) in Hx. apply in_seq in Hx. lia. }
    assert (Hlen : length order = n).
    { rewrite (Permutation_length Hp). apply length_seq. }
    split.
    + rewrite (pick_length l order Hf). congruence.
    + intros i Hi. apply pick_nth_error; [exact Hf|lia].
Qed.

(** ** The inverse order *)

(** the first position of [i] in [order] *)
Definition pos (order : list nat) (i : nat) : nat :=
  match first_index i order with Val k => k | Exn _ => 0 end.

Lemma first_index_In (i : nat) (order : list nat) :
  In i order ->
  exists k, first_index i order = Val k /\ k < length order /\ nth k order 0 = i.
Proof.
  induction order as [|x r IH]; intros H; [contradiction|].
  cbn. destruct (x =? i) eqn:E.
  - apply Nat.eqb_eq in E. exists 0. cbn. repeat split; [lia|exact E].
  - destruct H as [H | H]; [apply Nat.eqb_neq in E; congruence|].
    destruct (IH H) as (k & -> & Hk & Hn). exists (S k). cbn. repeat split; [lia|exact Hn].
Qed.

Lemma first_index_nth (order : list nat) :
  NoDup order -> forall i, i < length order ->
  first_index (nth i order 0) order = Val i.
Proof.
  induction order as [|x r IH]; intros Hnd i Hi; [cbn in Hi; lia|].
  inversion Hnd as [|? ? Hx Hr]; subst.
  destruct i as [|i]; cbn.
  - rewrite Nat.eqb_refl. reflexivity.
  - destruct (x =? nth i r 0) eqn:E.
    + apply Nat.eqb_eq in E. exfalso. apply Hx. rewrite E. apply nth_In. cbn in Hi. lia.
    + rewrite (IH Hr i); [reflexivity|cbn in Hi; lia].
Qed.

Lemma inverse_of_pos (order js : list nat) :
  Forall (fun j => In j order) js ->
  inverse_of order js = Val (map (pos order) js).
Proof.
  induction js as [|j r IH]; intros H; [reflexivity|].
  inversion H as [|? ? Hj Hr]; subst. cbn.
  unfold pos at 1. destruct (first_index_In j order Hj) as (k & -> & _).
  rewrite (IH Hr). reflexivity.
Qed.

Lemma inverseorder_pos (order : list nat) (n : nat) :
  Permutation order (seq 0 n) ->
  inverseorder order = Val (map (pos order) (seq 0 n)).
Proof.
  intros Hp. unfold inverseorder.
  rewrite (Permutation_length Hp), length_seq.
  apply inverse_of_pos. apply Forall_forall. intros x Hx.
  apply (Permutation_in _ (Permutation_sym Hp)). exact Hx.
Qed.

Lemma pos_inverse (order : list nat) (n : nat) :
  Permutation order (seq 0 n) ->
  (forall e, e < n -> pos order e < n /\ nth (pos order e) order 0 = e)
  /\ (forall i, i < n -> pos order (nth i order 0) = i).
Proof.
  intros Hp.
  assert (Hlen : length order = n).
  { rewrite (Permutation_length Hp). apply length_seq. }
  split.
  - intros e He. unfold pos.
    destruct (first_index_In e order) as (k & -> & Hk & Hn).
    + apply (Permutation_in _ (Permutation_sym Hp)). apply in_seq. lia.
    + split; [lia|exact Hn].
  - intros i Hi. unfold pos. rewrite first_index_nth; [reflexivity| |lia].
    apply (Permutation_NoDup (Permutation_sym Hp)). apply seq_NoDup.
Qed.

Lemma take_rows_nth {A} (d : A) (tbl : list A) (row : list nat) :
  Forall (fun e => e < length tbl) row ->
  take_rows tbl row = Val (map (fun e => nth e tbl d) row).
Proof.
  induction row as [|e r IH]; intros H; [reflexivity|].
  inversion H as [|? ? He Hr]; subst. cbn.
  rewrite (nth_error_nth' tbl d He), (IH Hr). reflexivity.
Qed.

Lemma take_rows2_nth {A} (d : A) (tbl : list A) (rows : list (list nat)) :
  rows_below (length tbl) rows ->
  take_rows2 tbl rows = Val (map (map (fun e => nth e tbl d)) rows).
Proof.
  unfold rows_below. induction rows as [|r rs IH]; intros H; [reflexivity|].
  inversion H as [|? ? Hr Hrs]; subst. cbn.
  rewrite (take_rows_nth d tbl r Hr), (IH Hrs). reflexivity.
Qed.

(** ** reorderAtoms on a Molecule that satisfies the invariants *)

Lemma reorder_field_run {A} (get : Molecule -> list A) set_ (order : list nat)
    (m : Molecule) :
  set_ (get m) m = m ->
  length (get m) = 0
  \/ (order <> [] /\ Forall (fun i => i < length (get m)) order) ->
  reorder_field get set_ order m = Ok tt (set_ (reorder_list order (get m)) m).
Proof.
  intros Law H. unfold reorder_field, reorder_list, bind, gets.
  destruct (length (get m) =? 0) eqn:E.
  - rewrite Law. reflexivity.
  - destruct H as [H | (Hne & Hf)]; [rewrite H in E; discriminate|].
    rewrite (take_pick _ _ Hne Hf). reflexivity.
Qed.

Lemma reorder_coords_run (order : list nat) (m : Molecule) :
  set_coords (coords m) m = m ->
  mkArray3 (cdata (coords m)) (cframes (coords m)) = coords m ->
  length (cdata (coords m)) = 0
  \/ (order <> [] /\ Forall (fun i => i < length (cdata (coords m))) order) ->
  reorder_coords order m
  = Ok tt (set_coords (mkArray3 (reorder_list order (cdata (coords m)))
                                (cframes (coords m))) m).
Proof.
  intros Law Law2 H. unfold reorder_coords, reorder_list, bind, gets.
  destruct (length (cdata (coords m)) =? 0) eqn:E.
  - rewrite Law2, Law. reflexivity.
  - destruct H as [H | (Hne & Hf)]; [rewrite H in E; discriminate|].
    rewrite (take_pick _ _ Hne Hf). reflexivity.
Qed.

Lemma reindex_field_run (get : Molecule -> list (list nat)) set_ (inv : list nat)
    (m : Molecule) :
  set_ (get m) m = m ->
  rows_below (length inv) (get m) ->
  reindex_field get set_ inv m
  = Ok tt (set_ (map (map (fun e => nth e inv 0)) (get m)) m).
Proof.
  intros Law H. unfold reindex_field, bind, gets.
  destruct (length (get m) =? 0) eqn:E.
  - apply length_0_nil in E. rewrite E in *. cbn [map]. rewrite Law. reflexivity.
  - rewrite (take_rows2_nth 0 inv (get m) H). reflexivity.
Qed.

(** the per-atom fields and the coordinates after [reorderAtoms] *)
Definition atoms_reordered (order : list nat) (m m' : Molecule) : Prop :=
  reordered order (record m) (record m')
  /\ reordered order (serial m) (serial m')
  /\ reordered order (name m) (name m')
  /\ reordered order (altloc m) (altloc m')
  /\ reordered order (resname m) (resname m')
  /\ reordered order (chain m) (chain m')
  /\ reordered order (resid m) (resid m')
  /\ reordered order (insertion m) (insertion m')
  /\ reordered order (occupancy m) (occupancy m')
  /\ reordered order (beta m) (beta m')
  /\ reordered order (segid m) (segid m')
  /\ reordered order (element m) (element m')
  /\ reordered order (charge m) (charge m')
  /\ reordered order (masses m) (masses m')
  /\ reordered order (atomtype m) (atomtype m')
  /\ reordered order (cdata (coords m)) (cdata (coords m'))
  /\ cframes (coords m') = cframes (coords m).

Ltac norm_state :=
  cbv beta iota delta
      [set_record set_serial set_name set_altloc set_resname set_chain set_resid
       set_insertion set_occupancy set_beta set_segid set_element set_charge
       set_masses set_atomtype set_bonds set_bondtype set_angles set_dihedrals
       set_impropers set_crystalinfo set_coords set_box set_boxangles set_fileloc
       set_step set_time set_frame set_topoloc set_viewname
       record serial name altloc resname chain resid insertion occupancy beta
       segid element charge masses atomtype bonds bondtype angles dihedrals
       impropers crystalinfo coords box boxangles fileloc step time _frame
       topoloc viewname cdata cframes].
Ltac norm_state_all :=
  cbv beta iota delta
      [set_record set_serial set_name set_altloc set_resname set_chain set_resid
       set_insertion set_occupancy set_beta set_segid set_element set_charge
       set_masses set_atomtype set_bonds set_bondtype set_angles set_dihedrals
       set_impropers set_crystalinfo set_coords set_box set_boxangles set_fileloc
       set_step set_time set_frame set_topoloc set_viewname
       record serial name altloc resname chain resid insertion occupancy beta
       segid element charge masses atomtype bonds bondtype angles dihedrals
       impropers crystalinfo coords box boxangles fileloc step time _frame
       topoloc viewname cdata cframes] in *.

Lemma reorderAtoms_ok (m : Molecule) (order : list nat) :
  atom_fields_aligned m -> endpoints_valid m -> coords_aligned m ->
  Permutation order (seq 0 (numAtoms m)) ->
  exists m',
    reorderAtoms order m = Ok tt m'
    /\ atoms_reordered order m m'
    /\ bonds m' = map (map (pos order)) (bonds m)
    /\ angles m' = map (map (pos order)) (angles m)
    /\ dihedrals m' = map (map (pos order)) (dihedrals m)
    /\ impropers m' = map (map (pos order)) (impropers m)
    /\ bondtype m' = bondtype m.
Proof.
  unfold atom_fields_aligned, endpoints_valid, coords_aligned. cbv zeta.
  generalize (numAtoms m) as n. intros n Hal (Hb & Ha & Hd & Hi) Hc Hp.
  assert (Hlen : length order = n).
  { rewrite (Permutation_length Hp). apply length_seq. }
  assert (Hin : Forall (fun i => i < n) order).
  { apply Forall_forall. intros x Hx.
    apply (Permutation_in _ Hp) in Hx. apply in_seq in Hx. lia. }
  assert (Hside : forall k, k = n \/ k = 0 ->
                   k = 0 \/ (order <> [] /\ Forall (fun i => i < k) order)).
  { intros k [-> | ->]; [|left; reflexivity].
    destruct n as [|n']; [left; reflexivity|]. right. split; [|exact Hin].
    destruct order; [discriminate|congruence]. }
  assert (Hrl : forall A (l : list A), length l = n \/ length l = 0 ->
                 reordered order l (reorder_list order l)).
  { intros A l HL. exact (reordered_reorder_list order l n Hp HL). }
  pose proof (inverseorder_pos order n Hp) as Hinv.
  assert (Hrows : forall rows, rows_below n rows ->
                   rows_below (length (map (pos order) (seq 0 n))) rows).
  { intros rows H. rewrite length_map, length_seq. exact H. }
  assert (Hnth : forall rows, rows_below n rows ->
                  map (map (fun e => nth e (map (pos order) (seq 0 n)) 0)) rows
                  = map (map (pos order)) rows).
  { intros rows H. apply map_ext_in. intros row Hrow. apply map_ext_in. intros e He.
    unfold rows_below in H. rewrite Forall_forall in H. specialize (H row Hrow).
    rewrite Forall_forall in H. specialize (H e He).
    rewrite (nth_indep _ 0 (pos order 0)) by (rewrite length_map, length_seq; exact H).
    rewrite map_nth, seq_nth by exact H. reflexivity. }
  destruct m. norm_state_all.
  destruct Hal as (H1 & H2 & H3 & H4 & H5 & H6 & H7 & H8 & H9 & H10 & H11 & H12
                   & H13 & H14 & H15).
  unfold reorderAtoms.
  do 15 (erewrite bind_Ok;
         [| apply reorder_field_run; [reflexivity | apply Hside; left; assumption] ];
         norm_state).
  erewrite bind_Ok;
    [| apply reorder_coords_run;
       [reflexivity | destruct coords0; reflexivity | apply Hside; exact Hc] ].
  norm_state.
  rewrite Hinv. cbn [lift]. unfold bind at 1. unfold ret at 1. cbv beta.
  do 3 (erewrite bind_Ok;
        [| apply reindex_field_run; [reflexivity | apply Hrows; assumption] ];
        norm_state).
  rewrite reindex_field_run; [|reflexivity|apply Hrows; assumption].
  norm_state. eexists. split; [reflexivity|]. norm_state.
  rewrite !Hnth by assumption.
  split.
  - unfold atoms_reordered. norm_state.
    do 15 (split; [apply Hrl; left; assumption|]).
    split; [apply Hrl; exact Hc|reflexivity].
  - split; [reflexivity|]. split; [reflexivity|]. split; [reflexivity|].
    split; reflexivity.
Qed.

(** C4: for a Molecule that satisfies the invariants and a permutation
    [order] of its atom indices, [reorderAtoms] returns; every per-atom field
    and the coordinates (with all their frames) have [new[i] = old[order[i]]];
    every endpoint of the bonds, angles, dihedrals and impropers is replaced by
    its entry in the inverse order the code computes, which is the inverse
    permutation; the bond types stay with their rows.  On the molecule of the
    test (atoms C1, C3, H, O, S, N, H3, H1, bonds [0,3], [1,4], [7,2]) and the
    order [1,2,4,3,0,7,5,6] the names become C3, H, S, O, C1, H1, N, H3 and the
    bonds [4,3], [0,2], [5,1]. *)
Theorem reorderAtoms_permutes :
  (forall (m : Molecule) (order : list nat),
      atom_fields_aligned m -> endpoints_valid m -> coords_aligned m ->
      Permutation order (seq 0 (numAtoms m)) ->
      exists inv m',
        inverseorder order = Val inv
        /\ reorderAtoms order m = Ok tt m'
        /\ atoms_reordered order m m'
        /\ bonds m' = map (map (fun e => nth e inv 0)) (bonds m)
        /\ angles m' = map (map (fun e => nth e inv 0)) (angles m)
        /\ dihedrals m' = map (map (fun e => nth e inv 0)) (dihedrals m)
        /\ impropers m' = map (map (fun e => nth e inv 0)) (impropers m)
        /\ bondtype m' = bondtype m
        /\ (forall e, e < numAtoms m ->
              nth e inv 0 < numAtoms m /\ nth (nth e inv 0) order 0 = e)
        /\ (forall i, i < numAtoms m -> nth (nth i order 0) inv 0 = i))
  /\ (exists m', reorderAtoms [1; 2; 4; 3; 0; 7; 5; 6] scenario_A = Ok tt m'
                 /\ name m' = ["C3"; "H"; "S"; "O"; "C1"; "H1"; "N"; "H3"]
                 /\ bonds m' = [[4; 3]; [0; 2]; [5; 1]]
                 /\ bondtype m' = ["un"; "1"; "2"]
                 /\ angles m' = [[4; 3; 1]; [0; 2; 7]; [5; 1; 6]]
                 /\ dihedrals m' = [[4; 3; 0; 1]; [0; 2; 1; 5]; [5; 1; 0; 4]]
                 /\ impropers m' = [[4; 3; 0; 1]; [0; 2; 1; 5]; [5; 1; 0; 4]]).
Proof.
  split.
  - intros m order Hal Hev Hc Hp.
    destruct (reorderAtoms_ok m order Hal Hev Hc Hp)
      as (m' & Hr & Hat & B & A & D & I & T).
    destruct (pos_inverse order (numAtoms m) Hp) as (P1 & P2).
    assert (Hnth : forall e, e < numAtoms m ->
                    nth e (map (pos order) (seq 0 (numAtoms m))) 0 = pos order e).
    { intros e He.
      rewrite (nth_indep _ 0 (pos order 0)) by (rewrite length_map, length_seq; exact He).
      rewrite map_nth, seq_nth by exact He. reflexivity. }
    assert (Hrows : forall rows, rows_below (numAtoms m) rows ->
              map (map (pos order)) rows
              = map (map (fun e => nth e (map (pos order) (seq 0 (numAtoms m))) 0)) rows).
    { intros rows H. apply map_ext_in. intros row Hrow. apply map_ext_in. intros e He.
      unfold rows_below in H. rewrite Forall_forall in H. specialize (H row Hrow).
      rewrite Forall_forall in H. symmetry. apply Hnth. exact (H e He). }
    destruct Hev as (Hb & Ha & Hd & Hi).
    exists (map (pos order) (seq 0 (numAtoms m))), m'.
    split; [exact (inverseorder_pos order _ Hp)|]. split; [exact Hr|].
    split; [exact Hat|].
    rewrite B, A, D, I, <- !Hrows by assumption.
    repeat (split; [reflexivity|]). split; [exact T|]. split.
    + intros e He. rewrite (Hnth e He). exact (P1 e He).
    + intros i Hi0. rewrite Hnth.
      * exact (P2 i Hi0).
      * assert (In (nth i order 0) order).
        { apply nth_In. rewrite (Permutation_length Hp), length_seq. exact Hi0. }
        apply (Permutation_in _ Hp) in H. apply in_seq in H. lia.
  - eexists. split; [vm_compute; reflexivity|]. repeat split.
Qed.

(** the general part of [reorderAtoms_permutes] on the molecule of the test *)
Lemma reorderAtoms_permutes_witness :
  exists inv m',
    inverseorder [1; 2; 4; 3; 0; 7; 5; 6] = Val inv
    /\ reorderAtoms [1; 2; 4; 3; 0; 7; 5; 6] scenario_A = Ok tt m'
    /\ atoms_reordered [1; 2; 4; 3; 0; 7; 5; 6] scenario_A m'
    /\ bonds m' = map (map (fun e => nth e inv 0)) (bonds scenario_A)
    /\ bondtype m' = bondtype scenario_A.
Proof.
  destruct reorderAtoms_permutes as (H & _).
  destruct (H scenario_A [1; 2; 4; 3; 0; 7; 5; 6])
    as (inv & m' & H1 & H2 & H3 & H4 & _ & _ & _ & H8 & _).
  - unfold atom_fields_aligned; cbn; repeat split.
  - apply invariant_scenario_A.
  - apply invariant_scenario_A.
  - change (seq 0 (numAtoms scenario_A)) with [0; 1; 2; 3; 4; 5; 6; 7].
    apply (perm_trans (l' := [1; 2; 4; 3; 0; 5; 6; 7])).
    + do 5 apply perm_skip.
      apply (perm_trans (l' := [5; 7; 6])); [apply perm_swap|].
      apply perm_skip. apply perm_swap.
    + apply (perm_trans (l' := [1; 2; 3; 4; 0; 5; 6; 7])).
      * do 2 apply perm_skip. apply perm_swap.
      * apply (perm_trans (l' := [1; 2; 3; 0; 4; 5; 6; 7])).
        -- do 3 apply perm_skip. apply perm_swap.
        -- apply (perm_trans (l' := [1; 2; 0; 3; 4; 5; 6; 7])).
           ++ do 2 apply perm_skip. apply perm_swap.
           ++ apply (perm_trans (l' := [1; 0; 2; 3; 4; 5; 6; 7])).
              ** apply perm_skip. apply perm_swap.
              ** apply perm_swap.
  - exists inv, m'. split; [exact H1|]. split; [exact H2|]. split; [exact H3|].
    split; [exact H4|exact H8].
Defined.

(** ** UniqueAtomID across a removal *)

Lemma drop_at_map {A B} (f : A -> B) (idx : list nat) (l : list A) k :
  drop_at k idx (map f l) = map f (drop_at k idx l).
Proof.
  revert k. induction l as [|x r IH]; intros k; cbn; [reflexivity|].
  destruct (memb k idx); cbn; rewrite IH; reflexivity.
Qed.

Lemma drop_at_map2 {A B C} (f : A -> B -> C) (idx : list nat) (a : list A)
    (b : list B) k :
  length a = length b ->
  drop_at k idx (map2 f a b) = map2 f (drop_at k idx a) (drop_at k idx b).
Proof.
  unfold map2. revert b k. induction a as [|x r IH]; intros [|y s] k HL;
    cbn in *; try reflexivity; try discriminate.
  destruct (memb k idx); cbn; rewrite IH by lia; reflexivity.
Qed.

Lemma drop_at_repeat {A} (x : A) (idx : list nat) (n k : nat) :
  drop_at k idx (repeat x n)
  = repeat x (length (filter (survives idx) (seq k n))).
Proof.
  revert k. induction n as [|n IH]; intros k; cbn; [reflexivity|].
  unfold survives at 1. destruct (memb k idx); cbn; rewrite IH; reflexivity.
Qed.

Lemma map2_length {A B C} (f : A -> B -> C) (a : list A) (b : list B) :
  length a = length b -> length (map2 f a b) = length a.
Proof.
  intros H. unfold map2. rewrite length_map, length_combine. lia.
Qed.

Lemma where_from_ge (k : nat) (mask : list bool) :
  forall j, In j (where_from k mask) -> k <= j.
Proof.
  revert k. induction mask as [|b r IH]; intros k j H; [contradiction|].
  cbn in H. destruct b.
  - destruct H as [<- | H]; [lia|]. apply IH in H. lia.
  - apply IH in H. lia.
Qed.

Lemma where_from_count (k : nat) (mask : list bool) :
  length (where_from k mask) = length (filter (fun b => b) mask).
Proof.
  revert k. induction mask as [|b r IH]; intros k; [reflexivity|].
  cbn. destruct b; cbn; rewrite IH; reflexivity.
Qed.

(** the selected positions after a deletion are the new positions of the
    selected survivors *)
Lemma where_from_drop_at (idx : list nat) (mask : list bool) : forall k c,
  where_from c (drop_at k idx mask)
  = map (fun j => c + length (filter (survives idx) (seq k (j - k))))
        (filter (survives idx) (where_from k mask)).
Proof.
  induction mask as [|b r IH]; intros k c; [reflexivity|].
  cbn [drop_at where_from].
  destruct (memb k idx) eqn:E.
  - rewrite IH.
    assert (Hk : survives idx k = false) by (unfold survives; rewrite E; reflexivity).
    assert (Hext : map (fun j => c + length (filter (survives idx) (seq (S k) (j - S k))))
                       (filter (survives idx) (where_from (S k) r))
                   = map (fun j => c + length (filter (survives idx) (seq k (j - k))))
                         (filter (survives idx) (where_from (S k) r))).
    { apply map_ext_in. intros j Hj. apply filter_In in Hj. destruct Hj as (Hj & _).
      apply where_from_ge in Hj.
      replace (j - k) with (S (j - S k)) by lia. cbn [seq filter]. rewrite Hk. reflexivity. }
    rewrite Hext. destruct b; [|reflexivity]. cbn [filter]. rewrite Hk. reflexivity.
  - assert (Hk : survives idx k = true) by (unfold survives; rewrite E; reflexivity).
    assert (Hext : map (fun j => S c + length (filter (survives idx) (seq (S k) (j - S k))))
                       (filter (survives idx) (where_from (S k) r))
                   = map (fun j => c + length (filter (survives idx) (seq k (j - k))))
                         (filter (survives idx) (where_from (S k) r))).
    { apply map_ext_in. intros j Hj. apply filter_In in Hj. destruct Hj as (Hj & _).
      apply where_from_ge in Hj.
      replace (j - k) with (S (j - S k)) by lia. cbn [seq filter]. rewrite Hk.
      cbn [length]. lia. }
    destruct b; cbn [where_from filter].
    + rewrite Hk. cbn [map]. rewrite IH, Hext, Nat.sub_diag. cbn. f_equal. lia.
    + rewrite IH, Hext. reflexivity.
Qed.

Lemma where_drop_at (idx : list nat) (mask : list bool) :
  where_ (drop_at 0 idx mask)
  = map (newpos idx) (filter (survives idx) (where_ mask)).
Proof.
  unfold where_. rewrite where_from_drop_at. apply map_ext. intros j.
  unfold newpos. rewrite Nat.sub_0_r. reflexivity.
Qed.

(** the rows of a Molecule that agree with a snapshot on every field *)
Definition mask_of (u : UniqueAtomID.t) (m : Molecule) : list bool :=
  let eqs {A} (eqb : A -> A -> bool) (fld : list A) (v : A) :=
    map (fun x => eqb x v) fld in
  map2 andb
    (map2 andb
       (map2 andb
          (map2 andb
             (map2 andb
                (map2 andb
                   (map2 andb (repeat true (numAtoms m))
                      (eqs String.eqb (name m) (UniqueAtomID.name u)))
                   (eqs String.eqb (altloc m) (UniqueAtomID.altloc u)))
                (eqs String.eqb (resname m) (UniqueAtomID.resname u)))
             (eqs String.eqb (chain m) (UniqueAtomID.chain u)))
          (eqs Z.eqb (resid m) (UniqueAtomID.resid u)))
       (eqs String.eqb (insertion m) (UniqueAtomID.insertion u)))
    (eqs String.eqb (segid m) (UniqueAtomID.segid u)).

Lemma and_eq_aligned {A} (eqb : A -> A -> bool) (fld : list A) (v : A)
    (sel : list bool) :
  length fld = length sel ->
  UniqueAtomID.and_eq eqb fld v sel = Val (map2 andb sel (map (fun x => eqb x v) fld)).
Proof.
  intros H. unfold UniqueAtomID.and_eq. rewrite length_map, H, Nat.eqb_refl. reflexivity.
Qed.

Lemma matching_aligned (u : UniqueAtomID.t) (m : Molecule) :
  atom_fields_aligned m ->
  UniqueAtomID.matching u m None = Val (mask_of u m)
  /\ length (mask_of u m) = numAtoms m.
Proof.
  unfold atom_fields_aligned. cbv zeta.
  intros (_ & _ & Hn & Ha & Hr & Hc & Hi & Hs & _ & _ & Hg & _).
  unfold UniqueAtomID.matching, mask_of, UniqueAtomID.match_field,
    UniqueAtomID.mol_name, UniqueAtomID.mol_altloc, UniqueAtomID.mol_resname,
    UniqueAtomID.mol_chain, UniqueAtomID.mol_resid, UniqueAtomID.mol_insertion,
    UniqueAtomID.mol_segid.
  cbv zeta.
  repeat (rewrite and_eq_aligned;
          [| repeat (rewrite map2_length; [| rewrite ?length_map; try assumption]);
             rewrite ?repeat_length, ?length_map; congruence ]).
  split; [reflexivity|].
  repeat (rewrite map2_length;
          [| repeat (rewrite map2_length; [| rewrite ?length_map; try assumption]);
             rewrite ?repeat_length, ?length_map; congruence ]).
  apply repeat_length.
Qed.

Lemma atoms_deleted_aligned (m m' : Molecule) (idx : list nat) :
  atom_fields_aligned m -> length (cdata (coords m)) = numAtoms m ->
  NoDup idx -> Forall (fun i => i < numAtoms m) idx ->
  atoms_deleted idx m m' -> atom_fields_aligned m'.
Proof.
  intros Hal Hc Hnd Hin Hat.
  pose proof (numAtoms_after_delete m m' idx Hal Hc Hnd Hin Hat) as Hn.
  unfold atom_fields_aligned in *. cbv zeta in *. rewrite Hn.
  unfold atoms_deleted in Hat.
  destruct Hat as (-> & -> & -> & -> & -> & -> & -> & -> & -> & -> & -> & -> & ->
                   & -> & -> & _).
  destruct Hal as (? & ? & ? & ? & ? & ? & ? & ? & ? & ? & ? & ? & ? & ? & ?).
  repeat split; apply drop_at_length_count; assumption.
Qed.

Lemma mask_of_deleted (u : UniqueAtomID.t) (m m' : Molecule) (idx : list nat) :
  atom_fields_aligned m -> length (cdata (coords m)) = numAtoms m ->
  NoDup idx -> Forall (fun i => i < numAtoms m) idx ->
  atoms_deleted idx m m' ->
  mask_of u m' = drop_at 0 idx (mask_of u m).
Proof.
  intros Hal Hc Hnd Hin Hat.
  pose proof (numAtoms_after_delete m m' idx Hal Hc Hnd Hin Hat) as Hn.
  unfold mask_of. cbv zeta. rewrite Hn.
  unfold atoms_deleted in Hat.
  destruct Hat as (_ & _ & -> & -> & -> & -> & -> & -> & _ & _ & -> & _).
  unfold atom_fields_aligned in Hal. cbv zeta in Hal.
  destruct Hal as (_ & _ & Hn1 & Ha & Hr & Hch & Hi & Hs & _ & _ & Hg & _).
  rewrite <- (survivors_count idx (numAtoms m) Hnd Hin).
  rewrite <- (drop_at_repeat true idx (numAtoms m) 0).
  rewrite <- !drop_at_map.
  repeat (rewrite <- drop_at_map2;
          [| repeat (rewrite map2_length; [| rewrite ?length_map; try assumption]);
             rewrite ?repeat_length, ?length_map; congruence ]).
  reflexivity.
Qed.

Lemma selectAtom_from_mask (u : UniqueAtomID.t) (m : Molecule) (mask : list bool) :
  UniqueAtomID.matching u m None = Val mask ->
  UniqueAtomID.selectAtom u m true None
  = match where_ mask with
    | [] => Exn (RuntimeError "The atom is no longer present in your Molecule")
    | [i] => Val (UniqueAtomID.AtomIndex i)
    | _ :: _ :: _ => Exn (RuntimeError "The atom is no longer unique in your Molecule")
    end.
Proof.
  intros H. unfold UniqueAtomID.selectAtom. rewrite H.
  unfold where_. rewrite <- (where_from_count 0 mask).
  destruct (where_from 0 mask) as [|i [|j r]]; reflexivity.
Qed.

(** two atoms that agree on every identifying field, and a third one *)
Definition twins : Molecule := Eval vm_compute in
  set_name ["CA"; "CA"; "CB"] (state_of (empty 3 Molecule_init)).

(** C7, a case where it fails: the id is captured from atom 0, and atom 1
    has the same name, altloc, resname, chain, resid, insertion and segid.
    After removing atom 2, which does not match the id, selectAtom raises
    instead of returning an index; after removing atom 0 itself, selectAtom
    returns index 0, the other atom, instead of raising. *)
Lemma snapshot_shared_by_two_atoms :
  exists u,
    UniqueAtomID.fromMolecule twins None (Some 0) = Val u
    /\ UniqueAtomID.selectAtom u (state_of (remove (SelIdx [2]) twins)) true None
       = Exn (RuntimeError "The atom is no longer unique in your Molecule")
    /\ UniqueAtomID.selectAtom u (state_of (remove (SelIdx [0]) twins)) true None
       = Val (UniqueAtomID.AtomIndex 0).
Proof.
  eexists. split; [vm_compute; reflexivity|]. split; vm_compute; reflexivity.
Qed.

(** ** calculateUniqueBonds: the rows of the result, and their order *)

(** the first bond index of a row, the key of [np.argsort(bonds[:, 0])] *)
Definition key (t : bondtuple) : nat := fst (fst t).

(** [bondtype is not None and len(bondtype)] *)
Definition has_types (bondtype : option (list string)) : bool :=
  match bondtype with
  | Some bt => 0 <? length bt
  | None => false
  end.

(** the tuples the function puts in the set: the rows with their endpoints
    sorted, with the bond types when there are any *)
Definition tuples (bonds : list (nat * nat)) (bondtype : option (list string))
  : list bondtuple :=
  if has_types bondtype then
    map2 (fun bb t => (bb, Some t)) (map sort_row bonds)
         (match bondtype with Some bt => bt | None => [] end)
  else map (fun bb => (bb, None)) (map sort_row bonds).

Definition label (t : bondtuple) : string :=
  match snd t with Some s => s | None => "" end.

Definition is_typed (t : bondtuple) : bool :=
  match snd t with Some _ => true | None => false end.

(** the two arrays returned, from the sorted tuples *)
Definition result_of (rows : list bondtuple) (typed : bool)
  : list (nat * nat) * option (list string) :=
  (map fst rows, if typed then Some (map label rows) else None).

(** the rows of a result read back as tuples *)
Definition labelled (rows : list (nat * nat)) (types : option (list string))
  : list bondtuple :=
  match types with
  | Some bt => map2 (fun bb t => (bb, Some t)) rows bt
  | None => map (fun bb => (bb, None)) rows
  end.

(** *** Two implementations of the set and of the sort *)

Definition bondtuple_eq_dec (x y : bondtuple) : {x = y} + {x <> y}.
Proof. repeat decide equality. Defined.

(** a set that lists its elements against the order of insertion, as
    CPython's does for tuples whose hashes collide in a small table
    ([list(set([(0, 6), (0, 17)]))] is [[(0, 17), (0, 6)]] there) *)
Definition reversed_set_list (l : list bondtuple) : list bondtuple :=
  rev (nodup bondtuple_eq_dec l).

(** insertion sort of the positions by their keys, the sort numpy runs on
    short arrays: positions of equal keys keep their order *)
Fixpoint insert_idx (keys : list nat) (i : nat) (l : list nat) : list nat :=
  match l with
  | [] => [i]
  | j :: r => if nth i keys 0 <=? nth j keys 0 then i :: l
              else j :: insert_idx keys i r
  end.

Definition insertion_argsort_list (keys : list nat) : list nat :=
  fold_right (insert_idx keys) [] (seq 0 (length keys)).

Lemma reversed_set_NoDup l : NoDup (reversed_set_list l).
Proof. apply NoDup_rev, NoDup_nodup. Qed.

Lemma reversed_set_In l x : In x (reversed_set_list l) <-> In x l.
Proof.
  unfold reversed_set_list. rewrite <- in_rev. apply nodup_In.
Qed.

Lemma insert_idx_perm keys i l : Permutation (insert_idx keys i l) (i :: l).
Proof.
  induction l as [|j r IH]; cbn; [reflexivity|].
  destruct (nth i keys 0 <=? nth j keys 0); [reflexivity|].
  rewrite IH. apply perm_swap.
Qed.

Lemma insert_idx_sorted keys i l :
  Sorted le (map (fun j => nth j keys 0) l) ->
  Sorted le (map (fun j => nth j keys 0) (insert_idx keys i l)).
Proof.
  induction l as [|j r IH]; cbn; intros Hs.
  - repeat constructor.
  - destruct (nth i keys 0 <=? nth j keys 0) eqn:E; cbn.
    + constructor; [exact Hs|]. constructor. apply Nat.leb_le. exact E.
    + apply Nat.leb_gt in E. inversion Hs as [|x y Hs' Hh]; subst.
      constructor; [apply IH; exact Hs'|].
      destruct r as [|j' r']; cbn.
      * constructor. lia.
      * destruct (nth i keys 0 <=? nth j' keys 0); cbn; constructor.
        -- lia.
        -- inversion Hh; subst. assumption.
Qed.

Lemma insertion_argsort_perm keys :
  Permutation (insertion_argsort_list keys) (seq 0 (length keys)).
Proof.
  unfold insertion_argsort_list.
  induction (seq 0 (length keys)) as [|i l IH]; cbn; [reflexivity|].
  rewrite insert_idx_perm. constructor. exact IH.
Qed.

Lemma insertion_argsort_sorted keys :
  Sorted le (map (fun i => nth i keys 0) (insertion_argsort_list keys)).
Proof.
  unfold insertion_argsort_list.
  induction (seq 0 (length keys)) as [|i l IH]; cbn; [constructor|].
  apply insert_idx_sorted. exact IH.
Qed.

Definition reversed_set : PySet :=
  {| set_list := reversed_set_list;
     set_list_NoDup := reversed_set_NoDup;
     set_list_In := reversed_set_In |}.

Definition insertion_argsort : ArgSort :=
  {| argsort := insertion_argsort_list;
     argsort_perm := insertion_argsort_perm;
     argsort_sorted := insertion_argsort_sorted |}.

(** *** Lists sorted by a key *)

Lemma rows_at_seq {A} (d : A) (l : list A) :
  rows_at d l (seq 0 (length l)) = l.
Proof.
  unfold rows_at. induction l as [|a l IH]; cbn; [reflexivity|].
  f_equal. rewrite <- seq_shift, map_map. exact IH.
Qed.

Lemma sorted_unique {A} (k : A -> nat) (l l' : list A) :
  Permutation l l' ->
  Sorted le (map k l) -> Sorted le (map k l') -> NoDup (map k l) ->
  l = l'.
Proof.
  revert l'. induction l as [|a l IH]; intros l' Hp Hs Hs' Hnd.
  - apply Permutation_nil in Hp. subst. reflexivity.
  - destruct l' as [|a' l'];
      [apply Permutation_sym, Permutation_nil in Hp; discriminate|].
    assert (Ha : a = a').
    { pose proof (Sorted_StronglySorted Nat.le_trans Hs) as Hss.
      pose proof (Sorted_StronglySorted Nat.le_trans Hs') as Hss'.
      cbn in Hss, Hss'.
      apply StronglySorted_inv in Hss as [_ Hf].
      apply StronglySorted_inv in Hss' as [_ Hf'].
      rewrite Forall_forall in Hf, Hf'.
      assert (Hin : In a (a' :: l'))
        by (apply (Permutation_in _ Hp); left; reflexivity).
      assert (Hin' : In a' (a :: l))
        by (apply (Permutation_in _ (Permutation_sym Hp)); left; reflexivity).
      destruct Hin as [E|Hin]; [symmetry; exact E|].
      destruct Hin' as [E|Hin']; [exact E|].
      exfalso. cbn in Hnd. apply NoDup_cons_iff in Hnd as [Hn _]. apply Hn.
      assert (k a = k a').
      { apply Nat.le_antisymm;
          [apply Hf, in_map; exact Hin'|apply Hf', in_map; exact Hin]. }
      rewrite H. apply in_map. exact Hin'. }
    subst a'. f_equal. apply IH.
    + eapply Permutation_cons_inv. exact Hp.
    + cbn in Hs. inversion Hs; assumption.
    + cbn in Hs'. inversion Hs'; assumption.
    + cbn in Hnd. apply NoDup_cons_iff in Hnd as [_ Hn]. exact Hn.
Qed.

Section UniqueBondsFacts.

Context {pyset : PySet} {argsorter : ArgSort}.

Lemma sort_first_spec (T : list bondtuple) :
  T <> [] ->
  exists R, sort_first T = Val R /\ Permutation R T /\ Sorted le (map key R).
Proof.
  intros Hne. destruct T as [|t T]; [congruence|].
  eexists. split; [reflexivity|]. split.
  - etransitivity; [|apply Permutation_refl' , (rows_at_seq (0, 0, None))].
    unfold rows_at. apply Permutation_map.
    rewrite <- (length_map (fun t => fst (fst t)) (t :: T)).
    apply argsort_perm.
  - unfold rows_at. rewrite map_map.
    erewrite map_ext; [apply (argsort_sorted (map key (t :: T)))|].
    intros i. cbv beta. symmetry.
    exact (map_nth key (t :: T) (0, 0, None) i).
Qed.

Lemma calculateUniqueBonds_unfold bonds bondtype :
  calculateUniqueBonds bonds bondtype =
  if has_types bondtype
     && negb (length (match bondtype with Some bt => bt | None => [] end)
              =? length bonds)
  then Exn AssertionError
  else match sort_first (set_list (tuples bonds bondtype)) with
       | Exn e => Exn e
       | Val rows => Val (result_of rows (has_types bondtype))
       end.
Proof.
  unfold calculateUniqueBonds, tuples, result_of, has_types.
  destruct bondtype as [bt|]; [|reflexivity].
  destruct (0 <? length bt); [|reflexivity].
  cbn [andb]. destruct (negb (length bt =? length bonds)); reflexivity.
Qed.

End UniqueBondsFacts.

Lemma tuples_shape bonds bondtype :
  Forall (fun t => is_typed t = has_types bondtype
                   /\ fst (fst t) <= snd (fst t))
         (tuples bonds bondtype).
Proof.
  apply Forall_forall. intros t Hin. unfold tuples in Hin.
  destruct (has_types bondtype).
  - unfold map2 in Hin. apply in_map_iff in Hin as ([bb s] & <- & Hp).
    apply in_combine_l in Hp. apply in_map_iff in Hp as (b & <- & _).
    split; [reflexivity|]. cbn. lia.
  - apply in_map_iff in Hin as (p & <- & Hp).
    apply in_map_iff in Hp as (b & <- & _).
    split; [reflexivity|]. cbn. lia.
Qed.

Lemma tuples_nonempty bonds bondtype :
  bonds <> [] ->
  (forall bt, bondtype = Some bt -> bt = [] \/ length bt = length bonds) ->
  tuples bonds bondtype <> [].
Proof.
  intros Hne Hlen. destruct bonds as [|b bonds]; [congruence|].
  unfold tuples. destruct bondtype as [bt|]; cbn; [|discriminate].
  destruct bt as [|s bt]; cbn; discriminate.
Qed.

Lemma labelled_result (R : list bondtuple) (ty : bool) :
  Forall (fun t => is_typed t = ty) R ->
  labelled (fst (result_of R ty)) (snd (result_of R ty)) = R.
Proof.
  intros H. unfold result_of. cbn [fst snd].
  induction H as [|t R Ht _ IH]; [destruct ty; reflexivity|].
  destruct t as [bb [s|]]; cbn in Ht; subst ty; cbn in *;
    unfold map2 in *; cbn; rewrite IH; reflexivity.
Qed.

Lemma labelled_ordered rows types :
  Forall (fun b => fst b <= snd b) rows ->
  labelled (map sort_row rows) types = labelled rows types.
Proof.
  intros H. replace (map sort_row rows) with rows; [reflexivity|].
  induction H as [|b rows Hb _ IH]; cbn; [reflexivity|].
  rewrite <- IH. f_equal. destruct b as [x y]. unfold sort_row. cbn in *.
  rewrite Nat.min_l, Nat.max_r by lia. reflexivity.
Qed.

Section UniqueBondsCanonical.

Context {pyset : PySet} {argsorter : ArgSort}.

Lemma set_list_nonempty (T : list bondtuple) : T <> [] -> set_list T <> [].
Proof.
  intros Hne E. destruct T as [|t T]; [congruence|].
  assert (Hin : In t (set_list (t :: T)))
    by (apply set_list_In; left; reflexivity).
  rewrite E in Hin. destruct Hin.
Qed.

Lemma set_list_facts (T R : list bondtuple) (ty : bool) :
  Permutation R (set_list T) ->
  Forall (fun t => is_typed t = ty /\ fst (fst t) <= snd (fst t)) T ->
  NoDup R
  /\ (forall t, In t R <-> In t T)
  /\ Forall (fun t => is_typed t = ty) R
  /\ Forall (fun b => fst b <= snd b) (map fst R).
Proof.
  intros Hp Hsh.
  assert (Hin : forall t, In t R <-> In t T).
  { intros t. rewrite <- (set_list_In T t). split; apply Permutation_in;
      [exact Hp|apply Permutation_sym; exact Hp]. }
  rewrite Forall_forall in Hsh.
  split; [|split; [exact Hin|split]].
  - eapply Permutation_NoDup; [apply Permutation_sym; exact Hp|].
    apply set_list_NoDup.
  - apply Forall_forall. intros t Ht. apply Hsh, Hin, Ht.
  - apply Forall_forall. intros b Hb.
    apply in_map_iff in Hb as (t & <- & Ht). apply Hsh, Hin, Ht.
Qed.

(** a call that returns has sorted the elements of the set *)
Lemma calculateUniqueBonds_inv bonds bondtype rows types :
  calculateUniqueBonds bonds bondtype = Val (rows, types) ->
  exists R,
    (rows, types) = result_of R (has_types bondtype)
    /\ Permutation R (set_list (tuples bonds bondtype))
    /\ Sorted le (map key R)
    /\ tuples bonds bondtype <> [].
Proof.
  rewrite calculateUniqueBonds_unfold. intros H.
  destruct (has_types bondtype && _); [discriminate|].
  destruct (set_list (tuples bonds bondtype)) as [|t T] eqn:E;
    [discriminate|].
  destruct (sort_first_spec (t :: T)) as (R & HR & Hp & Hs); [discriminate|].
  rewrite HR in H. exists R.
  split; [congruence|]. split; [exact Hp|]. split; [exact Hs|].
  intros E'. rewrite E' in E.
  assert (Hin : In t (set_list [])) by (rewrite E; left; reflexivity).
  apply (set_list_In [] t) in Hin. exact Hin.
Qed.

(** a non-empty array of bonds, with as many types as bonds when there are
    types, gives a result *)
Lemma calculateUniqueBonds_rows bonds bondtype :
  bonds <> [] ->
  (forall bt, bondtype = Some bt -> bt = [] \/ length bt = length bonds) ->
  exists R,
    calculateUniqueBonds bonds bondtype = Val (result_of R (has_types bondtype))
    /\ Permutation R (set_list (tuples bonds bondtype))
    /\ Sorted le (map key R).
Proof.
  intros Hne Hlen. rewrite calculateUniqueBonds_unfold.
  assert (Hg : has_types bondtype
               && negb (length (match bondtype with Some bt => bt | None => [] end)
                        =? length bonds) = false).
  { destruct bondtype as [bt|]; [|reflexivity].
    destruct (Hlen bt eq_refl) as [->|E]; [reflexivity|].
    rewrite E, Nat.eqb_refl. apply andb_false_r. }
  rewrite Hg.
  destruct (sort_first_spec (set_list (tuples bonds bondtype)))
    as (R & HR & Hp & Hs).
  { apply set_list_nonempty, tuples_nonempty; assumption. }
  exists R. rewrite HR. auto.
Qed.

(** two calls on the same set of tuples return the same rows, in the same
    order when the first bond indexes of the rows are all different *)
Lemma calculateUniqueBonds_same_tuples bonds bondtype R
    bonds2 bondtype2 rows2 types2 :
  tuples bonds bondtype <> [] ->
  Permutation R (set_list (tuples bonds bondtype)) ->
  Sorted le (map key R) ->
  (forall t, In t (tuples bonds2 bondtype2) <-> In t (tuples bonds bondtype)) ->
  calculateUniqueBonds bonds2 bondtype2 = Val (rows2, types2) ->
  Permutation (labelled rows2 types2) R
  /\ (NoDup (map key R) -> (rows2, types2) = result_of R (has_types bondtype)).
Proof.
  intros Hne Hp Hs Hsame H2.
  apply calculateUniqueBonds_inv in H2 as (R2 & E2 & Hp2 & Hs2 & _).
  destruct (set_list_facts _ _ _ Hp (tuples_shape bonds bondtype))
    as (Hnd & Hin & Hty & _).
  destruct (set_list_facts _ _ _ Hp2 (tuples_shape bonds2 bondtype2))
    as (Hnd2 & Hin2 & Hty2 & _).
  assert (Hty_eq : has_types bondtype2 = has_types bondtype).
  { destruct (tuples bonds bondtype) as [|t T] eqn:ET; [congruence|].
    assert (Ht : In t R) by (apply Hin; left; reflexivity).
    assert (Ht2 : In t R2) by (apply Hin2, Hsame; left; reflexivity).
    rewrite Forall_forall in Hty, Hty2.
    rewrite <- (Hty t Ht). symmetry. apply Hty2, Ht2. }
  assert (Hperm : Permutation R2 R).
  { apply NoDup_Permutation; [exact Hnd2|exact Hnd|].
    intros t. rewrite Hin2, Hin. apply Hsame. }
  assert (Hlab : labelled rows2 types2 = R2).
  { change rows2 with (fst (rows2, types2)).
    change types2 with (snd (rows2, types2)) at 2.
    rewrite E2. apply labelled_result. exact Hty2. }
  split; [rewrite Hlab; exact Hperm|].
  intros Hk. rewrite E2, Hty_eq. f_equal.
  apply (sorted_unique key); [exact Hperm|exact Hs2|exact Hs|].
  eapply Permutation_NoDup; [|exact Hk].
  apply Permutation_map, Permutation_sym, Hperm.
Qed.

End UniqueBondsCanonical.

Lemma tuples_result (R : list bondtuple) (ty : bool) :
  R <> [] ->
  Forall (fun t => is_typed t = ty) R ->
  Forall (fun b => fst b <= snd b) (map fst R) ->
  tuples (fst (result_of R ty)) (snd (result_of R ty)) = R.
Proof.
  intros Hne Hty Hord. destruct R as [|t R]; [congruence|].
  unfold result_of. cbn [fst snd]. destruct ty.
  - unfold tuples, has_types.
    change (0 <? length (map label (t :: R))) with true. cbv iota.
    change (labelled (map sort_row (map fst (t :: R)))
                     (Some (map label (t :: R))) = t :: R).
    rewrite (labelled_ordered _ _ Hord).
    exact (labelled_result (t :: R) true Hty).
  - unfold tuples, has_types. cbv iota.
    change (labelled (map sort_row (map fst (t :: R))) None = t :: R).
    rewrite (labelled_ordered _ _ Hord).
    exact (labelled_result (t :: R) false Hty).
Qed.

(** C6 (as stated): under a set that lists its elements against the order
    of insertion and a sort that keeps equal keys in place,
    calculateUniqueBonds raises IndexError on an empty array of bonds, returns
    the rows (0, 6) and (0, 17) in an order that depends on the order of the
    input, and applied to its own output returns the rows in the other
    order. *)
Lemma calculateUniqueBonds_order_follows_input :
  calculateUniqueBonds (pyset := reversed_set) (argsorter := insertion_argsort)
    [] None = Exn IndexError
  /\ calculateUniqueBonds (pyset := reversed_set) (argsorter := insertion_argsort)
       [(0, 6); (0, 17)] None = Val ([(0, 17); (0, 6)], None)
  /\ calculateUniqueBonds (pyset := reversed_set) (argsorter := insertion_argsort)
       [(0, 17); (0, 6)] None = Val ([(0, 6); (0, 17)], None).
Proof.
  split; [|split]; vm_compute; reflexivity.
Qed.

(** C6 (amended): for every set and sort that meet their contracts, a
    non-empty array of bonds, with as many bond types as bonds when types are
    given, makes calculateUniqueBonds return rows with their endpoints ordered
    (min, max), one bond type per row when types were given, no (row, type)
    tuple twice, exactly the tuples of the input, sorted by first endpoint
    ascending. Any input with the same set of tuples, and the output itself,
    gives a permutation of these rows, and the very same result when no two
    rows of the result share their first endpoint. *)
Theorem calculateUniqueBonds_unique_sorted
    (pyset : PySet) (argsorter : ArgSort)
    (bonds : list (nat * nat)) (bondtype : option (list string)) :
  bonds <> [] ->
  (forall bt, bondtype = Some bt -> bt = [] \/ length bt = length bonds) ->
  exists rows types,
    calculateUniqueBonds bonds bondtype = Val (rows, types)
    /\ match types with
       | Some ts => has_types bondtype = true /\ length ts = length rows
       | None => has_types bondtype = false
       end
    /\ Forall (fun b => fst b <= snd b) rows
    /\ NoDup (labelled rows types)
    /\ (forall t, In t (labelled rows types) <-> In t (tuples bonds bondtype))
    /\ Sorted le (map fst rows)
    /\ (forall bonds2 bondtype2 rows2 types2,
          (forall t, In t (tuples bonds2 bondtype2)
                     <-> In t (tuples bonds bondtype)) ->
          calculateUniqueBonds bonds2 bondtype2 = Val (rows2, types2) ->
          Permutation (labelled rows2 types2) (labelled rows types)
          /\ (NoDup (map fst rows) -> (rows2, types2) = (rows, types)))
    /\ (exists rows' types',
          calculateUniqueBonds rows types = Val (rows', types')
          /\ Permutation (labelled rows' types') (labelled rows types)
          /\ (NoDup (map fst rows) -> (rows', types') = (rows, types))).
Proof.
  intros Hne Hlen.
  destruct (calculateUniqueBonds_rows bonds bondtype Hne Hlen)
    as (R & HR & Hp & Hs).
  destruct (set_list_facts _ _ _ Hp (tuples_shape bonds bondtype))
    as (Hnd & Hin & Hty & Hord).
  pose proof (tuples_nonempty bonds bondtype Hne Hlen) as HT.
  pose proof (labelled_result R (has_types bondtype) Hty) as Hlab.
  assert (HRne : R <> []).
  { intros ->. apply Permutation_nil in Hp.
    exact (set_list_nonempty _ HT Hp). }
  pose proof (tuples_result R (has_types bondtype) HRne Hty Hord) as Htr.
  unfold result_of in HR, Hlab, Htr. cbn [fst snd] in Hlab, Htr.
  set (rows := map fst R) in *.
  set (types := if has_types bondtype then Some (map label R) else None) in *.
  assert (Hkey : map fst rows = map key R)
    by (unfold rows; apply map_map).
  exists rows, types.
  split; [exact HR|].
  split.
  { unfold types, rows. destruct (has_types bondtype); [|reflexivity].
    split; [reflexivity|]. rewrite !length_map. reflexivity. }
  split; [exact Hord|].
  split; [rewrite Hlab; exact Hnd|].
  split; [rewrite Hlab; exact Hin|].
  split; [rewrite Hkey; exact Hs|].
  split.
  - intros bonds2 bondtype2 rows2 types2 Hsame H2.
    destruct (calculateUniqueBonds_same_tuples bonds bondtype R
                bonds2 bondtype2 rows2 types2 HT Hp Hs Hsame H2) as [P Q].
    rewrite Hlab, Hkey. split; [exact P|exact Q].
  - assert (Hne' : rows <> []).
    { unfold rows. destruct R; [congruence|discriminate]. }
    assert (Hlen' : forall bt, types = Some bt ->
                               bt = [] \/ length bt = length rows).
    { intros bt E. unfold types, rows in *.
      destruct (has_types bondtype); [|discriminate].
      injection E as <-. right. rewrite !length_map. reflexivity. }
    destruct (calculateUniqueBonds_rows rows types Hne' Hlen')
      as (R' & HR' & _).
    destruct (result_of R' (has_types types)) as [rows' types'].
    exists rows', types'. split; [exact HR'|].
    assert (Hsame : forall t, In t (tuples rows types)
                              <-> In t (tuples bonds bondtype))
      by (intros t; rewrite Htr; apply Hin).
    destruct (calculateUniqueBonds_same_tuples bonds bondtype R
                rows types rows' types' HT Hp Hs Hsame HR') as [P Q].
    rewrite Hlab, Hkey. split; [exact P|exact Q].
Qed.

Lemma calculateUniqueBonds_unique_sorted_witness :
  exists rows types,
    calculateUniqueBonds (pyset := reversed_set) (argsorter := insertion_argsort)
      [(1, 0); (0, 1); (2, 1); (1, 2)] (Some ["1"; "1"; "2"; "1"])
    = Val (rows, types)
    /\ NoDup (labelled rows types)
    /\ Sorted le (map fst rows).
Proof.
  destruct (calculateUniqueBonds_unique_sorted reversed_set insertion_argsort
              [(1, 0); (0, 1); (2, 1); (1, 2)] (Some ["1"; "1"; "2"; "1"]))
    as (rows & types & H & _ & _ & Hnd & _ & Hs & _).
  - discriminate.
  - intros bt E. injection E as <-. right. reflexivity.
  - exists rows, types. split; [exact H|]. split; [exact Hnd|exact Hs].
Defined.

(** * Further properties of the code *)

(** ** The frame property *)

(** The setter of [frame] accepts an index of an existing frame, and the
    getter then returns it; the coordinates are not touched. *)
Theorem frame_setter_then_getter (m : Molecule) (v : Z) :
  (0 <= v < Z.of_nat (numFrames m))%Z ->
  exists m',
    set_frame_checked v m = Ok tt m'
    /\ frame m' = Ok v m'
    /\ coords m' = coords m.
Proof.
  intros [H0 H1]. exists (set_frame v m).
  assert (Hn : numFrames (set_frame v m) = numFrames m) by (destruct m; reflexivity).
  assert (Hf : _frame (set_frame v m) = v) by (destruct m; reflexivity).
  split; [|split].
  - unfold set_frame_checked.
    replace (v <? 0)%Z with false by (symmetry; apply Z.ltb_ge; lia).
    replace (Z.of_nat (numFrames m) <=? v)%Z with false
      by (symmetry; apply Z.leb_gt; lia).
    rewrite andb_false_r. reflexivity.
  - unfold frame. rewrite Hn, Hf.
    replace (v <? 0)%Z with false by (symmetry; apply Z.ltb_ge; lia).
    replace (Z.of_nat (numFrames m) <=? v)%Z with false
      by (symmetry; apply Z.leb_gt; lia).
    reflexivity.
  - destruct m; reflexivity.
Qed.

Lemma frame_setter_then_getter_witness :
  exists m',
    set_frame_checked 1 two_frames = Ok tt m'
    /\ frame m' = Ok 1%Z m'
    /\ coords m' = coords two_frames.
Proof.
  apply (frame_setter_then_getter two_frames 1). cbn. lia.
Defined.

(** The setter refuses a negative index, and an index that is not below the
    number of frames when there are frames; the Molecule is left as it was. *)
Theorem frame_setter_refuses_out_of_range (m : Molecule) (v : Z) :
  (v < 0)%Z \/ (numFrames m <> 0 /\ (Z.of_nat (numFrames m) <= v)%Z) ->
  set_frame_checked v m = Raise (NameError "Frame index out of range") m.
Proof.
  intros H. unfold set_frame_checked.
  destruct H as [H|[Hn H]].
  - replace (v <? 0)%Z with true by (symmetry; apply Z.ltb_lt; exact H).
    reflexivity.
  - replace (Z.of_nat (numFrames m) <=? v)%Z with true
      by (symmetry; apply Z.leb_le; exact H).
    replace (Nat.eqb (numFrames m) 0) with false
      by (symmetry; apply Nat.eqb_neq; exact Hn).
    rewrite orb_true_r. reflexivity.
Qed.

Lemma frame_setter_refuses_out_of_range_witness :
  set_frame_checked 2 two_frames
  = Raise (NameError "Frame index out of range") two_frames.
Proof.
  apply (frame_setter_refuses_out_of_range two_frames 2).
  right. split; [discriminate|]. cbn. lia.
Defined.

(** In a Molecule without frames the setter accepts every index that is not
    negative, and the getter raises whatever index is stored: the frame of a
    Molecule cannot be read before coordinates are loaded. *)
Theorem frame_unreadable_without_frames (m : Molecule) (v : Z) :
  numFrames m = 0 -> (0 <= v)%Z ->
  frame m = Raise (NameError "frame out of range") m
  /\ exists m',
       set_frame_checked v m = Ok tt m'
       /\ _frame m' = v
       /\ frame m' = Raise (NameError "frame out of range") m'.
Proof.
  intros Hn Hv.
  assert (G : forall s, numFrames s = 0 ->
                        frame s = Raise (NameError "frame out of range") s).
  { intros s Hs. unfold frame. rewrite Hs. cbn [Z.of_nat].
    destruct (_frame s <? 0)%Z eqn:E; [reflexivity|].
    apply Z.ltb_ge in E.
    replace (0 <=? _frame s)%Z with true by (symmetry; apply Z.leb_le; exact E).
    reflexivity. }
  split; [apply G; exact Hn|].
  exists (set_frame v m). split; [|split].
  - unfold set_frame_checked. rewrite Hn.
    replace (v <? 0)%Z with false by (symmetry; apply Z.ltb_ge; lia).
    reflexivity.
  - destruct m; reflexivity.
  - apply G. destruct m; exact Hn.
Qed.

Lemma frame_unreadable_without_frames_witness :
  frame Molecule_init = Raise (NameError "frame out of range") Molecule_init
  /\ exists m',
       set_frame_checked 3 Molecule_init = Ok tt m'
       /\ _frame m' = 3%Z
       /\ frame m' = Raise (NameError "frame out of range") m'.
Proof.
  apply (frame_unreadable_without_frames Molecule_init 3); [reflexivity|lia].
Defined.

(** ** empty *)

Lemma serial_arange_length (n : nat) : length (arange 1 (Z.of_nat n + 1)) = n.
Proof. unfold arange. rewrite length_map, length_seq. lia. Qed.

Lemma serial_arange_nth (n i : nat) :
  i < n -> nth_error (arange 1 (Z.of_nat n + 1)) i = Some (Z.of_nat i + 1)%Z.
Proof.
  intros Hi. unfold arange.
  replace (Z.to_nat (Z.of_nat n + 1 - 1)) with n by lia.
  rewrite nth_error_map.
  rewrite (nth_error_nth' (seq 0 n) 0) by (rewrite length_seq; exact Hi).
  rewrite seq_nth by exact Hi. cbn [option_map]. f_equal. lia.
Qed.

Lemma nth_error_repeat_lt {A} (x : A) (n i : nat) :
  i < n -> nth_error (repeat x n) i = Some x.
Proof.
  intros Hi. rewrite (nth_error_nth' (repeat x n) x) by (rewrite repeat_length; exact Hi).
  rewrite nth_repeat. reflexivity.
Qed.

Lemma empty_run (self : Molecule) (n : nat) :
  empty n self
  = Ok tt
      (set_box (zeros3 0)
      (set_coords (_empty_coords n)
      (set_atomtype (_empty_object n)
      (set_masses (_empty_float n)
      (set_charge (_empty_float n)
      (set_element (_empty_object n)
      (set_segid (_empty_object n)
      (set_beta (_empty_float n)
      (set_occupancy (_empty_float n)
      (set_insertion (_empty_object n)
      (set_resid (_empty_int n)
      (set_chain (_empty_object n)
      (set_resname (_empty_object n)
      (set_altloc (_empty_object n)
      (set_name (_empty_object n)
      (set_serial (_empty_serial n)
      (set_record (_empty_record n) self))))))))))))))))).
Proof. reflexivity. Qed.

(** [empty(numAtoms)] gives every per-atom field and the coordinates
    [numAtoms] rows and no frame: the atoms are records "ATOM" with serial
    numbers 1, 2, ... and empty names; the bonds and the frame pointer are
    those the object had.  On a new Molecule the result satisfies the
    invariants of the data model. *)
Theorem empty_is_aligned :
  (forall (self : Molecule) (n : nat),
      exists m,
        empty n self = Ok tt m
        /\ numAtoms m = n /\ numFrames m = 0
        /\ atom_fields_aligned m
        /\ length (cdata (coords m)) = n
        /\ (forall i, i < n ->
              nth_error (serial m) i = Some (Z.of_nat i + 1)%Z
              /\ nth_error (record m) i = Some "ATOM"
              /\ nth_error (name m) i = Some "")
        /\ bonds m = bonds self /\ bondtype m = bondtype self
        /\ _frame m = _frame self)
  /\ (forall n, invariant (state_of (empty n Molecule_init))).
Proof.
  assert (G : forall (self : Molecule) (n : nat),
             exists m,
               empty n self = Ok tt m
               /\ numAtoms m = n /\ numFrames m = 0
               /\ atom_fields_aligned m
               /\ length (cdata (coords m)) = n
               /\ (forall i, i < n ->
                     nth_error (serial m) i = Some (Z.of_nat i + 1)%Z
                     /\ nth_error (record m) i = Some "ATOM"
                     /\ nth_error (name m) i = Some "")
               /\ bonds m = bonds self /\ bondtype m = bondtype self
               /\ _frame m = _frame self
               /\ angles m = angles self /\ dihedrals m = dihedrals self
               /\ impropers m = impropers self).
  { intros self n. eexists. split; [apply empty_run|].
    destruct self. norm_state.
    assert (Hn : numAtoms
                   (mkMolecule (_empty_record n) (_empty_serial n) (_empty_object n)
                      (_empty_object n) (_empty_object n) (_empty_object n)
                      (_empty_int n) (_empty_object n) (_empty_float n)
                      (_empty_float n) (_empty_object n) (_empty_object n)
                      (_empty_float n) (_empty_float n) (_empty_object n)
                      bonds0 bondtype0 angles0 dihedrals0 impropers0 crystalinfo0
                      (_empty_coords n) (zeros3 0) boxangles0 fileloc0 step0 time0
                      _frame0 topoloc0 viewname0) = n).
    { unfold numAtoms, _numAtomsTopo, _numAtomsTraj. norm_state.
      unfold _empty_record, _empty_coords. norm_state.
      rewrite !repeat_length. destruct n; reflexivity. }
    split; [exact Hn|]. split; [reflexivity|]. split.
    { unfold atom_fields_aligned. cbv zeta. rewrite Hn. norm_state.
      unfold _empty_record, _empty_serial, _empty_object, _empty_int, _empty_float.
      rewrite !repeat_length, serial_arange_length. repeat split. }
    split.
    { unfold _empty_coords. norm_state. apply repeat_length. }
    split.
    { intros i Hi. unfold _empty_record, _empty_serial, _empty_object.
      rewrite serial_arange_nth, !nth_error_repeat_lt by exact Hi.
      repeat split. }
    repeat split. }
  split.
  - intros self n. destruct (G self n) as (m & H). exists m.
    decompose [and] H. repeat (split; [assumption|]). assumption.
  - intros n. destruct (G Molecule_init n)
      as (m & E & Hn & _ & Hal & Hc & _ & B & _ & _ & A & D & I).
    rewrite E. cbn [state_of]. split; [exact Hal|]. split.
    + unfold endpoints_valid. rewrite B, A, D, I. cbn.
      repeat split; constructor.
    + left. rewrite Hc, Hn. reflexivity.
Qed.

(** ** remove and filter *)

Lemma where_from_repeat_false (k n : nat) : where_from k (repeat false n) = [].
Proof.
  revert k. induction n as [|n IH]; intros k; [reflexivity|]. cbn. apply IH.
Qed.

Lemma where_from_NoDup (k : nat) (mask : list bool) : NoDup (where_from k mask).
Proof.
  revert k. induction mask as [|b r IH]; intros k; [constructor|].
  cbn. destruct b; [|apply IH]. constructor; [|apply IH].
  intros H. apply where_from_ge in H. lia.
Qed.

Lemma where_from_lt (k : nat) (mask : list bool) :
  Forall (fun i => i < k + length mask) (where_from k mask).
Proof.
  revert k. induction mask as [|b r IH]; intros k; [constructor|].
  cbn [where_from length]. specialize (IH (S k)).
  assert (H : Forall (fun i => i < k + S (length r)) (where_from (S k) r)).
  { eapply Forall_impl; [|exact IH]. cbv beta. intros; lia. }
  destruct b; [constructor; [lia|exact H]|exact H].
Qed.

Lemma where_from_negb_all (k : nat) (mask : list bool) :
  forallb (fun x => x) mask = true -> where_from k (map negb mask) = [].
Proof.
  revert k. induction mask as [|b r IH]; intros k H; [reflexivity|].
  cbn in H. apply andb_true_iff in H as [-> H]. cbn. apply IH, H.
Qed.

Lemma drop_at_cons_lt {A} (j k : nat) (idx : list nat) (l : list A) :
  j < k -> drop_at k (j :: idx) l = drop_at k idx l.
Proof.
  revert k. induction l as [|x r IH]; intros k Hj; [reflexivity|].
  cbn [drop_at]. unfold memb at 1. cbn [existsb].
  replace (k =? j) with false by (symmetry; apply Nat.eqb_neq; lia).
  cbn [orb]. fold (memb k idx). rewrite IH by lia. reflexivity.
Qed.

(** deleting the rows a mask leaves out keeps the rows the mask selects *)
Lemma drop_at_where_negb {A} (mask : list bool) : forall (l : list A) k,
  length l = length mask ->
  drop_at k (where_from k (map negb mask)) l = compress mask l.
Proof.
  induction mask as [|b r IH]; intros l k HL.
  - destruct l; [reflexivity|discriminate].
  - destruct l as [|x l]; [discriminate|]. injection HL as HL.
    cbn [map where_from drop_at compress]. destruct b; cbn [negb].
    + replace (memb k (where_from (S k) (map negb r))) with false.
      * rewrite IH by exact HL. reflexivity.
      * symmetry. apply memb_false. intros H. apply where_from_ge in H. lia.
    + replace (memb k (k :: where_from (S k) (map negb r))) with true
        by (symmetry; apply memb_In; left; reflexivity).
      rewrite drop_at_cons_lt by lia. apply IH, HL.
Qed.

Lemma where_from_complement (k : nat) (mask : list bool) :
  length (where_from k mask) + length (where_from k (map negb mask))
  = length mask.
Proof.
  revert k. induction mask as [|b r IH]; intros k; [reflexivity|].
  cbn. specialize (IH (S k)). destruct b; cbn; lia.
Qed.

Lemma delete_rows_nil (m : Molecule) : delete_rows [] m = Ok tt m.
Proof.
  destruct m. destruct coords0. unfold delete_rows.
  do 15 (erewrite bind_Ok;
         [| apply (delete_field_run _ _ [] _ _ (Forall_nil _) eq_refl)];
         norm_state; rewrite drop_at_nil).
  rewrite (delete_coords_run [] _ _ (Forall_nil _) eq_refl).
  norm_state. rewrite drop_at_nil. reflexivity.
Qed.

Lemma remove_nil (m : Molecule) : remove (SelIdx []) m = Ok [] m.
Proof.
  unfold remove.
  assert (Hs : atomselect_idx (SelIdx []) m = Ok [] m) by reflexivity.
  assert (Hu : _updateBondsAnglesDihedrals [] m = Ok tt m) by reflexivity.
  rewrite (bind_Ok _ _ _ _ _ Hs), (bind_Ok _ _ _ _ _ Hu),
    (bind_Ok _ _ _ _ _ (delete_rows_nil m)).
  reflexivity.
Qed.

Lemma remove_mask (m : Molecule) (s : list bool) :
  remove (SelMask s) m = remove (SelIdx (where_ s)) m.
Proof. reflexivity. Qed.

(** remove with a selection that holds no atom (an empty array of indices,
    or a mask that is false everywhere) returns an empty array and leaves
    every field of the Molecule as it was. *)
Theorem remove_of_no_atom_changes_nothing (m : Molecule) (k : nat) :
  remove (SelIdx []) m = Ok [] m
  /\ remove (SelMask (repeat false k)) m = Ok [] m.
Proof.
  split; [apply remove_nil|].
  rewrite remove_mask. unfold where_. rewrite where_from_repeat_false.
  apply remove_nil.
Qed.

(** filter with a mask over the atoms deletes the atoms the mask leaves
    out, through remove of the inverted mask: it returns their indices, the
    per-atom fields and the coordinates keep the selected rows in their order,
    the connectivity is remapped as by remove, and the endpoints stay valid.
    When the mask selects every atom nothing changes. *)
Theorem filter_keeps_selected (m : Molecule) (mask : list bool) :
  atom_fields_aligned m -> endpoints_valid m ->
  length (cdata (coords m)) = numAtoms m ->
  bondtype m = [] \/ length (bondtype m) = length (bonds m) ->
  length mask = numAtoms m ->
  exists m',
    filter_ (SelMask mask) m = Ok (where_ (map negb mask)) m'
    /\ (forallb (fun x => x) mask = true -> m' = m)
    /\ numAtoms m' = length (where_ mask)
    /\ atoms_deleted (where_ (map negb mask)) m m'
    /\ name m' = compress mask (name m)
    /\ serial m' = compress mask (serial m)
    /\ cdata (coords m') = compress mask (cdata (coords m))
    /\ bonds m' = remap_rows (where_ (map negb mask)) (bonds m)
    /\ bondtype m' = keep_types (where_ (map negb mask)) (bonds m) (bondtype m)
    /\ endpoints_valid m'.
Proof.
  intros Hal Hev Hc Hbt Hm.
  set (idx := where_ (map negb mask)).
  assert (Hnd : NoDup idx) by apply where_from_NoDup.
  assert (Hin : Forall (fun i => i < numAtoms m) idx).
  { rewrite <- Hm. rewrite <- (length_map negb mask).
    exact (where_from_lt 0 (map negb mask)). }
  destruct (remove_ok m idx Hal Hev Hc Hbt Hnd Hin)
    as (m1 & m' & _ & _ & Hrem & B & T & A & D & I & Hat).
  pose proof (numAtoms_after_delete m m' idx Hal Hc Hnd Hin Hat) as Hn.
  assert (Hall : forallb (fun x => x) mask = true -> m' = m).
  { intros Ht. unfold idx, where_ in Hrem.
    rewrite (where_from_negb_all 0 mask Ht), remove_nil in Hrem.
    injection Hrem as <-. reflexivity. }
  exists m'. split.
  { unfold filter_.
    assert (Hs : atomselect (SelMask mask) false m = Ok (Mask mask) m) by reflexivity.
    rewrite (bind_Ok _ _ _ _ _ Hs).
    destruct (forallb (fun x => x) mask) eqn:Eall.
    - rewrite (Hall eq_refl). unfold idx, where_.
      rewrite (where_from_negb_all 0 mask Eall). reflexivity.
    - rewrite remove_mask. exact Hrem. }
  split; [exact Hall|]. split.
  { rewrite Hn. unfold idx, where_.
    pose proof (where_from_complement 0 mask). lia. }
  split; [exact Hat|].
  unfold atom_fields_aligned in Hal. cbv zeta in Hal.
  destruct Hal as (_ & Hser & Hname & _).
  unfold atoms_deleted in Hat.
  destruct Hat as (_ & Es & En & _ & _ & _ & _ & _ & _ & _ & _ & _ & _ & _ & _ & Ec & _).
  split; [rewrite En; apply drop_at_where_negb; congruence|].
  split; [rewrite Es; apply drop_at_where_negb; congruence|].
  split; [rewrite Ec; apply drop_at_where_negb; congruence|].
  split; [exact B|]. split; [exact T|].
  destruct Hev as (Hb & Ha & Hd & Hi).
  unfold endpoints_valid. rewrite Hn, B, A, D, I.
  repeat split; apply remap_rows_below; assumption.
Qed.

Lemma filter_keeps_selected_witness :
  exists m',
    filter_ (SelMask [true; true; false; true; true; false; true; true]) scenario_A
    = Ok [2; 5] m'
    /\ name m' = ["C1"; "C3"; "O"; "S"; "H3"; "H1"]
    /\ bonds m' = [[0; 2]; [1; 3]].
Proof.
  destruct (filter_keeps_selected scenario_A
              [true; true; false; true; true; false; true; true])
    as (m' & Hf & _ & _ & _ & Hn & _ & _ & B & _).
  - unfold atom_fields_aligned; cbn; repeat split.
  - apply invariant_scenario_A.
  - reflexivity.
  - right. reflexivity.
  - reflexivity.
  - exists m'. split; [exact Hf|]. rewrite Hn, B.
    split; vm_compute; reflexivity.
Defined.

(** filter with an array of indices instead of a mask: when no index is 0
    the test [np.all(s)] holds and nothing is removed, whatever the indices
    are; when an index is 0 the call raises NameError.  The Molecule is
    unchanged in both cases. *)
Theorem filter_of_index_array (m : Molecule) (l : list nat) :
  filter_ (SelIdx l) m
  = if existsb (Nat.eqb 0) l
    then Raise (NameError "Filter can only work with string inputs or boolean arrays") m
    else Ok [] m.
Proof.
  unfold filter_.
  assert (Hs : atomselect (SelIdx l) false m = Ok (Idx l) m) by reflexivity.
  unfold bind. rewrite Hs. clear Hs.
  replace (forallb (fun i => negb (i =? 0)) l) with (negb (existsb (Nat.eqb 0) l)).
  - destruct (existsb (Nat.eqb 0) l); reflexivity.
  - induction l as [|i r IH]; [reflexivity|].
    cbn [existsb forallb]. rewrite <- IH, negb_orb, (Nat.eqb_sym 0 i).
    reflexivity.
Qed.

(** ** deleteBonds *)

(** whether a bond row is to be deleted for the atoms [sel] *)
Definition hits (inter : bool) (sel : list nat) (r : list nat) : bool :=
  if inter then memb (nth 0 r 0) sel || memb (nth 1 r 0) sel
  else memb (nth 0 r 0) sel && memb (nth 1 r 0) sel.

Lemma drop_at_where {A} (mask : list bool) (l : list A) :
  length l = length mask ->
  drop_at 0 (where_ mask) l = compress (map negb mask) l.
Proof.
  intros HL. unfold where_.
  rewrite <- (drop_at_where_negb (map negb mask) l 0)
    by (rewrite length_map; exact HL).
  rewrite map_map.
  replace (map (fun x => negb (negb x)) mask) with mask; [reflexivity|].
  rewrite <- (map_id mask) at 1. apply map_ext. intros []; reflexivity.
Qed.

Lemma delete_where {A} (mask : list bool) (l : list A) :
  length l = length mask ->
  Np.delete l (where_ mask) = Val (compress (map negb mask) l).
Proof.
  intros HL. rewrite (delete_ok (length mask) (where_ mask) l).
  - rewrite drop_at_where by exact HL. reflexivity.
  - exact (where_from_lt 0 mask).
  - exact HL.
Qed.

Lemma compress_length {A B} (mask : list bool) (l : list A) (l' : list B) :
  length l = length l' -> length (compress mask l) = length (compress mask l').
Proof.
  revert l l'. induction mask as [|b r IH]; intros l l' H; [reflexivity|].
  destruct l, l'; try discriminate; [reflexivity|].
  injection H as H. cbn. destruct b; cbn; rewrite (IH l l' H); reflexivity.
Qed.

Lemma compress_filter {A} (p : A -> bool) (l : list A) :
  compress (map p l) l = filter p l.
Proof.
  induction l as [|x r IH]; [reflexivity|]. cbn.
  destruct (p x); rewrite IH; reflexivity.
Qed.

Lemma rows_below_filter (n : nat) (p : list nat -> bool) (rows : list (list nat)) :
  rows_below n rows -> rows_below n (filter p rows).
Proof.
  unfold rows_below. rewrite !Forall_forall. intros H r Hr.
  apply filter_In in Hr. apply H, Hr.
Qed.

Lemma set_bonds_bondtype_fields (b : list (list nat)) (t : list string)
    (m : Molecule) :
  let m' := set_bondtype t (set_bonds b m) in
  bonds m' = b /\ bondtype m' = t /\ bondtype (set_bonds b m) = bondtype m
  /\ angles m' = angles m /\ dihedrals m' = dihedrals m
  /\ impropers m' = impropers m /\ numAtoms m' = numAtoms m.
Proof. destruct m. cbv zeta. repeat split. Qed.

(** deleteBonds for a non-empty array of atoms, on a Molecule with a bond
    type per bond: with [inter] the bonds with an endpoint among the atoms
    are deleted, without it the bonds with both endpoints among them; the
    bond types are deleted with their rows, and nothing else changes, the
    angles, dihedrals and impropers of the deleted bonds included. *)
Theorem deleteBonds_deletes_rows_and_types (m : Molecule) (sel : list nat)
    (inter : bool) :
  sel <> [] ->
  length (bondtype m) = length (bonds m) ->
  let keeps := fun r => negb (hits inter sel r) in
  exists m',
    deleteBonds (SelIdx sel) inter m = Ok tt m'
    /\ m' = set_bondtype (compress (map keeps (bonds m)) (bondtype m))
              (set_bonds (filter keeps (bonds m)) m)
    /\ bonds m' = filter keeps (bonds m)
    /\ length (bondtype m') = length (bonds m')
    /\ angles m' = angles m /\ dihedrals m' = dihedrals m
    /\ impropers m' = impropers m
    /\ numAtoms m' = numAtoms m
    /\ (endpoints_valid m -> endpoints_valid m').
Proof.
  intros Hne Hbt keeps.
  set (todel := map (hits inter sel) (bonds m)).
  assert (Hk : map negb todel = map keeps (bonds m))
    by (unfold todel; rewrite map_map; reflexivity).
  assert (Hb : Np.delete (bonds m) (where_ todel) = Val (filter keeps (bonds m))).
  { rewrite delete_where by (unfold todel; rewrite length_map; reflexivity).
    rewrite Hk, compress_filter. reflexivity. }
  assert (Ht : Np.delete (bondtype m) (where_ todel)
               = Val (compress (map keeps (bonds m)) (bondtype m))).
  { rewrite delete_where by (unfold todel; rewrite length_map; exact Hbt).
    rewrite Hk. reflexivity. }
  destruct (set_bonds_bondtype_fields (filter keeps (bonds m))
              (compress (map keeps (bonds m)) (bondtype m)) m)
    as (Eb & Et & Et0 & Ea & Ed & Ei & En).
  eexists. split.
  { unfold deleteBonds.
    assert (Hs : atomselect_idx (SelIdx sel) m = Ok sel m) by reflexivity.
    rewrite (bind_Ok _ _ _ _ _ Hs).
    replace (length sel =? 0) with false
      by (symmetry; apply Nat.eqb_neq; destruct sel; [congruence|discriminate]).
    unfold bind, gets, lift, modify.
    fold (hits inter sel). fold todel. rewrite Hb. unfold ret. cbv beta iota.
    rewrite Et0, Ht. reflexivity. }
  split; [reflexivity|].
  split; [exact Eb|].
  split.
  { rewrite Et, Eb, <- compress_filter. apply compress_length. exact Hbt. }
  split; [exact Ea|]. split; [exact Ed|]. split; [exact Ei|].
  split; [exact En|].
  intros (Hvb & Hva & Hvd & Hvi). unfold endpoints_valid.
  rewrite En, Eb, Ea, Ed, Ei.
  repeat split; try assumption. apply rows_below_filter. exact Hvb.
Qed.

Lemma deleteBonds_deletes_rows_and_types_witness :
  exists m',
    deleteBonds (SelIdx [4; 7]) true scenario_A = Ok tt m'
    /\ bonds m' = [[0; 3]] /\ bondtype m' = ["un"]
    /\ angles m' = angles scenario_A.
Proof.
  destruct (deleteBonds_deletes_rows_and_types scenario_A [4; 7] true)
    as (m' & Hd & E & _ & _ & A & _).
  - discriminate.
  - reflexivity.
  - exists m'. split; [exact Hd|]. rewrite A, E.
    repeat split; vm_compute; reflexivity.
Defined.

(** ** dropFrames *)

Lemma set_frame_checked_0 (s : Molecule) :
  set_frame_checked 0 s = Ok tt (set_frame 0%Z s).
Proof.
  unfold set_frame_checked. destruct (numFrames s); reflexivity.
Qed.

Lemma pick_seq {A} (l : list A) : pick (seq 0 (length l)) l = l.
Proof.
  unfold pick.
  assert (G : forall (p : list A) (r : list A),
             flat_map (fun i => match nth_error (p ++ r) i with
                                | Some x => [x]
                                | None => []
                                end) (seq (length p) (length r)) = r).
  { intros p r. revert p. induction r as [|x r IH]; intros p; [reflexivity|].
    cbn [length seq flat_map].
    rewrite nth_error_app2, Nat.sub_diag by lia. cbn [nth_error app].
    f_equal. specialize (IH (p ++ [x])).
    rewrite <- app_assoc, length_app in IH. cbn in IH.
    rewrite Nat.add_1_r in IH. exact IH. }
  exact (G [] l).
Qed.

(** a sequence that [dropFrames] can index by the frames to keep: an
    array, or a Python list that has not one entry per frame and is left as
    it is *)
Definition indexable {A} (s : pyseq A) (n : nat) : Prop :=
  length (items s) = n -> exists l, s = NdArray l.

Lemma dropFrames_run (m : Molecule) (keep : list nat) :
  Forall (fun i => i < numFrames m) keep ->
  indexable (step m) (numFrames m) -> indexable (time m) (numFrames m) ->
  exists m',
    dropFrames (Keep keep) m = Ok tt m'
    /\ numFrames m' = length keep
    /\ _frame m' = 0%Z
    /\ cdata (coords m') = map (map (pick keep)) (cdata (coords m))
    /\ (length (items (step m)) = numFrames m ->
        step m' = NdArray (pick keep (items (step m))))
    /\ (length (items (time m)) = numFrames m ->
        time m' = NdArray (pick keep (items (time m))))
    /\ (shape1 (box m) = numFrames m -> box m' = map (pick keep) (box m))
    /\ numAtoms m' = numAtoms m
    /\ name m' = name m /\ serial m' = serial m /\ bonds m' = bonds m.
Proof.
  intros H Hst Htm. destruct m. destruct coords0 as [cd cf].
  unfold numFrames, indexable in *. norm_state_all.
  assert (Hc : forallb (fun i => i <? cf) keep = true).
  { apply forallb_forall. intros i Hi. apply Nat.ltb_lt.
    rewrite Forall_forall in H. exact (H i Hi). }
  assert (Hst' : (length (items step0) =? cf) = false
                 \/ exists l, step0 = NdArray l /\ length l = cf).
  { destruct (length (items step0) =? cf) eqn:E; [right|left; reflexivity].
    apply Nat.eqb_eq in E. destruct (Hst E) as (l & ->). exists l.
    split; [reflexivity|exact E]. }
  assert (Htm' : (length (items time0) =? cf) = false
                 \/ exists l, time0 = NdArray l /\ length l = cf).
  { destruct (length (items time0) =? cf) eqn:E; [right|left; reflexivity].
    apply Nat.eqb_eq in E. destruct (Htm E) as (l & ->). exists l.
    split; [reflexivity|exact E]. }
  clear Hst Htm.
  unfold dropFrames, bind, gets, numFrames. norm_state. rewrite Hc.
  unfold modify, ret. cbv beta iota. norm_state.
  destruct (shape1 box0 =? cf) eqn:E1; cbv beta iota; norm_state;
    destruct (shape1 boxangles0 =? cf) eqn:E2; cbv beta iota; norm_state;
    (destruct Hst' as [E3|(sl & -> & E3)];
     [rewrite E3
     |cbn [items]; rewrite E3, Nat.eqb_refl; unfold index_seq, modify]);
    cbv beta iota; norm_state;
    (destruct Htm' as [E4|(tl & -> & E4)];
     [rewrite E4
     |cbn [items]; rewrite E4, Nat.eqb_refl; unfold index_seq, modify]);
    cbv beta iota; norm_state;
    destruct (length fileloc0 =? cf) eqn:E5; cbv beta iota; norm_state;
    rewrite set_frame_checked_0; norm_state;
    (eexists; split; [reflexivity|]);
    unfold numAtoms, _numAtomsTopo, _numAtomsTraj; norm_state;
    rewrite ?length_map;
    repeat split; try reflexivity; intros Hx;
    try (apply Nat.eqb_neq in E1; contradiction);
    try (apply Nat.eqb_neq in E3; contradiction);
    try (apply Nat.eqb_neq in E4; contradiction).
Qed.

(** dropFrames with the frames to keep, all of them frames of the
    Molecule, when the steps and the times are arrays (or lists that have not
    one entry per frame): the coordinates of every atom keep the chosen frames
    in the order given, the number of frames is the number of indices, the
    frame pointer is reset to 0 and the atoms and bonds are untouched.  The
    box, the steps and the times follow when they have one entry per
    frame. *)
Theorem dropFrames_keeps_chosen_frames (m : Molecule) (keep : list nat) :
  Forall (fun i => i < numFrames m) keep ->
  indexable (step m) (numFrames m) -> indexable (time m) (numFrames m) ->
  exists m',
    dropFrames (Keep keep) m = Ok tt m'
    /\ numFrames m' = length keep
    /\ _frame m' = 0%Z
    /\ cdata (coords m') = map (map (pick keep)) (cdata (coords m))
    /\ (length (items (step m)) = numFrames m ->
        step m' = NdArray (pick keep (items (step m))))
    /\ (length (items (time m)) = numFrames m ->
        time m' = NdArray (pick keep (items (time m))))
    /\ (shape1 (box m) = numFrames m -> box m' = map (pick keep) (box m))
    /\ numAtoms m' = numAtoms m
    /\ name m' = name m /\ serial m' = serial m /\ bonds m' = bonds m.
Proof. apply dropFrames_run. Qed.

Lemma dropFrames_keeps_chosen_frames_witness :
  exists m',
    dropFrames (Keep [1]) two_frames = Ok tt m'
    /\ numFrames m' = 1 /\ _frame m' = 0%Z
    /\ cdata (coords m') = [[[fzero]; [fzero]; [fzero]]].
Proof.
  destruct (dropFrames_keeps_chosen_frames two_frames [1])
    as (m' & Hd & Hn & Hf & Hc & _).
  - repeat constructor.
  - intros H. discriminate H.
  - intros H. discriminate H.
  - exists m'. split; [exact Hd|]. split; [exact Hn|]. split; [exact Hf|].
    rewrite Hc. reflexivity.
Defined.

(** dropFrames on a Molecule whose steps are still the Python list of
    [__init__], with one entry per frame (none, when there is no frame):
    indexing the list by the list of frames raises TypeError, after the
    coordinates and the box have been replaced and before the frame pointer is
    reset.  So it is for a new Molecule. *)
Theorem dropFrames_of_list_steps_raises (m : Molecule) (keep : list nat)
    (l : list Z) :
  Forall (fun i => i < numFrames m) keep ->
  step m = PyList l -> length l = numFrames m ->
  exists m0,
    dropFrames (Keep keep) m = Raise TypeError m0
    /\ numFrames m0 = length keep
    /\ cdata (coords m0) = map (map (pick keep)) (cdata (coords m))
    /\ step m0 = step m /\ time m0 = time m
    /\ _frame m0 = _frame m.
Proof.
  intros H Hst Hl. destruct m. destruct coords0 as [cd cf].
  unfold numFrames in *. norm_state_all. subst step0.
  assert (Hc : forallb (fun i => i <? cf) keep = true).
  { apply forallb_forall. intros i Hi. apply Nat.ltb_lt.
    rewrite Forall_forall in H. exact (H i Hi). }
  unfold dropFrames, bind, gets, numFrames. norm_state. rewrite Hc.
  unfold modify, ret. cbv beta iota. norm_state.
  destruct (shape1 box0 =? cf); cbv beta iota; norm_state;
    destruct (shape1 boxangles0 =? cf); cbv beta iota; norm_state;
    cbn [items]; rewrite Hl, Nat.eqb_refl; unfold index_seq, raise;
    (eexists; split; [reflexivity|]); norm_state;
    rewrite ?length_map; repeat split.
Qed.

Lemma dropFrames_of_list_steps_raises_witness :
  exists m0,
    dropFrames (Keep []) Molecule_init = Raise TypeError m0
    /\ numFrames m0 = 0 /\ _frame m0 = 0%Z.
Proof.
  destruct (dropFrames_of_list_steps_raises Molecule_init [] [])
    as (m0 & E & Hn & _ & _ & _ & Hf).
  - constructor.
  - reflexivity.
  - reflexivity.
  - exists m0. split; [exact E|]. split; [exact Hn|exact Hf].
Defined.

(** dropFrames with an index that is not a frame raises IndexError on the
    indexing of the coordinates, the first assignment of the method: the
    Molecule keeps its frames and its frame pointer. *)
Theorem dropFrames_index_out_of_range (m : Molecule) (keep : list nat) (i : nat) :
  In i keep -> numFrames m <= i ->
  dropFrames (Keep keep) m = Raise IndexError m.
Proof.
  intros Hin Hi.
  assert (Hc : forallb (fun j => j <? cframes (coords m)) keep = false).
  { destruct (forallb _ keep) eqn:E; [|reflexivity].
    rewrite forallb_forall in E. specialize (E i Hin).
    apply Nat.ltb_lt in E. unfold numFrames in Hi. lia. }
  unfold dropFrames, bind, gets. rewrite Hc. reflexivity.
Qed.

Lemma dropFrames_index_out_of_range_witness :
  dropFrames (Keep [0; 2]) two_frames = Raise IndexError two_frames.
Proof.
  apply (dropFrames_index_out_of_range two_frames [0; 2] 2).
  - right. left. reflexivity.
  - cbn. lia.
Defined.

Lemma filter_partition_length {A} (p : A -> bool) (l : list A) :
  length (filter (fun x => negb (p x)) l) + length (filter p l) = length l.
Proof.
  induction l as [|x r IH]; [reflexivity|]. cbn.
  destruct (p x); cbn; lia.
Qed.

(** dropFrames with the frames to drop keeps the other frames in ascending
    order: when the steps and the times are arrays (or lists that have not one
    entry per frame) it returns for every array of indices, frames or not, the
    number of frames goes down by the number of frames named, and the frame
    pointer is reset to 0. *)
Theorem dropFrames_drop_keeps_the_rest (m : Molecule) (d : list nat) :
  indexable (step m) (numFrames m) -> indexable (time m) (numFrames m) ->
  exists m',
    dropFrames (Drop d) m = Ok tt m'
    /\ dropFrames (Keep (filter (fun i => negb (memb i d)) (seq 0 (numFrames m)))) m
       = Ok tt m'
    /\ numFrames m' + length (filter (fun i => memb i d) (seq 0 (numFrames m)))
       = numFrames m
    /\ _frame m' = 0%Z
    /\ numAtoms m' = numAtoms m.
Proof.
  intros Hst Htm.
  destruct (dropFrames_run m
              (filter (fun i => negb (memb i d)) (seq 0 (numFrames m))))
    as (m' & Hd & Hn & Hf & _ & _ & _ & _ & Ha & _).
  { apply Forall_forall. intros i Hi. apply filter_In in Hi as [Hi _].
    apply in_seq in Hi. lia. }
  { exact Hst. }
  { exact Htm. }
  exists m'. split; [exact Hd|]. split; [exact Hd|].
  split; [|split; [exact Hf|exact Ha]].
  rewrite Hn, filter_partition_length, length_seq. reflexivity.
Qed.

Lemma dropFrames_drop_keeps_the_rest_witness :
  exists m',
    dropFrames (Drop [0; 7]) two_frames = Ok tt m'
    /\ numFrames m' = 1 /\ _frame m' = 0%Z.
Proof.
  destruct (dropFrames_drop_keeps_the_rest two_frames [0; 7])
    as (m' & Hd & _ & Hn & Hf & _).
  - intros H. discriminate H.
  - intros H. discriminate H.
  - exists m'. split; [exact Hd|]. split; [|exact Hf].
    cbn in Hn. lia.
Defined.

(** ** The trajectory merge *)

Lemma _mergeTrajectories_preserves {B} (p : Molecule -> B) newmols skip append_ :
  (forall v s, p (set_coords v s) = p s) ->
  (forall v s, p (set_box v s) = p s) ->
  (forall v s, p (set_boxangles v s) = p s) ->
  (forall v s, p (set_fileloc v s) = p s) ->
  (forall v s, p (set_step v s) = p s) ->
  (forall v s, p (set_time v s) = p s) ->
  preserves p (_mergeTrajectories newmols skip append_).
Proof.
  intros H1 H2 H3 H4 H5 H6.
  unfold _mergeTrajectories, _emptyTraj.
  repeat first
    [ preserves_step
    | apply preserves_modify; intros ?;
      first [apply H1 | apply H2 | apply H3 | apply H4 | apply H5 | apply H6] ].
Qed.

(** The trajectory merge assigns the coordinates, the box, its angles, the
    steps, the times and the file locations, and nothing else: when it
    returns, the frame pointer, every per-atom field and the connectivity
    are those of before, whatever the sources, the stride and the mode. *)
Theorem _mergeTrajectories_assigns_trajectory_only
    (newmols : list Molecule) (skip : option nat) (append_ : bool)
    (m m' : Molecule) :
  _mergeTrajectories newmols skip append_ m = Ok tt m' ->
  _frame m' = _frame m
  /\ record m' = record m /\ serial m' = serial m /\ name m' = name m
  /\ altloc m' = altloc m /\ resname m' = resname m /\ chain m' = chain m
  /\ resid m' = resid m /\ insertion m' = insertion m
  /\ occupancy m' = occupancy m /\ beta m' = beta m /\ segid m' = segid m
  /\ element m' = element m /\ charge m' = charge m /\ masses m' = masses m
  /\ atomtype m' = atomtype m
  /\ bonds m' = bonds m /\ bondtype m' = bondtype m /\ angles m' = angles m
  /\ dihedrals m' = dihedrals m /\ impropers m' = impropers m.
Proof.
  intros H.
  assert (P : forall B (p : Molecule -> B),
             (forall v s, p (set_coords v s) = p s) ->
             (forall v s, p (set_box v s) = p s) ->
             (forall v s, p (set_boxangles v s) = p s) ->
             (forall v s, p (set_fileloc v s) = p s) ->
             (forall v s, p (set_step v s) = p s) ->
             (forall v s, p (set_time v s) = p s) -> p m' = p m).
  { intros B0 p H1 H2 H3 H4 H5 H6.
    exact (_mergeTrajectories_preserves p newmols skip append_
             H1 H2 H3 H4 H5 H6 _ _ _ H). }
  repeat split; apply P; intros; reflexivity.
Qed.

Lemma _mergeTrajectories_assigns_trajectory_only_witness :
  exists m',
    _mergeTrajectories [one_frame_traj] None false two_frames = Ok tt m'
    /\ _frame m' = 1%Z /\ numFrames m' = 1 /\ name m' = name two_frames.
Proof.
  assert (E : exists m',
             _mergeTrajectories [one_frame_traj] None false two_frames = Ok tt m'
             /\ numFrames m' = 1)
    by (eexists; split; vm_compute; reflexivity).
  destruct E as (m' & E & Hn). exists m'. split; [exact E|].
  destruct (_mergeTrajectories_assigns_trajectory_only _ _ _ _ _ E)
    as (Hf & _ & _ & Hname & _).
  split; [rewrite Hf; reflexivity|]. split; [exact Hn|exact Hname].
Defined.

(** the number of rows a stride leaves, and where they come from *)
Lemma stride_from_length {A} (skip : nat) (l : list A) : forall k,
  0 < skip ->
  length (stride_from k skip l)
  = if length l <=? k then 0 else S ((length l - k - 1) / skip).
Proof.
  induction l as [|x r IH]; intros k Hs; [reflexivity|].
  cbn [stride_from length]. destruct k as [|k'].
  - cbn [Nat.leb length]. rewrite IH by exact Hs. f_equal.
    replace (S (length r) - 0 - 1) with (length r) by lia.
    destruct (length r <=? pred skip) eqn:E.
    + apply Nat.leb_le in E. symmetry. apply Nat.div_small. lia.
    + apply Nat.leb_gt in E.
      replace (length r) with ((length r - pred skip - 1) + 1 * skip) at 2 by lia.
      rewrite Nat.div_add by lia. lia.
  - rewrite IH by exact Hs. cbn [Nat.leb]. reflexivity.
Qed.

Lemma stride_from_nth {A} (skip : nat) (l : list A) : forall k j,
  0 < skip ->
  nth_error (stride_from k skip l) j = nth_error l (k + j * skip).
Proof.
  induction l as [|x r IH]; intros k j Hs.
  - cbn. destruct j, (k + _); reflexivity.
  - cbn [stride_from]. destruct k as [|k'].
    + destruct j as [|j']; [reflexivity|].
      cbn [nth_error]. rewrite IH by exact Hs.
      replace (0 + S j' * skip) with (S (pred skip + j' * skip)) by lia.
      reflexivity.
    + rewrite IH by exact Hs. reflexivity.
Qed.

Lemma stride_length {A} (skip : nat) (l : list A) :
  0 < skip -> length (stride skip l) = (length l + skip - 1) / skip.
Proof.
  intros Hs. unfold stride. rewrite stride_from_length by exact Hs.
  destruct l as [|x r]; cbn [length Nat.leb].
  - symmetry. apply Nat.div_small. lia.
  - replace (S (length r) - 0 - 1) with (length r) by lia.
    replace (S (length r) + skip - 1) with (length r + 1 * skip) by lia.
    rewrite Nat.div_add by lia. lia.
Qed.

(** the first steps of the proofs below: the one source has a trajectory *)
Ltac merge_one_source Ht' :=
  unfold _mergeTrajectories; unfold bind at 1; unfold gets at 1;
  cbn [andb app filter]; rewrite ?Ht';
  cbn [negb app length Nat.ltb Nat.leb map concat_frames concat_last concat1
       concat filter];
  unfold lift, bind, gets, modify, ret.

(** The trajectory merge of one source that has a trajectory, without
    append: the frames of the Molecule are replaced by those of the source,
    whatever they were.  With no stride the coordinates, box and file
    locations are the source's, and the steps and times are arrays of the
    source's; with a stride of 0 the call raises ValueError after the
    replacement. *)
Theorem _mergeTrajectories_replaces_frames (m mol : Molecule) :
  _numAtomsTraj mol <> 0 ->
  (exists m',
      _mergeTrajectories [mol] None false m = Ok tt m'
      /\ coords m' = coords mol /\ box m' = box mol
      /\ boxangles m' = boxangles mol
      /\ step m' = NdArray (items (step mol))
      /\ time m' = NdArray (items (time mol))
      /\ fileloc m' = fileloc mol
      /\ numFrames m' = numFrames mol)
  /\ (exists m0,
        _mergeTrajectories [mol] (Some 0) false m = Raise ValueError m0
        /\ coords m0 = coords mol /\ name m0 = name m).
Proof.
  intros Ht.
  assert (Ht' : (_numAtomsTraj mol =? 0) = false) by (apply Nat.eqb_neq; exact Ht).
  split.
  - merge_one_source Ht'.
    destruct m, mol. destruct coords0 as [cd0 cf0], coords1 as [cd1 cf1].
    norm_state. unfold _numAtomsTopo, _numAtomsTraj, numFrames in *.
    norm_state_all. rewrite Ht', andb_false_r. cbv beta iota. norm_state.
    eexists. split; [reflexivity|]. norm_state. rewrite !app_nil_r.
    repeat split.
  - merge_one_source Ht'.
    destruct m, mol. destruct coords0 as [cd0 cf0], coords1 as [cd1 cf1].
    norm_state. unfold _numAtomsTopo, _numAtomsTraj in *.
    norm_state_all. rewrite Ht', andb_false_r. cbv beta iota. norm_state.
    unfold raise. eexists. split; [reflexivity|]. norm_state. repeat split.
Qed.

Lemma _mergeTrajectories_replaces_frames_witness :
  (exists m',
      _mergeTrajectories [one_frame_traj] None false two_frames = Ok tt m'
      /\ coords m' = coords one_frame_traj /\ box m' = box one_frame_traj
      /\ boxangles m' = boxangles one_frame_traj
      /\ step m' = NdArray (items (step one_frame_traj))
      /\ time m' = NdArray (items (time one_frame_traj))
      /\ fileloc m' = fileloc one_frame_traj
      /\ numFrames m' = numFrames one_frame_traj)
  /\ (exists m0,
        _mergeTrajectories [one_frame_traj] (Some 0) false two_frames
        = Raise ValueError m0
        /\ coords m0 = coords one_frame_traj /\ name m0 = name two_frames).
Proof.
  apply (_mergeTrajectories_replaces_frames two_frames one_frame_traj).
  discriminate.
Defined.

(** The trajectory merge of one source with a stride: every [skip]-th frame
    of the source is kept, starting with the first, so the number of frames
    is that of the source divided by [skip], rounded up, and entry [j] of
    the steps and times is entry [j * skip] of the source's. *)
Theorem _mergeTrajectories_strides_frames (m mol : Molecule) (skip : nat) :
  _numAtomsTraj mol <> 0 -> 0 < skip ->
  exists m',
    _mergeTrajectories [mol] (Some skip) false m = Ok tt m'
    /\ cdata (coords m') = map (map (stride skip)) (cdata (coords mol))
    /\ numFrames m' = (numFrames mol + skip - 1) / skip
    /\ box m' = map (stride skip) (box mol)
    /\ (forall j, nth_error (items (step m')) j
                  = nth_error (items (step mol)) (j * skip))
    /\ (forall j, nth_error (items (time m')) j
                  = nth_error (items (time mol)) (j * skip))
    /\ length (items (step m')) = (length (items (step mol)) + skip - 1) / skip
    /\ _frame m' = _frame m.
Proof.
  intros Ht Hs.
  assert (Ht' : (_numAtomsTraj mol =? 0) = false) by (apply Nat.eqb_neq; exact Ht).
  destruct skip as [|sk]; [lia|].
  merge_one_source Ht'.
  destruct m, mol. destruct coords0 as [cd0 cf0], coords1 as [cd1 cf1].
  norm_state. unfold _numAtomsTopo, _numAtomsTraj, numFrames in *.
  norm_state_all. rewrite Ht', andb_false_r. cbv beta iota. norm_state.
  eexists. split; [reflexivity|]. norm_state. rewrite !app_nil_r.
  unfold stride_coords. norm_state. cbn [stride_seq items].
  split; [reflexivity|].
  split; [rewrite stride_length, length_seq by exact Hs; reflexivity|].
  split; [reflexivity|].
  split; [intros j; unfold stride; rewrite stride_from_nth by exact Hs; reflexivity|].
  split; [intros j; unfold stride; rewrite stride_from_nth by exact Hs; reflexivity|].
  split; [apply stride_length; exact Hs|reflexivity].
Qed.

(** five frames of one atom, with their steps and times *)
Definition five_frames : Molecule := Eval vm_compute in
  set_time (NdArray [fzero; fzero; fzero; fzero; fzero])
    (set_step (NdArray [0%Z; 10%Z; 20%Z; 30%Z; 40%Z])
       (set_boxangles (zeros3 5)
          (set_box (zeros3 5)
             (set_coords (mkArray3 [repeat (repeat fzero 5) 3] 5) Molecule_init)))).

Lemma _mergeTrajectories_strides_frames_witness :
  exists m',
    _mergeTrajectories [five_frames] (Some 2) false one_atom = Ok tt m'
    /\ numFrames m' = 3
    /\ nth_error (items (step m')) 1 = Some 20%Z
    /\ length (items (step m')) = 3.
Proof.
  destruct (_mergeTrajectories_strides_frames one_atom five_frames 2)
    as (m' & E & _ & Hn & _ & Hst & _ & Hl & _).
  - discriminate.
  - lia.
  - exists m'. split; [exact E|]. split; [exact Hn|].
    split; [rewrite Hst; reflexivity|exact Hl].
Defined.

(** The trajectory merge of one source with append, both with a trajectory
    of the same number of atoms and boxes of the same number of rows: the
    frames of the source follow those of the Molecule, atom by atom, and so
    do the steps and times.  The file locations of the Molecule become one
    entry, followed by one entry per location of the source. *)
Theorem _mergeTrajectories_appends_frames (m mol : Molecule) :
  _numAtomsTraj m <> 0 -> _numAtomsTraj mol = _numAtomsTraj m ->
  length (box m) = length (box mol) ->
  length (boxangles m) = length (boxangles mol) ->
  exists m',
    _mergeTrajectories [mol] None true m = Ok tt m'
    /\ numFrames m' = numFrames m + numFrames mol
    /\ cdata (coords m')
       = map2 (map2 (@app float32)) (cdata (coords m)) (cdata (coords mol))
    /\ _numAtomsTraj m' = _numAtomsTraj m
    /\ box m' = map2 (@app float32) (box m) (box mol)
    /\ step m' = NdArray (items (step m) ++ items (step mol))
    /\ time m' = NdArray (items (time m) ++ items (time mol))
    /\ fileloc m' = Locs (fileloc m) :: fileloc mol
    /\ _frame m' = _frame m.
Proof.
  intros Hm Heq Hb Hba.
  assert (Hm' : (_numAtomsTraj m =? 0) = false) by (apply Nat.eqb_neq; exact Hm).
  assert (Ht' : (_numAtomsTraj mol =? 0) = false)
    by (apply Nat.eqb_neq; rewrite Heq; exact Hm).
  unfold _mergeTrajectories. unfold bind at 1. unfold gets at 1.
  rewrite Hm'. cbn [andb app filter negb]. rewrite Ht'.
  cbn [negb app length Nat.ltb Nat.leb map concat_frames concat_last concat1
       concat].
  unfold lift, bind, gets, modify, ret.
  destruct m, mol. destruct coords0 as [cd0 cf0], coords1 as [cd1 cf1].
  norm_state. unfold _numAtomsTopo, _numAtomsTraj, numFrames in *.
  norm_state_all.
  replace (length cd0 =? length cd1) with true
    by (symmetry; apply Nat.eqb_eq; congruence).
  cbv beta iota. norm_state.
  replace (length box0 =? length box1) with true
    by (symmetry; apply Nat.eqb_eq; exact Hb).
  cbv beta iota. norm_state.
  replace (length boxangles0 =? length boxangles1) with true
    by (symmetry; apply Nat.eqb_eq; exact Hba).
  cbv beta iota. norm_state.
  assert (Hl : length (map2 (map2 (@app float32)) cd0 cd1) = length cd0).
  { unfold map2. rewrite length_map, length_combine. lia. }
  rewrite Hl, Hm', andb_false_r. cbv beta iota.
  eexists. split; [reflexivity|]. norm_state. rewrite !app_nil_r.
  repeat split. exact Hl.
Qed.

Lemma _mergeTrajectories_appends_frames_witness :
  exists m',
    _mergeTrajectories [one_frame_traj] None true two_frames = Ok tt m'
    /\ numFrames m' = 3
    /\ length (fileloc m') = 2
    /\ _frame m' = 1%Z.
Proof.
  destruct (_mergeTrajectories_appends_frames two_frames one_frame_traj)
    as (m' & E & Hn & _ & _ & _ & _ & _ & Hf & Hfr).
  - discriminate.
  - reflexivity.
  - reflexivity.
  - reflexivity.
  - exists m'. split; [exact E|]. rewrite Hn, Hf, Hfr. repeat split.
Defined.

(** ** insert and append at an index of the Molecule *)











Lemma rows_below_map (n n' : nat) (f : nat -> nat) (rows : list (list nat)) :
  (forall e, e < n -> f e < n') -> rows_below n rows ->
  rows_below n' (map (map f) rows).
Proof.
  unfold rows_below. intros Hf H.
  apply Forall_forall. intros r Hr. apply in_map_iff in Hr as (r0 & <- & Hr0).
  rewrite Forall_forall in H. specialize (H r0 Hr0).
  apply Forall_forall. intros e He. apply in_map_iff in He as (e0 & <- & He0).
  rewrite Forall_forall in H. apply Hf, H, He0.
Qed.









(** insert into a Molecule that has coordinates, when it or the given
    molecule does not have exactly one frame, raises NameError on the first
    test of the method, before any assignment: the Molecule is as it was. *)
Theorem insert_refuses_multiple_frames (m mol : Molecule) (index : nat) :
  size3 (coords m) <> 0 ->
  cframes (coords m) <> 1 \/ cframes (coords mol) <> 1 ->
  insert mol index m = Raise (NameError "Failed to insert/append molecule") m.
Proof.
  intros Hs Hf. unfold insert, insert_try.
  unfold bind at 1. unfold gets at 1.
  replace (negb (size3 (coords m) =? 0)
           && (negb (cframes (coords m) =? 1) || negb (cframes (coords mol) =? 1)))
    with true.
  - reflexivity.
  - symmetry. apply andb_true_iff. split.
    + apply negb_true_iff, Nat.eqb_neq. exact Hs.
    + apply orb_true_iff.
      destruct Hf as [Hf|Hf]; [left|right];
        apply negb_true_iff, Nat.eqb_neq; exact Hf.
Qed.

Lemma insert_refuses_multiple_frames_witness :
  insert one_atom 0 two_frames
  = Raise (NameError "Failed to insert/append molecule") two_frames.
Proof.
  apply (insert_refuses_multiple_frames two_frames one_atom 0).
  - cbn. lia.
  - left. cbn. lia.
Defined.

(** ** UniqueAtomID on the Molecule it was taken from *)

Lemma nth_error_map2 {A B C} (f : A -> B -> C) (a : list A) (b : list B)
    (i : nat) (x : A) (y : B) :
  nth_error a i = Some x -> nth_error b i = Some y ->
  nth_error (map2 f a b) i = Some (f x y).
Proof.
  revert b i. induction a as [|a0 a IH]; intros b i Ha Hb.
  - destruct i; discriminate.
  - destruct b as [|b0 b]; [destruct i; discriminate|].
    destruct i as [|i]; cbn in *.
    + injection Ha as ->. injection Hb as ->. reflexivity.
    + apply IH; assumption.
Qed.

Lemma where_from_In (mask : list bool) : forall k i,
  nth_error mask i = Some true -> In (k + i) (where_from k mask).
Proof.
  induction mask as [|b r IH]; intros k i H; [destruct i; discriminate|].
  destruct i as [|i]; cbn in H.
  - injection H as ->. cbn. left. lia.
  - cbn [where_from]. replace (k + S i) with (S k + i) by lia.
    destruct b; [right|]; apply IH; exact H.
Qed.

Lemma where_from_true (mask : list bool) : forall k j,
  In j (where_from k mask) -> nth_error mask (j - k) = Some true.
Proof.
  induction mask as [|b r IH]; intros k j H; [contradiction|].
  cbn [where_from] in H. destruct b.
  - destruct H as [<-|H]; [rewrite Nat.sub_diag; reflexivity|].
    pose proof (where_from_ge _ _ _ H).
    replace (j - k) with (S (j - S k)) by lia. cbn. apply IH, H.
  - pose proof (where_from_ge _ _ _ H).
    replace (j - k) with (S (j - S k)) by lia. cbn. apply IH, H.
Qed.

(** the row a snapshot was read from agrees with the snapshot *)
Lemma mask_of_own_row (m : Molecule) (i : nat) (u : UniqueAtomID.t) :
  atom_fields_aligned m -> i < numAtoms m ->
  UniqueAtomID.fromMolecule m None (Some i) = Val u ->
  nth_error (mask_of u m) i = Some true.
Proof.
  unfold atom_fields_aligned. cbv zeta.
  intros (_ & _ & Hn & Ha & Hr & Hc & Hi & Hs & _ & _ & Hg & _) Hlt Hu.
  unfold UniqueAtomID.fromMolecule in Hu. cbn [length Nat.ltb Nat.leb] in Hu.
  unfold UniqueAtomID.mol_name, UniqueAtomID.mol_altloc,
    UniqueAtomID.mol_resname, UniqueAtomID.mol_chain, UniqueAtomID.mol_resid,
    UniqueAtomID.mol_insertion, UniqueAtomID.mol_segid in Hu.
  destruct (nth_error (name m) i) as [a|] eqn:E1; [|discriminate].
  destruct (nth_error (altloc m) i) as [b|] eqn:E2; [|discriminate].
  destruct (nth_error (resname m) i) as [c|] eqn:E3; [|discriminate].
  destruct (nth_error (chain m) i) as [d|] eqn:E4; [|discriminate].
  destruct (nth_error (resid m) i) as [e|] eqn:E5; [|discriminate].
  destruct (nth_error (insertion m) i) as [f|] eqn:E6; [|discriminate].
  destruct (nth_error (segid m) i) as [g|] eqn:E7; [|discriminate].
  injection Hu as <-. unfold mask_of. cbv zeta. cbn [UniqueAtomID.name
    UniqueAtomID.altloc UniqueAtomID.resname UniqueAtomID.chain
    UniqueAtomID.resid UniqueAtomID.insertion UniqueAtomID.segid].
  assert (S1 : forall (fld : list string) (v : string),
             nth_error fld i = Some v ->
             nth_error (map (fun x => String.eqb x v) fld) i = Some true).
  { intros fld v H. rewrite nth_error_map, H. cbn. rewrite String.eqb_refl.
    reflexivity. }
  assert (S2 : nth_error (map (fun x => Z.eqb x e) (resid m)) i = Some true).
  { rewrite nth_error_map, E5. cbn. rewrite Z.eqb_refl. reflexivity. }
  assert (S0 : nth_error (repeat true (numAtoms m)) i = Some true)
    by (apply nth_error_repeat_lt; exact Hlt).
  change (Some true) with (Some (true && true)) at 1.
  repeat (apply nth_error_map2;
          [change (Some true) with (Some (true && true)) at 1|]);
    first [ exact S0 | exact S2 | apply S1; assumption ].
Qed.

(** A UniqueAtomID taken from atom [i] of a Molecule holds the seven
    identifying fields of that atom, and resolved on the same Molecule it
    gives [i] back, or the error of an atom that is not unique when another
    atom has the same seven fields: it is never reported as absent. *)
Theorem selectAtom_on_source_molecule (m : Molecule) (i : nat) :
  atom_fields_aligned m -> i < numAtoms m ->
  exists u,
    UniqueAtomID.fromMolecule m None (Some i) = Val u
    /\ nth_error (name m) i = Some (UniqueAtomID.name u)
    /\ nth_error (resname m) i = Some (UniqueAtomID.resname u)
    /\ nth_error (resid m) i = Some (UniqueAtomID.resid u)
    /\ (UniqueAtomID.selectAtom u m true None = Val (UniqueAtomID.AtomIndex i)
        \/ UniqueAtomID.selectAtom u m true None
           = Exn (RuntimeError "The atom is no longer unique in your Molecule"))
    /\ (forall j, UniqueAtomID.selectAtom u m true None
                  = Val (UniqueAtomID.AtomIndex j) -> j = i).
Proof.
  intros Hal Hlt.
  assert (Hex : exists u, UniqueAtomID.fromMolecule m None (Some i) = Val u
                          /\ nth_error (name m) i = Some (UniqueAtomID.name u)
                          /\ nth_error (resname m) i = Some (UniqueAtomID.resname u)
                          /\ nth_error (resid m) i = Some (UniqueAtomID.resid u)).
  { unfold atom_fields_aligned in Hal. cbv zeta in Hal.
    destruct Hal as (_ & _ & Hn & Ha & Hr & Hc & Hi & Hs & _ & _ & Hg & _).
    unfold UniqueAtomID.fromMolecule. cbn [length Nat.ltb Nat.leb].
    unfold UniqueAtomID.mol_name, UniqueAtomID.mol_altloc,
      UniqueAtomID.mol_resname, UniqueAtomID.mol_chain, UniqueAtomID.mol_resid,
      UniqueAtomID.mol_insertion, UniqueAtomID.mol_segid.
    destruct (nth_error (name m) i) as [a|] eqn:E1;
      [|apply nth_error_None in E1; lia].
    destruct (nth_error (altloc m) i) as [b|] eqn:E2;
      [|apply nth_error_None in E2; lia].
    destruct (nth_error (resname m) i) as [c|] eqn:E3;
      [|apply nth_error_None in E3; lia].
    destruct (nth_error (chain m) i) as [d|] eqn:E4;
      [|apply nth_error_None in E4; lia].
    destruct (nth_error (resid m) i) as [e|] eqn:E5;
      [|apply nth_error_None in E5; lia].
    destruct (nth_error (insertion m) i) as [f|] eqn:E6;
      [|apply nth_error_None in E6; lia].
    destruct (nth_error (segid m) i) as [g|] eqn:E7;
      [|apply nth_error_None in E7; lia].
    eexists. repeat split. }
  destruct Hex as (u & Hu & N1 & N2 & N3). exists u.
  split; [exact Hu|]. split; [exact N1|]. split; [exact N2|]. split; [exact N3|].
  pose proof (mask_of_own_row m i u Hal Hlt Hu) as Hrow.
  destruct (matching_aligned u m Hal) as (Hmatch & _).
  rewrite (selectAtom_from_mask u m _ Hmatch).
  pose proof (where_from_In (mask_of u m) 0 i Hrow) as Hin. cbn in Hin.
  fold (where_ (mask_of u m)) in Hin.
  destruct (where_ (mask_of u m)) as [|j [|j' r]].
  - contradiction.
  - destruct Hin as [->|[]]. split; [left; reflexivity|].
    intros j0 H. injection H as <-. reflexivity.
  - split; [right; reflexivity|]. intros j0 H. discriminate H.
Qed.

Lemma selectAtom_on_source_molecule_witness :
  exists u,
    UniqueAtomID.fromMolecule scenario_A None (Some 4) = Val u
    /\ UniqueAtomID.name u = "S"
    /\ UniqueAtomID.selectAtom u scenario_A true None
       = Val (UniqueAtomID.AtomIndex 4).
Proof.
  destruct (selectAtom_on_source_molecule scenario_A 4)
    as (u & Hu & Hn & _ & _ & Hs & _).
  - unfold atom_fields_aligned; cbn; repeat split.
  - cbn. lia.
  - exists u. split; [exact Hu|].
    cbn in Hn. injection Hn as Hn. split; [symmetry; exact Hn|].
    cbn in Hu. injection Hu as <-. vm_compute. reflexivity.
Defined.

(** fromMolecule wants exactly one of its two arguments, and a selection of
    exactly one atom: the other calls raise RuntimeError. *)
Theorem fromMolecule_wants_one_atom (m : Molecule) :
  UniqueAtomID.fromMolecule m None None
  = Exn (RuntimeError "Either sel or idx arguments must be used (and not both).")
  /\ (forall s i, UniqueAtomID.fromMolecule m (Some s) (Some i)
        = Exn (RuntimeError "Either sel or idx arguments must be used (and not both)."))
  /\ (forall i j r, UniqueAtomID.fromMolecule m (Some (SelIdx (i :: j :: r))) None
        = Exn (RuntimeError "Your atomselection returned more than one atom"))
  /\ (forall k, UniqueAtomID.fromMolecule m (Some (SelMask (repeat false k))) None
        = Exn (RuntimeError "Your atomselection didn't match any atom"))
  /\ (forall i, numAtoms m <= i -> atom_fields_aligned m ->
        UniqueAtomID.fromMolecule m None (Some i) = Exn IndexError).
Proof.
  split; [reflexivity|]. split; [reflexivity|]. split; [reflexivity|].
  split.
  - intros k. unfold UniqueAtomID.fromMolecule, atomselect_idx, atomselect,
      bind, gets, ret. unfold where_. rewrite where_from_repeat_false.
    reflexivity.
  - intros i Hi Hal. unfold atom_fields_aligned in Hal. cbv zeta in Hal.
    destruct Hal as (_ & _ & Hn & _).
    unfold UniqueAtomID.fromMolecule. cbn [length Nat.ltb Nat.leb].
    unfold UniqueAtomID.mol_name.
    replace (nth_error (name m) i) with (@None string)
      by (symmetry; apply nth_error_None; lia).
    reflexivity.
Qed.

(** [__eq__] holds exactly when the seven fields are the same *)
Theorem UniqueAtomID_eq_iff (a b : UniqueAtomID.t) :
  UniqueAtomID.eq_ a b = true <-> a = b.
Proof.
  unfold UniqueAtomID.eq_. split.
  - intros H. repeat (apply andb_true_iff in H; destruct H as [H ?]).
    destruct a, b. cbn in *.
    repeat match goal with
           | E : String.eqb _ _ = true |- _ => apply String.eqb_eq in E
           | E : Z.eqb _ _ = true |- _ => apply Z.eqb_eq in E
           end.
    subst. reflexivity.
  - intros ->. rewrite !String.eqb_refl, Z.eqb_refl. reflexivity.
Qed.



(** ** reorderAtoms and the inverse order *)

Lemma nth_error_all_eq {A} (l l' : list A) :
  (forall i, nth_error l i = nth_error l' i) -> l = l'.
Proof.
  revert l'. induction l as [|x r IH]; intros l' H.
  - destruct l' as [|y r']; [reflexivity|]. specialize (H 0). discriminate H.
  - destruct l' as [|y r']; [specialize (H 0); discriminate H|].
    pose proof (H 0) as H0. cbn in H0. injection H0 as ->.
    f_equal. apply IH. intros i. exact (H (S i)).
Qed.

Lemma inverse_order_nth (order : list nat) (n e : nat) :
  e < n -> nth e (map (pos order) (seq 0 n)) 0 = pos order e.
Proof.
  intros He.
  rewrite (nth_indep _ 0 (pos order 0)) by (rewrite length_map, length_seq; exact He).
  rewrite map_nth, seq_nth by exact He. reflexivity.
Qed.

(** the inverse order of a permutation is a permutation *)
Lemma inverse_order_perm (order : list nat) (n : nat) :
  Permutation order (seq 0 n) ->
  Permutation (map (pos order) (seq 0 n)) (seq 0 n).
Proof.
  intros Hp. destruct (pos_inverse order n Hp) as (P1 & P2).
  apply Permutation_map_same_l.
  - apply NoDup_map_NoDup_ForallPairs; [|apply seq_NoDup].
    intros x y Hx Hy E. apply in_seq in Hx, Hy.
    destruct (P1 x) as (_ & Ex); [lia|]. destruct (P1 y) as (_ & Ey); [lia|].
    rewrite <- Ex, <- Ey, E. reflexivity.
  - intros j Hj. apply in_map_iff in Hj as (e & <- & He). apply in_seq in He.
    apply in_seq. destruct (P1 e); lia.
Qed.

Lemma reordered_back {A} (order : list nat) (n : nat) (l l' l'' : list A) :
  Permutation order (seq 0 n) ->
  length l = n \/ length l = 0 ->
  reordered order l l' ->
  reordered (map (pos order) (seq 0 n)) l' l'' ->
  l'' = l.
Proof.
  intros Hp HL (Hl1 & H1) (Hl2 & H2).
  destruct (pos_inverse order n Hp) as (P1 & _).
  apply nth_error_all_eq. intros i.
  destruct (Nat.lt_ge_cases i (length l)) as [Hi|Hi].
  - assert (Hn : length l = n) by (destruct HL; [assumption|lia]).
    rewrite H2 by lia. rewrite inverse_order_nth by lia.
    destruct (P1 i) as (Q1 & Q2); [lia|].
    rewrite H1 by lia. rewrite Q2. reflexivity.
  - replace (nth_error l i) with (@None A) by (symmetry; apply nth_error_None; lia).
    apply nth_error_None. lia.
Qed.

Lemma reordered_aligned (order : list nat) (m m' : Molecule) :
  atom_fields_aligned m -> coords_aligned m ->
  atoms_reordered order m m' ->
  numAtoms m' = numAtoms m /\ atom_fields_aligned m' /\ coords_aligned m'.
Proof.
  intros Hal Hc Hat. unfold atoms_reordered, reordered in Hat.
  destruct Hat as ((R1 & _) & (R2 & _) & (R3 & _) & (R4 & _) & (R5 & _)
                   & (R6 & _) & (R7 & _) & (R8 & _) & (R9 & _) & (R10 & _)
                   & (R11 & _) & (R12 & _) & (R13 & _) & (R14 & _) & (R15 & _)
                   & (R16 & _) & _).
  assert (Hn : numAtoms m' = numAtoms m).
  { unfold numAtoms, _numAtomsTopo, _numAtomsTraj. rewrite R1, R16. reflexivity. }
  split; [exact Hn|]. split.
  - unfold atom_fields_aligned in *. cbv zeta in *. rewrite Hn.
    rewrite R1, R2, R3, R4, R5, R6, R7, R8, R9, R10, R11, R12, R13, R14, R15.
    exact Hal.
  - unfold coords_aligned in *. rewrite Hn, R16. exact Hc.
Qed.

(** reorderAtoms by a permutation and then by the inverse order the method
    computes gives back every per-atom field, the coordinates and the
    connectivity: the second call undoes the first. *)
Theorem reorderAtoms_inverse_restores (m : Molecule) (order : list nat) :
  atom_fields_aligned m -> endpoints_valid m -> coords_aligned m ->
  Permutation order (seq 0 (numAtoms m)) ->
  exists inv m' m'',
    inverseorder order = Val inv
    /\ reorderAtoms order m = Ok tt m'
    /\ reorderAtoms inv m' = Ok tt m''
    /\ invariant m'
    /\ record m'' = record m /\ serial m'' = serial m /\ name m'' = name m
    /\ altloc m'' = altloc m /\ resname m'' = resname m /\ chain m'' = chain m
    /\ resid m'' = resid m /\ insertion m'' = insertion m
    /\ occupancy m'' = occupancy m /\ beta m'' = beta m /\ segid m'' = segid m
    /\ element m'' = element m /\ charge m'' = charge m
    /\ masses m'' = masses m /\ atomtype m'' = atomtype m
    /\ cdata (coords m'') = cdata (coords m)
    /\ bonds m'' = bonds m /\ bondtype m'' = bondtype m
    /\ angles m'' = angles m /\ dihedrals m'' = dihedrals m
    /\ impropers m'' = impropers m.
Proof.
  intros Hal Hev Hc Hp.
  set (n := numAtoms m) in *.
  set (inv := map (pos order) (seq 0 n)).
  destruct (reorderAtoms_ok m order Hal Hev Hc Hp)
    as (m' & Hr & Hat & B & A & D & I & T).
  destruct (reordered_aligned order m m' Hal Hc Hat) as (Hn & Hal' & Hc').
  destruct (pos_inverse order n Hp) as (P1 & P2).
  pose proof (inverse_order_perm order n Hp) as Hpi. fold inv in Hpi.
  destruct (pos_inverse inv n Hpi) as (_ & Q2).
  assert (Hrows : forall rows, rows_below n rows ->
                    rows_below n (map (map (pos order)) rows)).
  { intros rows H. apply (rows_below_map n); [|exact H].
    intros e He. apply P1, He. }
  assert (Hev' : endpoints_valid m').
  { destruct Hev as (Eb & Ea & Ed & Ei). unfold endpoints_valid.
    rewrite Hn, B, A, D, I. fold n. repeat split; apply Hrows; assumption. }
  assert (Hpi' : Permutation inv (seq 0 (numAtoms m'))) by (rewrite Hn; exact Hpi).
  destruct (reorderAtoms_ok m' inv Hal' Hev' Hc' Hpi')
    as (m'' & Hr' & Hat' & B' & A' & D' & I' & T').
  assert (Hback : forall rows, rows_below n rows ->
                    map (map (pos inv)) (map (map (pos order)) rows) = rows).
  { intros rows H. rewrite map_map. rewrite <- (map_id rows) at 2.
    apply map_ext_in. intros r Hr0. rewrite map_map.
    rewrite <- (map_id r) at 2. apply map_ext_in. intros e He.
    unfold rows_below in H. rewrite Forall_forall in H. specialize (H r Hr0).
    rewrite Forall_forall in H. specialize (H e He).
    rewrite <- (inverse_order_nth order n e H). fold inv. apply Q2, H. }
  exists inv, m', m''.
  split; [exact (inverseorder_pos order n Hp)|].
  split; [exact Hr|]. split; [exact Hr'|].
  split; [split; [exact Hal'|split; [exact Hev'|exact Hc']]|].
  unfold atom_fields_aligned in Hal. cbv zeta in Hal. fold n in Hal.
  destruct Hal as (L1 & L2 & L3 & L4 & L5 & L6 & L7 & L8 & L9 & L10 & L11
                   & L12 & L13 & L14 & L15).
  unfold atoms_reordered in Hat, Hat'.
  destruct Hat as (R1 & R2 & R3 & R4 & R5 & R6 & R7 & R8 & R9 & R10 & R11
                   & R12 & R13 & R14 & R15 & R16 & _).
  destruct Hat' as (S1 & S2 & S3 & S4 & S5 & S6 & S7 & S8 & S9 & S10 & S11
                    & S12 & S13 & S14 & S15 & S16 & _).
  destruct Hev as (Eb & Ea & Ed & Ei).
  split; [apply (reordered_back order n _ _ _ Hp (or_introl L1) R1 S1)|].
  split; [apply (reordered_back order n _ _ _ Hp (or_introl L2) R2 S2)|].
  split; [apply (reordered_back order n _ _ _ Hp (or_introl L3) R3 S3)|].
  split; [apply (reordered_back order n _ _ _ Hp (or_introl L4) R4 S4)|].
  split; [apply (reordered_back order n _ _ _ Hp (or_introl L5) R5 S5)|].
  split; [apply (reordered_back order n _ _ _ Hp (or_introl L6) R6 S6)|].
  split; [apply (reordered_back order n _ _ _ Hp (or_introl L7) R7 S7)|].
  split; [apply (reordered_back order n _ _ _ Hp (or_introl L8) R8 S8)|].
  split; [apply (reordered_back order n _ _ _ Hp (or_introl L9) R9 S9)|].
  split; [apply (reordered_back order n _ _ _ Hp (or_introl L10) R10 S10)|].
  split; [apply (reordered_back order n _ _ _ Hp (or_introl L11) R11 S11)|].
  split; [apply (reordered_back order n _ _ _ Hp (or_introl L12) R12 S12)|].
  split; [apply (reordered_back order n _ _ _ Hp (or_introl L13) R13 S13)|].
  split; [apply (reordered_back order n _ _ _ Hp (or_introl L14) R14 S14)|].
  split; [apply (reordered_back order n _ _ _ Hp (or_introl L15) R15 S15)|].
  split; [apply (reordered_back order n _ _ _ Hp Hc R16 S16)|].
  rewrite B', A', D', I', T', B, A, D, I, T, !Hback by assumption.
  repeat split.
Qed.

Lemma reorderAtoms_inverse_restores_witness :
  exists inv m' m'',
    inverseorder [1; 0] = Val inv
    /\ reorderAtoms [1; 0] diatomic = Ok tt m'
    /\ reorderAtoms inv m' = Ok tt m''
    /\ name m'' = name diatomic
    /\ cdata (coords m'') = cdata (coords diatomic)
    /\ bonds m'' = bonds diatomic.
Proof.
  destruct (reorderAtoms_inverse_restores diatomic [1; 0])
    as (inv & m' & m'' & H1 & H2 & H3 & _ & _ & _ & Hn & _ & _ & _ & _ & _ & _
        & _ & _ & _ & _ & _ & _ & Hc & Hb & _).
  - unfold atom_fields_aligned; cbn; repeat split.
  - apply invariant_diatomic.
  - apply invariant_diatomic.
  - apply perm_swap.
  - exists inv, m', m''. repeat (split; [assumption|]). assumption.
Defined.

(** ** remove keeps the invariants *)

Lemma delete_rows_keeps_trajectory_info (idx : list nat) :
  preserves (fun s => (box s, boxangles s, step s, time s, fileloc s, _frame s))
            (delete_rows idx).
Proof.
  unfold delete_rows, delete_field, delete_coords. preserves_tac.
Qed.

(** remove of a set of atoms of a Molecule that satisfies the invariants,
    with a row of coordinates per atom and a bond type per bond: the result
    satisfies them again, and the frames, the box, the steps, the times and
    the frame pointer are those of before. *)
Theorem remove_preserves_invariant (m : Molecule) (idx : list nat) :
  atom_fields_aligned m -> endpoints_valid m ->
  length (cdata (coords m)) = numAtoms m ->
  length (bondtype m) = length (bonds m) ->
  NoDup idx -> Forall (fun i => i < numAtoms m) idx ->
  exists m',
    remove (SelIdx idx) m = Ok idx m'
    /\ numAtoms m' = numAtoms m - length idx
    /\ atom_fields_aligned m' /\ endpoints_valid m'
    /\ length (cdata (coords m')) = numAtoms m'
    /\ length (bondtype m') = length (bonds m')
    /\ numFrames m' = numFrames m /\ box m' = box m
    /\ step m' = step m /\ time m' = time m /\ _frame m' = _frame m.
Proof.
  intros Hal Hev Hc Hbt Hnd Hin.
  destruct (remove_ok m idx Hal Hev Hc (or_intror Hbt) Hnd Hin)
    as (m1 & m' & Hup & Hdel & Hrem & B & T & A & D & I & Hat).
  pose proof (numAtoms_after_delete m m' idx Hal Hc Hnd Hin Hat) as Hn.
  exists m'. split; [exact Hrem|]. split; [exact Hn|].
  split; [exact (atoms_deleted_aligned m m' idx Hal Hc Hnd Hin Hat)|].
  split.
  { destruct Hev as (Hb & Ha & Hd & Hi).
    unfold endpoints_valid. rewrite Hn, B, A, D, I.
    repeat split; apply remap_rows_below; assumption. }
  split.
  { destruct Hat as (_ & _ & _ & _ & _ & _ & _ & _ & _ & _ & _ & _ & _ & _ & _
                     & Ec & _).
    rewrite Hn, Ec. apply drop_at_length_count; assumption. }
  split.
  { rewrite B, T. unfold remap_rows, keep_types.
    rewrite length_map, <- compress_filter. apply compress_length. exact Hbt. }
  pose proof (delete_rows_keeps_trajectory_info idx _ _ _ Hdel) as Hk.
  assert (Hk1 : (box m1, boxangles m1, step m1, time m1, fileloc m1, _frame m1)
                = (box m, boxangles m, step m, time m, fileloc m, _frame m)).
  { apply (_update_preserves
             (fun s => (box s, boxangles s, step s, time s, fileloc s, _frame s))
             idx) with (a := tt) (m := m) (m' := m1);
      try (intros; reflexivity). exact Hup. }
  cbv beta in Hk. rewrite Hk1 in Hk. inversion Hk.
  split.
  { unfold numFrames.
    destruct Hat as (_ & _ & _ & _ & _ & _ & _ & _ & _ & _ & _ & _ & _ & _ & _
                     & _ & Ef).
    exact Ef. }
  repeat split; assumption.
Qed.

Lemma remove_preserves_invariant_witness :
  exists m',
    remove (SelIdx [2; 5]) scenario_A = Ok [2; 5] m'
    /\ numAtoms m' = 6
    /\ atom_fields_aligned m' /\ endpoints_valid m'.
Proof.
  destruct (remove_preserves_invariant scenario_A [2; 5])
    as (m' & Hr & Hn & Hal & Hev & _).
  - unfold atom_fields_aligned; cbn; repeat split.
  - apply invariant_scenario_A.
  - reflexivity.
  - reflexivity.
  - repeat constructor; cbn; intuition discriminate.
  - repeat constructor.
  - exists m'. split; [exact Hr|]. split; [exact Hn|]. split; assumption.
Defined.

(** ** What the merges and the altloc filter leave aside *)

(** _dropAltLoc removes nothing when keepaltloc is 'all', and nothing when
    _logger is False, whatever the alternative locations are: the removal
    stands under the test that guards the warning. *)
Theorem _dropAltLoc_removes_only_when_logging
    (m : Molecule) (keepaltloc : string) (_logger : bool) :
  _dropAltLoc "all" _logger m = Ok tt m
  /\ _dropAltLoc keepaltloc false m = Ok tt m.
Proof.
  unfold _dropAltLoc, bind, gets. split.
  - replace (String.eqb "all" "all") with true by reflexivity.
    cbn [negb]. rewrite andb_false_r. reflexivity.
  - rewrite andb_false_r. reflexivity.
Qed.

(** The topology merge passes over the sources that have no topology: when
    none of them has one, the Molecule is as it was, its topology location,
    file locations and view name included, and the sources are untouched. *)
Theorem _mergeTopologies_skips_sources_without_topology
    (deduce_element : string -> string -> string)
    (mols : list Molecule) (ow : overwrite_t) (m : Molecule) :
  Forall (fun mol => _numAtomsTopo mol = 0) mols ->
  _mergeTopologies deduce_element mols ow m = Ok mols m.
Proof.
  induction 1 as [|mol rest H _ IH]; [reflexivity|].
  cbn [_mergeTopologies]. unfold merge_one. rewrite H. cbn [Nat.eqb].
  unfold bind at 1. unfold ret at 1. unfold bind. rewrite IH. reflexivity.
Qed.

Lemma _mergeTopologies_skips_sources_without_topology_witness :
  _mergeTopologies (fun n _ => n) [Molecule_init; one_frame_traj] None three_atoms
  = Ok [Molecule_init; one_frame_traj] three_atoms.
Proof.
  apply (_mergeTopologies_skips_sources_without_topology (fun n _ => n)
           [Molecule_init; one_frame_traj] None three_atoms).
  repeat constructor.
Defined.

(** two named atoms made by [empty], which no reader has given a topology
    location *)
Definition named_unread : Molecule := Eval vm_compute in
  set_name ["A"; "B"] (state_of (empty 2 Molecule_init)).

(** A source without the topoloc attribute, which [__init__] does not
    assign: the statements that close the merge of a source raise
    AttributeError on reading it, after the elements have been guessed and the
    crystal information taken, and before the file locations and the view
    name are.  So the topology merge of two atoms made by [empty] into a new
    Molecule raises AttributeError with their names already merged. *)
Theorem merge_of_source_without_topoloc_raises :
  (forall (deduce_element : string -> string -> string)
          (mol s : Molecule) (el : list string),
      topoloc mol = Absent ->
      guess_from deduce_element 0 (element s) (name s) (resname s) = Val el ->
      exists s',
        merge_finish deduce_element mol s = Raise AttributeError s'
        /\ element s' = el /\ crystalinfo s' = crystalinfo mol
        /\ topoloc s' = topoloc s /\ fileloc s' = fileloc s
        /\ viewname s' = viewname s)
  /\ (forall deduce_element : string -> string -> string,
        exists m',
          _mergeTopologies deduce_element [named_unread] (Some ["all"])
                           Molecule_init
          = Raise AttributeError m'
          /\ name m' = ["A"; "B"]
          /\ element m' = [deduce_element "A" ""; deduce_element "B" ""]
          /\ numAtoms m' = 2 /\ topoloc m' = Absent).
Proof.
  split.
  - intros deduce_element mol s el Ht Hg. destruct s. norm_state_all.
    unfold merge_finish, _guessMissingElements, bind, gets, modify, ret.
    norm_state.
    destruct (negb (length bonds0 =? 0) && (length bondtype0 =? 0));
      norm_state; rewrite Hg; unfold lift, ret; rewrite Ht; unfold raise;
      (eexists; split; [reflexivity|]); norm_state; repeat split.
  - intros deduce_element. eexists. split; [vm_compute; reflexivity|].
    repeat split.
Qed.

(** ** calculateUniqueBonds: the calls that raise *)

(** calculateUniqueBonds with a non-empty bondtype that has not one entry
    per bond row fails its assertion; with no bond row and no bond type, given
    as None or as an empty array, it raises IndexError, on taking the first
    column of the one-dimensional array built from the empty set. *)
Theorem calculateUniqueBonds_raises
    (pyset : PySet) (argsorter : ArgSort) :
  (forall (bonds : list (nat * nat)) (bt : list string),
      bt <> [] -> length bt <> length bonds ->
      calculateUniqueBonds bonds (Some bt) = Exn AssertionError)
  /\ calculateUniqueBonds [] None = Exn IndexError
  /\ calculateUniqueBonds [] (Some []) = Exn IndexError.
Proof.
  assert (E : set_list [] = []).
  { destruct (set_list []) as [|t l] eqn:El; [reflexivity|].
    assert (Hin : In t (set_list [])) by (rewrite El; left; reflexivity).
    apply (set_list_In [] t) in Hin. destruct Hin. }
  split; [|split].
  - intros bonds bt Hne Hl. unfold calculateUniqueBonds.
    destruct bt as [|t bt]; [congruence|]. cbn [length Nat.ltb Nat.leb].
    apply Nat.eqb_neq in Hl. cbn [length] in Hl. rewrite Hl. reflexivity.
  - unfold calculateUniqueBonds. cbn [map].
    match goal with
    | |- context [set_list ?l] =>
        replace (set_list l) with (@nil bondtuple) by (symmetry; exact E)
    end.
    reflexivity.
  - unfold calculateUniqueBonds. cbn [length Nat.ltb Nat.leb map].
    match goal with
    | |- context [set_list ?l] =>
        replace (set_list l) with (@nil bondtuple) by (symmetry; exact E)
    end.
    reflexivity.
Qed.

(** ** UniqueAtomID across a removal, from the rows of the Molecule *)

(** atom [j] carries the seven fields of the id *)
Definition row_is (u : UniqueAtomID.t) (m : Molecule) (j : nat) : Prop :=
  nth_error (name m) j = Some (UniqueAtomID.name u)
  /\ nth_error (altloc m) j = Some (UniqueAtomID.altloc u)
  /\ nth_error (resname m) j = Some (UniqueAtomID.resname u)
  /\ nth_error (chain m) j = Some (UniqueAtomID.chain u)
  /\ nth_error (resid m) j = Some (UniqueAtomID.resid u)
  /\ nth_error (insertion m) j = Some (UniqueAtomID.insertion u)
  /\ nth_error (segid m) j = Some (UniqueAtomID.segid u).

(** atoms [i] and [j] agree on the seven identifying fields *)
Definition same_id (m : Molecule) (i j : nat) : Prop :=
  nth_error (name m) j = nth_error (name m) i
  /\ nth_error (altloc m) j = nth_error (altloc m) i
  /\ nth_error (resname m) j = nth_error (resname m) i
  /\ nth_error (chain m) j = nth_error (chain m) i
  /\ nth_error (resid m) j = nth_error (resid m) i
  /\ nth_error (insertion m) j = nth_error (insertion m) i
  /\ nth_error (segid m) j = nth_error (segid m) i.

(** the entry of the mask for a row is true exactly when the row carries
    the fields of the id *)
Lemma mask_of_row (u : UniqueAtomID.t) (m : Molecule) (j : nat) :
  atom_fields_aligned m -> j < numAtoms m ->
  (nth_error (mask_of u m) j = Some true <-> row_is u m j).
Proof.
  unfold atom_fields_aligned. cbv zeta.
  intros (_ & _ & Hn & Ha & Hr & Hc & Hi & Hs & _ & _ & Hg & _) Hlt.
  destruct (nth_error (name m) j) as [a|] eqn:E1;
    [|apply nth_error_None in E1; lia].
  destruct (nth_error (altloc m) j) as [b|] eqn:E2;
    [|apply nth_error_None in E2; lia].
  destruct (nth_error (resname m) j) as [c|] eqn:E3;
    [|apply nth_error_None in E3; lia].
  destruct (nth_error (chain m) j) as [d|] eqn:E4;
    [|apply nth_error_None in E4; lia].
  destruct (nth_error (resid m) j) as [e|] eqn:E5;
    [|apply nth_error_None in E5; lia].
  destruct (nth_error (insertion m) j) as [f|] eqn:E6;
    [|apply nth_error_None in E6; lia].
  destruct (nth_error (segid m) j) as [g|] eqn:E7;
    [|apply nth_error_None in E7; lia].
  assert (S1 : forall (fld : list string) (x v : string),
             nth_error fld j = Some x ->
             nth_error (map (fun y => String.eqb y v) fld) j
             = Some (String.eqb x v)).
  { intros fld x v H. rewrite nth_error_map, H. reflexivity. }
  assert (S2 : forall v, nth_error (map (fun y => Z.eqb y v) (resid m)) j
                         = Some (Z.eqb e v)).
  { intros v. rewrite nth_error_map, E5. reflexivity. }
  assert (S0 : nth_error (repeat true (numAtoms m)) j = Some true)
    by (apply nth_error_repeat_lt; exact Hlt).
  assert (Hm : nth_error (mask_of u m) j
               = Some (true && String.eqb a (UniqueAtomID.name u)
                       && String.eqb b (UniqueAtomID.altloc u)
                       && String.eqb c (UniqueAtomID.resname u)
                       && String.eqb d (UniqueAtomID.chain u)
                       && Z.eqb e (UniqueAtomID.resid u)
                       && String.eqb f (UniqueAtomID.insertion u)
                       && String.eqb g (UniqueAtomID.segid u))).
  { unfold mask_of. cbv zeta.
    repeat (apply nth_error_map2;
            [| first [apply S2 | apply S1; assumption]]).
    exact S0. }
  rewrite Hm. unfold row_is. rewrite E1, E2, E3, E4, E5, E6, E7. split.
  - intros H. injection H as H.
    repeat (apply andb_true_iff in H; destruct H as [H ?]).
    repeat match goal with
           | E : String.eqb _ _ = true |- _ => apply String.eqb_eq in E
           | E : Z.eqb _ _ = true |- _ => apply Z.eqb_eq in E
           end.
    subst. repeat split.
  - intros (H1 & H2 & H3 & H4 & H5 & H6 & H7).
    injection H1 as <-. injection H2 as <-. injection H3 as <-.
    injection H4 as <-. injection H5 as <-. injection H6 as <-.
    injection H7 as <-.
    rewrite !String.eqb_refl, Z.eqb_refl. reflexivity.
Qed.

(** the selected positions of the mask are the rows that carry the id *)
Lemma where_mask_of (u : UniqueAtomID.t) (m : Molecule) (j : nat) :
  atom_fields_aligned m ->
  (In j (where_ (mask_of u m)) <-> j < numAtoms m /\ row_is u m j).
Proof.
  intros Hal. destruct (matching_aligned u m Hal) as (_ & Hlen). split.
  - intros H. pose proof (where_from_true _ _ _ H) as Ht.
    rewrite Nat.sub_0_r in Ht.
    assert (Hj : j < numAtoms m).
    { rewrite <- Hlen. apply nth_error_Some. rewrite Ht. discriminate. }
    split; [exact Hj|]. apply (mask_of_row u m j Hal Hj). exact Ht.
  - intros (Hj & Hrow). apply (mask_of_row u m j Hal Hj) in Hrow.
    exact (where_from_In _ 0 j Hrow).
Qed.

Lemma NoDup_only {A} (l : list A) (x : A) :
  NoDup l -> In x l -> (forall y, In y l -> y = x) -> l = [x].
Proof.
  intros Hnd Hin Hall. destruct l as [|a r]; [contradiction|].
  assert (a = x) as -> by (apply Hall; left; reflexivity).
  destruct r as [|b r]; [reflexivity|].
  exfalso. assert (b = x) by (apply Hall; right; left; reflexivity). subst b.
  inversion Hnd as [|? ? Hx _]. apply Hx. left. reflexivity.
Qed.

Lemma NoDup_two {A} (l : list A) (x y : A) :
  NoDup l -> In x l -> In y l -> x <> y -> exists a b r, l = a :: b :: r.
Proof.
  intros Hnd Hx Hy Hne. destruct l as [|a [|b r]].
  - contradiction.
  - destruct Hx as [<-|[]]. destruct Hy as [<-|[]]. congruence.
  - exists a, b, r. reflexivity.
Qed.

(** the id read from an atom that exists, and its row *)
Lemma fromMolecule_row (m : Molecule) (i : nat) :
  atom_fields_aligned m -> i < numAtoms m ->
  exists u, UniqueAtomID.fromMolecule m None (Some i) = Val u /\ row_is u m i.
Proof.
  unfold atom_fields_aligned. cbv zeta.
  intros (_ & _ & Hn & Ha & Hr & Hc & Hi & Hs & _ & _ & Hg & _) Hlt.
  unfold UniqueAtomID.fromMolecule, row_is. cbn [length Nat.ltb Nat.leb].
  unfold UniqueAtomID.mol_name, UniqueAtomID.mol_altloc,
    UniqueAtomID.mol_resname, UniqueAtomID.mol_chain, UniqueAtomID.mol_resid,
    UniqueAtomID.mol_insertion, UniqueAtomID.mol_segid.
  destruct (nth_error (name m) i) as [a|] eqn:E1;
    [|apply nth_error_None in E1; lia].
  destruct (nth_error (altloc m) i) as [b|] eqn:E2;
    [|apply nth_error_None in E2; lia].
  destruct (nth_error (resname m) i) as [c|] eqn:E3;
    [|apply nth_error_None in E3; lia].
  destruct (nth_error (chain m) i) as [d|] eqn:E4;
    [|apply nth_error_None in E4; lia].
  destruct (nth_error (resid m) i) as [e|] eqn:E5;
    [|apply nth_error_None in E5; lia].
  destruct (nth_error (insertion m) i) as [f|] eqn:E6;
    [|apply nth_error_None in E6; lia].
  destruct (nth_error (segid m) i) as [g|] eqn:E7;
    [|apply nth_error_None in E7; lia].
  eexists. split; [reflexivity|]. cbn. repeat split.
Qed.

Lemma row_is_same_id (u : UniqueAtomID.t) (m : Molecule) (i j : nat) :
  row_is u m i -> row_is u m j -> same_id m i j.
Proof.
  unfold row_is, same_id.
  intros (A1 & A2 & A3 & A4 & A5 & A6 & A7) (B1 & B2 & B3 & B4 & B5 & B6 & B7).
  rewrite A1, A2, A3, A4, A5, A6, A7, B1, B2, B3, B4, B5, B6, B7.
  repeat split.
Qed.

(** C7, amended: let a Molecule satisfy the invariants, with a row of
    coordinates per atom, and let its atom [i] be the only one with its name,
    altloc, resname, chain, resid, insertion and segid.  The UniqueAtomID
    captured from atom [i] holds these seven fields and resolves to [i] on
    the Molecule.  After removing a set of atoms that does not hold [i],
    selectAtom returns the new position of atom [i], the number of remaining
    atoms before it, and the row at that position carries the seven fields;
    after removing a set that holds [i], selectAtom raises the error of the
    missing atom.  On any Molecule with aligned fields in which two different
    rows carry the seven fields of an id, selectAtom raises the error of the
    ambiguous atom, whether an index or a mask is asked for. *)
Theorem selectAtom_of_unique_atom_after_remove :
  (forall (m : Molecule) (i : nat) (idx : list nat),
      atom_fields_aligned m -> endpoints_valid m ->
      length (cdata (coords m)) = numAtoms m ->
      bondtype m = [] \/ length (bondtype m) = length (bonds m) ->
      NoDup idx -> Forall (fun j => j < numAtoms m) idx ->
      i < numAtoms m ->
      (forall j, j < numAtoms m -> same_id m i j -> j = i) ->
      exists u m',
        UniqueAtomID.fromMolecule m None (Some i) = Val u
        /\ row_is u m i
        /\ UniqueAtomID.selectAtom u m true None = Val (UniqueAtomID.AtomIndex i)
        /\ remove (SelIdx idx) m = Ok idx m'
        /\ (~ In i idx ->
            UniqueAtomID.selectAtom u m' true None
            = Val (UniqueAtomID.AtomIndex (newpos idx i))
            /\ newpos idx i < numAtoms m'
            /\ row_is u m' (newpos idx i))
        /\ (In i idx ->
            UniqueAtomID.selectAtom u m' true None
            = Exn (RuntimeError "The atom is no longer present in your Molecule")))
  /\ (forall (m : Molecule) (u : UniqueAtomID.t) (j k : nat) (indexes : bool),
         atom_fields_aligned m ->
         j < numAtoms m -> k < numAtoms m -> j <> k ->
         row_is u m j -> row_is u m k ->
         UniqueAtomID.selectAtom u m indexes None
         = Exn (RuntimeError "The atom is no longer unique in your Molecule")).
Proof.
  split.
  - intros m i idx Hal Hev Hc Hbt Hnd Hin Hi Huniq.
    destruct (fromMolecule_row m i Hal Hi) as (u & Hu & Hrow).
    assert (Hw : where_ (mask_of u m) = [i]).
    { apply NoDup_only.
      - apply where_from_NoDup.
      - apply (where_mask_of u m i Hal). split; assumption.
      - intros j Hj. apply (where_mask_of u m j Hal) in Hj as (Hj & Hrj).
        apply Huniq; [exact Hj|]. exact (row_is_same_id u m i j Hrow Hrj). }
    destruct (matching_aligned u m Hal) as (Hm & _).
    destruct (remove_ok m idx Hal Hev Hc Hbt Hnd Hin)
      as (m1 & m' & _ & _ & Hrem & _ & _ & _ & _ & _ & Hat).
    pose proof (atoms_deleted_aligned m m' idx Hal Hc Hnd Hin Hat) as Hal'.
    destruct (matching_aligned u m' Hal') as (Hm' & _).
    assert (Hw' : where_ (mask_of u m')
                  = map (newpos idx) (filter (survives idx) [i])).
    { rewrite (mask_of_deleted u m m' idx Hal Hc Hnd Hin Hat), where_drop_at, Hw.
      reflexivity. }
    exists u, m'. split; [exact Hu|]. split; [exact Hrow|].
    split; [rewrite (selectAtom_from_mask u m _ Hm), Hw; reflexivity|].
    split; [exact Hrem|].
    rewrite (selectAtom_from_mask u m' _ Hm'), Hw'.
    cbn [filter]. unfold survives. split; intros Hk.
    + apply memb_false in Hk.
      assert (Hin' : In (newpos idx i) (where_ (mask_of u m'))).
      { rewrite Hw'. cbn [filter]. unfold survives. rewrite Hk.
        left. reflexivity. }
      apply (where_mask_of u m' _ Hal') in Hin' as (Hlt & Hrow').
      rewrite Hk. cbn [negb map].
      split; [reflexivity|]. split; [exact Hlt|exact Hrow'].
    + apply memb_In in Hk. rewrite Hk. reflexivity.
  - intros m u j k indexes Hal Hj Hk Hne Hrj Hrk.
    destruct (matching_aligned u m Hal) as (Hm & _).
    assert (Hinj : In j (where_ (mask_of u m)))
      by (apply (where_mask_of u m j Hal); split; assumption).
    assert (Hink : In k (where_ (mask_of u m)))
      by (apply (where_mask_of u m k Hal); split; assumption).
    destruct (NoDup_two _ j k (where_from_NoDup 0 _) Hinj Hink Hne)
      as (a & b & r & E).
    unfold UniqueAtomID.selectAtom. rewrite Hm.
    unfold where_ in E. rewrite <- (where_from_count 0 (mask_of u m)), E.
    reflexivity.
Qed.

Lemma selectAtom_of_unique_atom_after_remove_witness :
  exists u,
    UniqueAtomID.fromMolecule scenario_A None (Some 4) = Val u
    /\ UniqueAtomID.selectAtom u scenario_A true None
       = Val (UniqueAtomID.AtomIndex 4)
    /\ UniqueAtomID.selectAtom u (state_of (remove (SelIdx [2; 5]) scenario_A)) true None
       = Val (UniqueAtomID.AtomIndex 3)
    /\ UniqueAtomID.selectAtom u (state_of (remove (SelIdx [4]) scenario_A)) true None
       = Exn (RuntimeError "The atom is no longer present in your Molecule")
    /\ UniqueAtomID.selectAtom (UniqueAtomID.mk "CA" "" "" "" 0 "" "") twins true None
       = Exn (RuntimeError "The atom is no longer unique in your Molecule").
Proof.
  destruct selectAtom_of_unique_atom_after_remove as (H1 & H2).
  assert (Hal : atom_fields_aligned scenario_A)
    by (unfold atom_fields_aligned; cbn; repeat split).
  assert (Hev : endpoints_valid scenario_A) by apply invariant_scenario_A.
  assert (Hc : length (cdata (coords scenario_A)) = numAtoms scenario_A)
    by reflexivity.
  assert (Hbt : bondtype scenario_A = []
                \/ length (bondtype scenario_A) = length (bonds scenario_A))
    by (right; reflexivity).
  assert (Hi : 4 < numAtoms scenario_A) by (cbn; lia).
  assert (Huniq : forall j, j < numAtoms scenario_A ->
                            same_id scenario_A 4 j -> j = 4).
  { intros j Hj (Hn & _). cbn in Hj, Hn.
    do 8 (destruct j as [|j]; [first [reflexivity|discriminate Hn]|]). lia. }
  assert (Hnd1 : NoDup [2; 5]) by (repeat constructor; cbn; intuition discriminate).
  assert (Hin1 : Forall (fun j => j < numAtoms scenario_A) [2; 5])
    by (repeat constructor).
  assert (Hnd2 : NoDup [4]) by (repeat constructor; cbn; intuition discriminate).
  assert (Hin2 : Forall (fun j => j < numAtoms scenario_A) [4])
    by (repeat constructor).
  destruct (H1 scenario_A 4 [2; 5] Hal Hev Hc Hbt Hnd1 Hin1 Hi Huniq)
    as (u & m' & Hu & _ & Hs & Hr & Hk & _).
  destruct (H1 scenario_A 4 [4] Hal Hev Hc Hbt Hnd2 Hin2 Hi Huniq)
    as (u2 & m2 & Hu2 & _ & _ & Hr2 & _ & Hk2).
  assert (u2 = u) as -> by congruence.
  exists u. split; [exact Hu|]. split; [exact Hs|]. split; [|split].
  - rewrite Hr. cbn [state_of].
    destruct Hk as (Hk & _); [cbn; intuition discriminate|]. exact Hk.
  - rewrite Hr2. cbn [state_of]. apply Hk2. left. reflexivity.
  - apply (H2 twins _ 0 1 true).
    + unfold atom_fields_aligned; cbn; repeat split.
    + cbn. lia.
    + cbn. lia.
    + discriminate.
    + cbn. repeat split.
    + cbn. repeat split.
Defined.

(** ** bondtype after the merge of two topologies without bond types *)

(** what two topology readers return for the same three atoms: the first
    file lists two bonds, the second one bond, neither gives bond types *)
Definition topology_two_bonds : Molecule := Eval vm_compute in
  set_topoloc (Present (Some "first.psf"))
    (set_bonds [[0; 1]; [1; 2]]
       (set_element ["N"; "C"; "C"]
          (set_name ["N"; "CA"; "C"] (state_of (empty 3 Molecule_init))))).
Definition topology_one_bond : Molecule := Eval vm_compute in
  set_topoloc (Present (Some "second.psf"))
    (set_bonds [[0; 1]]
       (set_element ["N"; "C"; "C"]
          (set_name ["N"; "CA"; "C"] (state_of (empty 3 Molecule_init))))).

(** C10 (as the code behaves at one input): a new Molecule reads two
    topologies of the same three atoms, neither with bond types, the first
    with two bonds and the second with one.  The merge returns: after the
    first source the two bonds have the placeholder 'un' each; the second
    source replaces the bonds by its one bond, its empty bondtype is skipped,
    and the fill is not run because bondtype is not empty.  The Molecule ends
    with one bond row and two bond types, and the next remove raises
    IndexError in the connectivity remap, where the mask of the bond rows
    indexes the bond types. *)
Theorem merge_leaves_bondtype_of_replaced_bonds :
  exists m1 m2,
    _mergeTopologies (fun n _ => n) [topology_two_bonds] (Some ["all"])
                     Molecule_init
    = Ok [topology_two_bonds] m1
    /\ bonds m1 = [[0; 1]; [1; 2]] /\ bondtype m1 = ["un"; "un"]
    /\ _mergeTopologies (fun n _ => n) [topology_two_bonds; topology_one_bond]
                        (Some ["all"]) Molecule_init
       = Ok [topology_two_bonds; topology_one_bond] m2
    /\ bonds m2 = [[0; 1]] /\ bondtype m2 = ["un"; "un"]
    /\ length (bondtype m2) <> length (bonds m2)
    /\ raised (remove (SelIdx [2]) m2) = Some IndexError.
Proof.
  eexists. eexists.
  split; [vm_compute; reflexivity|]. split; [reflexivity|].
  split; [reflexivity|].
  split; [vm_compute; reflexivity|]. split; [reflexivity|].
  split; [reflexivity|]. split; [discriminate|].
  vm_compute. reflexivity.
Qed.
